(** * Daily-needs shop dashboard (src/app.py): store, seed loader,
      reports and order workflow.

    The development follows the layout of [app.py]:
    - database helpers ([get_conn], the three tables of [init_db], which
      creates them when missing and touches no row, [seed_dummy_data]);
    - analytics ([load_tables], [compute_best_selling],
      [compute_top_profit_products], [compute_customers_per_hour],
      [compute_low_stock]);
    - the pages (dashboard, manage products, add order / finalize) and
      the script that serves one user action per run.

    Modelling conventions.
    - SQLite [INTEGER] columns and Python [int]s are [Z].  An [int64]
      column of a frame holds its sums as pandas does: they wrap around
      ([wrap64]), and a column that a left merge makes [float64] holds
      them rounded to 53 bits ([float64_of_int64]).
    - SQLite [REAL] columns, Python [float]s and [float64] columns are
      binary64 numbers, the primitive [float]s of Rocq, with the rounding
      of every operation.  A sum is taken the way the code takes it: a
      running total in a loop, [Series.sum()] (numpy's pairwise
      summation) or the grouped sum of pandas (compensated summation).
    - [sort_values] is not a stable sort; what it does with equal rows is
      a parameter of the reports that sort ([ties]), and every outcome of
      a sort is the outcome for some value of that parameter
      ([sort_values_desc_complete]).
    - A [datetime] is the number of microseconds on the naive local time
      line, a [timedelta] a number of microseconds.
    - A table is the list of its rows in rowid order.  [AUTOINCREMENT] keys
      come from a per-table counter ([sqlite_sequence]) that deleting rows
      does not reset.
    - A [sqlite3] connection holds the committed database (the file
      [shop.db]) and its own uncommitted view; statements change the view,
      [commit] publishes it, and [executescript] commits each statement of
      its script on its own.  Any statement may fail with
      [sqlite3.OperationalError]: the engine's fault schedule is part of
      the connection state.
    - Code that raises or touches the connection lives in the monad [M];
      the reports are given twice, as functions of the contents of the
      frames they are called with, and as programs on frames held by
      reference (monad [P]), where a write to a frame is seen by every
      holder of the frame. *)

From Stdlib Require Import ZArith List String Bool Lia Sorted Permutation
  OrderedTypeEx Floats.
Import ListNotations.

Local Open Scope Z_scope.

(** ** Schema ([init_db]) *)

Module Product.
Record t := mk
  { id : Z; name : string; cost_price : float; selling_price : float; stock_qty : Z }.
End Product.

Module Order.
Record t := mk
  { id : Z; order_time : Z; customer_name : string; total_amount : float }.
End Order.

Module OrderItem.
Record t := mk
  { id : Z; order_id : Z; product_id : Z; qty : Z; unit_price : float }.
End OrderItem.

(** The database: three tables and their [sqlite_sequence] counters. *)
Record db := mkdb
  { products : list Product.t;
    orders : list Order.t;
    order_items : list OrderItem.t;
    seq_products : Z;
    seq_orders : Z;
    seq_order_items : Z }.

(** The state of [shop.db] before [init_db] has ever inserted a row. *)
Definition empty_db : db := mkdb [] [] [] 0 0 0.

(** ** SQL statements of the program, on one database view *)

(** [INSERT INTO products (name, cost_price, selling_price, stock_qty)] *)
Definition insert_product (name : string) (cost sell : float) (stock : Z) (d : db)
  : unit * db :=
  let id := seq_products d + 1 in
  (tt, mkdb (products d ++ [Product.mk id name cost sell stock])
            (orders d) (order_items d)
            id (seq_orders d) (seq_order_items d)).

(** [INSERT INTO orders (order_time, customer_name, total_amount)];
    the result is [cur.lastrowid]. *)
Definition insert_order (otime : Z) (cust : string) (total : float) (d : db)
  : Z * db :=
  let id := seq_orders d + 1 in
  (id, mkdb (products d) (orders d ++ [Order.mk id otime cust total])
            (order_items d)
            (seq_products d) id (seq_order_items d)).

(** [INSERT INTO order_items (order_id, product_id, qty, unit_price)] *)
Definition insert_order_item (oid pid qty : Z) (price : float) (d : db)
  : unit * db :=
  let id := seq_order_items d + 1 in
  (tt, mkdb (products d) (orders d)
            (order_items d ++ [OrderItem.mk id oid pid qty price])
            (seq_products d) (seq_orders d) id).

(** [SELECT selling_price FROM products WHERE id = ?] followed by
    [cur.fetchone()]: the first matching row, or [None]. *)
Definition select_selling_price (pid : Z) (d : db) : option float * db :=
  (option_map Product.selling_price
     (find (fun p => Product.id p =? pid) (products d)), d).

(** [CASE WHEN stock_qty - ? < 0 THEN 0 ELSE stock_qty - ? END] *)
Definition deduct (stock qty : Z) : Z :=
  if stock - qty <? 0 then 0 else stock - qty.

Definition set_stock (f : Z -> Z) (pid : Z) (p : Product.t) : Product.t :=
  if Product.id p =? pid
  then Product.mk (Product.id p) (Product.name p) (Product.cost_price p)
                  (Product.selling_price p) (f (Product.stock_qty p))
  else p.

Definition update_products (f : Product.t -> Product.t) (d : db) : db :=
  mkdb (map f (products d)) (orders d) (order_items d)
       (seq_products d) (seq_orders d) (seq_order_items d).

(** [UPDATE products SET stock_qty = CASE ... END WHERE id = ?] *)
Definition update_stock_deduct (qty pid : Z) (d : db) : unit * db :=
  (tt, update_products (set_stock (fun s => deduct s qty) pid) d).

(** [UPDATE products SET stock_qty = stock_qty + ? WHERE id = ?] *)
Definition update_stock_add (qty pid : Z) (d : db) : unit * db :=
  (tt, update_products (set_stock (fun s => s + qty) pid) d).

Definition set_total (total : float) (oid : Z) (o : Order.t) : Order.t :=
  if Order.id o =? oid
  then Order.mk (Order.id o) (Order.order_time o) (Order.customer_name o) total
  else o.

(** [UPDATE orders SET total_amount = ? WHERE id = ?] *)
Definition update_order_total (total : float) (oid : Z) (d : db) : unit * db :=
  (tt, mkdb (products d) (map (set_total total oid) (orders d)) (order_items d)
            (seq_products d) (seq_orders d) (seq_order_items d)).

(** [SELECT count( * ) as c FROM products] *)
Definition count_products (d : db) : Z * db :=
  (Z.of_nat (List.length (products d)), d).

(** [DELETE FROM order_items], [DELETE FROM orders] and
    [DELETE FROM products].  The counters of [AUTOINCREMENT] survive. *)
Definition delete_order_items (d : db) : db :=
  mkdb (products d) (orders d) []
       (seq_products d) (seq_orders d) (seq_order_items d).

Definition delete_orders (d : db) : db :=
  mkdb (products d) [] (order_items d)
       (seq_products d) (seq_orders d) (seq_order_items d).

Definition delete_products (d : db) : db :=
  mkdb [] (orders d) (order_items d)
       (seq_products d) (seq_orders d) (seq_order_items d).

(** [DELETE FROM order_items; DELETE FROM orders; DELETE FROM products;] *)
Definition delete_script : list (db -> db) :=
  [delete_order_items; delete_orders; delete_products].

(** What the three statements together make of a view. *)
Definition delete_all (d : db) : db :=
  mkdb [] [] [] (seq_products d) (seq_orders d) (seq_order_items d).

(** ** Connections and the monad of the script *)

Record Connection := mkconn
  { committed : db;          (* what every connection to shop.db sees *)
    pending : db;            (* this connection's view, with its open transaction *)
    faults : list bool }.    (* engine outcome of the coming statements: true = error *)

(** [get_conn()]: a fresh connection to the file. *)
Definition get_conn (store : db) (sched : list bool) : Connection :=
  mkconn store store sched.

Inductive exn := TypeError | IndexError | KeyError | OperationalError.

Inductive result (A : Type) :=
| Ok (a : A)
| Raise (e : exn).
Arguments Ok {A} a.
Arguments Raise {A} e.

Definition M (A : Type) : Type := Connection -> result A * Connection.

Definition ret {A} (a : A) : M A := fun c => (Ok a, c).

Definition raise {A} (e : exn) : M A := fun c => (Raise e, c).

Definition bind {A B} (m : M A) (k : A -> M B) : M B :=
  fun c => match m c with
           | (Ok a, c') => k a c'
           | (Raise e, c') => (Raise e, c')
           end.

Declare Scope shop_scope.
Delimit Scope shop_scope with shop.
Notation "x <- m ;; k" := (bind m (fun x => k))
  (at level 61, m at next level, right associativity) : shop_scope.
Notation "m ;;; k" := (bind m (fun _ => k))
  (at level 61, right associativity) : shop_scope.
Local Open Scope shop_scope.

(** The engine consumes one entry of the fault schedule per call; an
    exhausted schedule means no further fault. *)
Definition next_fault (c : Connection) : bool * list bool :=
  match faults c with
  | [] => (false, [])
  | b :: rest => (b, rest)
  end.

(** [cur.execute(stmt)]: runs in the connection's open transaction. *)
Definition execute {A} (stmt : db -> A * db) : M A :=
  fun c =>
    let (bad, rest) := next_fault c in
    if bad then (Raise OperationalError, mkconn (committed c) (pending c) rest)
    else let (a, d) := stmt (pending c) in
         (Ok a, mkconn (committed c) d rest).

(** [conn.commit()] *)
Definition commit : M unit :=
  fun c =>
    let (bad, rest) := next_fault c in
    if bad then (Raise OperationalError, mkconn (committed c) (pending c) rest)
    else (Ok tt, mkconn (pending c) (pending c) rest).

(** The statements of a script, one after the other, each committed on
    its own; the engine consumes one entry of the fault schedule per
    statement, and an error stops the script where it is. *)
Fixpoint run_script (script : list (db -> db)) (d : db) (sched : list bool)
  : result unit * db * list bool :=
  match script with
  | [] => (Ok tt, d, sched)
  | stmt :: script' =>
      match sched with
      | true :: rest => (Raise OperationalError, d, rest)
      | false :: rest => run_script script' (stmt d) rest
      | [] => run_script script' (stmt d) []
      end
  end.

(** [cur.executescript(script)]: commits the open transaction, then runs
    the statements of the script in autocommit mode. *)
Definition executescript (script : list (db -> db)) : M unit :=
  fun c =>
    let '(r, d, rest) := run_script script (pending c) (faults c) in
    (r, mkconn d d rest).

(** What a second connection, opened with [get_conn()] while this one is
    in use, reads: the committed database. *)
Definition read_store : M db := fun c => (Ok (committed c), c).

(** [for x in xs: body(x)] *)
Fixpoint forM_ {A} (xs : list A) (body : A -> M unit) : M unit :=
  match xs with
  | [] => ret tt
  | x :: xs' => body x ;;; forM_ xs' body
  end.

(** A [for] loop that updates one local variable. *)
Fixpoint foldM {A B} (body : B -> A -> M B) (acc : B) (xs : list A) : M B :=
  match xs with
  | [] => ret acc
  | x :: xs' => acc' <- body acc x ;; foldM body acc' xs'
  end.

(** ** Numbers *)

(** A Python [int] (or an [int64] entry of a frame) as a [float]: the
    nearest binary64 value, ties to even. *)
Definition float_of_Z (z : Z) : float :=
  SF2Prim (binary_normalize prec emax z 0 false).

(** Eight running sums, as numpy's pairwise summation keeps them. *)
Module Sum8.
Record t := mk
  { r0 : float; r1 : float; r2 : float; r3 : float;
    r4 : float; r5 : float; r6 : float; r7 : float }.
End Sum8.

(** The unrolled loop of the summation: while eight more numbers are
    left, each running sum takes one; the result is the running sums and
    the numbers left over (fewer than eight). *)
Fixpoint accumulate8 (r : Sum8.t) (a : list float) : Sum8.t * list float :=
  match a with
  | a0 :: a1 :: a2 :: a3 :: a4 :: a5 :: a6 :: a7 :: a' =>
      accumulate8
        (Sum8.mk (Sum8.r0 r + a0) (Sum8.r1 r + a1) (Sum8.r2 r + a2)
                 (Sum8.r3 r + a3) (Sum8.r4 r + a4) (Sum8.r5 r + a5)
                 (Sum8.r6 r + a6) (Sum8.r7 r + a7))%float
        a'
  | _ => (r, a)
  end.

(** The sum of a block of at most 128 numbers: fewer than eight are added
    up one after the other; otherwise the eight running sums start from
    the first eight numbers, are added up in pairs, and take in the
    numbers left over one after the other. *)
Definition sum_block (a : list float) : float :=
  match a with
  | a0 :: a1 :: a2 :: a3 :: a4 :: a5 :: a6 :: a7 :: a' =>
      let (r, rest) := accumulate8 (Sum8.mk a0 a1 a2 a3 a4 a5 a6 a7) a' in
      fold_left PrimFloat.add rest
        (((Sum8.r0 r + Sum8.r1 r) + (Sum8.r2 r + Sum8.r3 r))
         + ((Sum8.r4 r + Sum8.r5 r) + (Sum8.r6 r + Sum8.r7 r)))%float
  | _ => fold_left PrimFloat.add a neg_zero
  end.

(** numpy's pairwise summation of a [float64] array: a block of more
    than 128 numbers is cut in two near the middle, at a multiple of 8,
    and the sums of the halves are added.  [fuel] bounds the depth of the
    cuts; the length of the array is enough. *)
Fixpoint pairwise_sum (fuel : nat) (a : list float) : float :=
  let n := List.length a in
  match fuel with
  | S fuel' =>
      if (n <=? 128)%nat then sum_block a
      else
        let n2 := (n / 2 - (n / 2) mod 8)%nat in
        (pairwise_sum fuel' (firstn n2 a) + pairwise_sum fuel' (skipn n2 a))%float
  | O => sum_block a
  end.

(** [Series.sum()] of a [float64] column, [skipna=True]: a NaN entry
    counts as 0, and numpy adds up the rest.  The sum of the empty column
    is 0; numpy starts the sum of a column with entries from the negative
    zero, which changes no sum (versions that start from the positive
    zero differ when every entry is the negative zero). *)
Definition series_sum (values : list float) : float :=
  match values with
  | [] => 0%float
  | _ =>
      let values := map (fun v => if is_nan v then 0%float else v) values in
      (neg_zero + pairwise_sum (List.length values) values)%float
  end.

(** ** Seed loader *)

Definition day : Z := 86400000000.

(** [timedelta(days=n)] subtracted from [now]. *)
Definition days_ago (now n : Z) : Z := now - n * day.

Definition seed_products : list (string * float * float * Z) :=
  [ ("Milk 1L", 20, 25, 50%Z);
    ("Bread Loaf", 15, 20, 30%Z);
    ("Eggs Pack (12)", 60, 75, 20%Z);
    ("Toothpaste", 40, 55, 10%Z);
    ("Soap", 10, 20, 5%Z);
    ("Rice 5kg", 250, 300, 8%Z);
    ("Cooking Oil 1L", 120, 150, 12%Z);
    ("Sugar 1kg", 40, 50, 0%Z);
    ("Salt 1kg", 12, 20, 40%Z);
    ("Tea Pack 100g", 30, 45, 3%Z) ]%string%float.

Definition sample_orders (now : Z) : list (string * Z * list (Z * Z)) :=
  [ ("Amit", days_ago now 2, [(1, 2); (2, 1)]);
    ("Shreya", days_ago now 5, [(3, 1); (5, 2)]);
    ("Ramesh", days_ago now 10, [(6, 1); (7, 1)]);
    ("Priya", days_ago now 1, [(1, 1); (2, 2); (9, 1)]);
    ("Karan", days_ago now 4, [(10, 1); (4, 1)]);
    ("Neha", days_ago now 8, [(1, 1); (8, 1)]);
    ("LocalShop", days_ago now 6, [(9, 5); (2, 5)]) ]%string.

(** One line of a sample order (the body of the inner loop); the result is
    the running [total]. *)
Definition seed_line (order_id : Z) (total : float) (line : Z * Z) : M float :=
  let (pid, qty) := line in
  row <- execute (select_selling_price pid) ;;
  match row with
  | None => ret total                                   (* continue *)
  | Some price =>
      execute (insert_order_item order_id pid qty price) ;;;
      let total := (total + price * float_of_Z qty)%float in
      execute (update_stock_deduct qty pid) ;;;
      ret total
  end.

(** One sample order (the body of the outer loop). *)
Definition seed_order (o : string * Z * list (Z * Z)) : M unit :=
  let '(cust, otime, items) := o in
  order_id <- execute (insert_order otime cust 0) ;;
  total <- foldM (seed_line order_id) 0%float items ;;
  execute (update_order_total total order_id).

(** The part of [seed_dummy_data] after the emptiness test, for any
    product list and any sample orders. *)
Definition seed_with (prods : list (string * float * float * Z))
    (samples : list (string * Z * list (Z * Z))) : M unit :=
  executescript delete_script ;;;
  commit ;;;
  forM_ prods (fun '(name, cost, sell, stock) =>
                 execute (insert_product name cost sell stock)) ;;;
  commit ;;;
  forM_ samples seed_order ;;;
  commit.

Definition seed_dummy_data (now : Z) (force : bool) : M unit :=
  c <- execute count_products ;;
  if (0 <? c) && negb force then ret tt
  else seed_with seed_products (sample_orders now).

(** ** Analytics *)

(** A row of the [order_items] frame of [load_tables]: the item joined
    with its product's name and cost. *)
Module ItemRow.
Record t := mk
  { id : Z; order_id : Z; product_id : Z; qty : Z; unit_price : float;
      product_name : string; cost_price : float }.
End ItemRow.

(** The [orders] frame: the table's rows, and the [hour] column once
    [compute_customers_per_hour] has added it to the frame. *)
Module OrdersFrame.
Record t := mk { rows : list Order.t; hour : option (list Z) }.
End OrdersFrame.

(** [SELECT oi.*, p.name as product_name, p.cost_price
     FROM order_items oi JOIN products p ON oi.product_id=p.id] *)
Definition join_items (d : db) : list ItemRow.t :=
  flat_map
    (fun oi =>
       map (fun p => ItemRow.mk (OrderItem.id oi) (OrderItem.order_id oi)
                       (OrderItem.product_id oi) (OrderItem.qty oi)
                       (OrderItem.unit_price oi)
                       (Product.name p) (Product.cost_price p))
           (filter (fun p => OrderItem.product_id oi =? Product.id p)
                   (products d)))
    (order_items d).

Definition load_tables : M (list Product.t * OrdersFrame.t * list ItemRow.t) :=
  products <- execute (fun d => (products d, d)) ;;
  orders <- execute (fun d => (OrdersFrame.mk (orders d) None, d)) ;;
  order_items <- execute (fun d => (join_items d, d)) ;;
  ret (products, orders, order_items).

(** *** The pandas operations the reports use *)

Section Frames.
Context {K V : Type} (cmp : K -> K -> comparison) (add : V -> V -> V).

(** One more row for a [groupby] whose groups are kept in key order. *)
Fixpoint group_add (k : K) (v : V) (g : list (K * V)) : list (K * V) :=
  match g with
  | [] => [(k, v)]
  | (k', v') :: g' =>
      match cmp k k' with
      | Lt => (k, v) :: g
      | Eq => (k', add v' v) :: g'
      | Gt => (k', v') :: group_add k v g'
      end
  end.

(** [df.groupby(key, as_index=False)[col].agg()]: one row per key, in
    key order, the values of a group combined in row order. *)
Definition groupby (kv : list (K * V)) : list (K * V) :=
  fold_left (fun g r => group_add (fst r) (snd r) g) kv [].
End Frames.

Section GroupSum.
Context {K S V : Type} (cmp : K -> K -> comparison) (init : S) (step : S -> V -> S).

(** One more row for a [groupby(...).sum()]: the accumulator of the row's
    key takes the value in; a new key starts from [init]. *)
Fixpoint group_step (k : K) (v : V) (g : list (K * S)) : list (K * S) :=
  match g with
  | [] => [(k, step init v)]
  | (k', s) :: g' =>
      match cmp k k' with
      | Lt => (k, step init v) :: g
      | Eq => (k', step s v) :: g'
      | Gt => (k', s) :: group_step k v g'
      end
  end.

(** [df.groupby(key, as_index=False)[col].sum()]: pandas keeps one
    accumulator per key and feeds it the rows in row order; the groups
    come out in key order. *)
Definition group_sum (kv : list (K * V)) : list (K * S) :=
  fold_left (fun g r => group_step (fst r) (snd r) g) kv [].
End GroupSum.

(** An [int64]: the sum of an integer column wraps around. *)
Definition wrap64 (z : Z) : Z := (z + 2 ^ 63) mod 2 ^ 64 - 2 ^ 63.

(** [sumx += val] on an [int64] accumulator. *)
Definition int64_add (s v : Z) : Z := wrap64 (s + v).

(** [sumx += val] on a [float64] accumulator, as [group_sum] of pandas
    does it: compensated (Kahan) summation; a NaN value is skipped, and a
    compensation that became NaN (after an infinite value) is reset.  The
    state is the sum and the compensation. *)
Definition kahan_step (s : float * float) (val : float) : float * float :=
  if is_nan val then s
  else
    let (sumx, compensation) := s in
    let y := (val - compensation)%float in
    let t := (sumx + y)%float in
    let compensation := (t - sumx - y)%float in
    (t, if is_nan compensation then 0%float else compensation).

(** [left.merge(right, how='left')] on a key: the rows of [left] in order,
    each with every matching row of [right], or with none (NaN). *)
Definition merge_left {L R K : Type} (eqb : K -> K -> bool)
    (lkey : L -> K) (rkey : R -> K) (left : list L) (right : list R)
  : list (L * option R) :=
  flat_map
    (fun l => match filter (fun r => eqb (lkey l) (rkey r)) right with
              | [] => [(l, None)]
              | ms => map (fun r => (l, Some r)) ms
              end)
    left.

(** [fillna({col: 0})] on the column a left merge brought in. *)
Definition fillna0 {K : Type} (m : option (K * Z)) : Z :=
  match m with
  | Some (_, v) => v
  | None => 0
  end.

(** The value of an [int64] after the cast to [float64]: the nearest
    number with 53 significant bits, ties to even.  It is an integer
    again. *)
Definition float64_of_int64 (z : Z) : Z :=
  let a := Z.abs z in
  let e := Z.log2 a - 52 in
  if e <=? 0 then z
  else
    let q := a / 2 ^ e in
    let r := a mod 2 ^ e in
    let half := 2 ^ (e - 1) in
    let q := if r <? half then q
             else if half <? r then q + 1
             else if Z.even q then q else q + 1 in
    Z.sgn z * (q * 2 ^ e).

(** [df.drop_duplicates()]: first occurrences, in order. *)
Fixpoint drop_duplicates_from {A : Type} (eqb : A -> A -> bool)
    (seen l : list A) : list A :=
  match l with
  | [] => []
  | x :: l' =>
      if existsb (eqb x) seen then drop_duplicates_from eqb seen l'
      else x :: drop_duplicates_from eqb (x :: seen) l'
  end.

Definition drop_duplicates {A : Type} (eqb : A -> A -> bool) (l : list A)
  : list A :=
  drop_duplicates_from eqb [] l.

(** [df.sort_values(col, ascending=False)]: the rows in descending order
    of the column.  pandas hands the column to numpy's [argsort] with
    [kind='quicksort'], which is not stable: which of two rows with equal
    values comes first depends on the size of the table and on the
    machine.  [ties] stands for that choice: among rows with equal values,
    the row at position [i] comes before the row at position [j] when
    [ties i < ties j], and rows with equal [ties] keep their order. *)
Section Insertion.
Context {A : Type} (ltb : A -> A -> bool).

(** [x] goes after the rows it sorts after, [ltb x y], and before the
    first row it does not. *)
Fixpoint insert_desc (x : A) (l : list A) : list A :=
  match l with
  | [] => [x]
  | y :: l' => if ltb x y then y :: insert_desc x l' else x :: l
  end.
End Insertion.

Section SortValues.
Context {A : Type} (ltb : A -> A -> bool) (ties : nat -> nat).

(** [x], a row with its position, sorts after [y]: its value is lower,
    or the values are equal and the routine puts [y] first. *)
Definition after (x y : nat * A) : bool :=
  ltb (snd x) (snd y)
  || (negb (ltb (snd y) (snd x)) && (ties (fst y) <? ties (fst x))%nat).

Definition sort_values_desc (l : list A) : list A :=
  map snd
      (fold_right (insert_desc after) []
                  (combine (seq 0 (List.length l)) l)).
End SortValues.

(** The order of a [float64] column for [sort_values]: NaN sorts last
    ([na_position='last']), so below every number. *)
Definition float_below (a b : float) : bool :=
  if is_nan a then negb (is_nan b)
  else if is_nan b then false
  else (a <? b)%float.

(** *** The four reports *)

Definition pair_eqb (a b : Z * string) : bool :=
  (fst a =? fst b) && String.eqb (snd a) (snd b).

Definition pair_compare (a b : Z * string) : comparison :=
  match fst a ?= fst b with
  | Eq => String.compare (snd a) (snd b)
  | c => c
  end.

(** Rows of [compute_best_selling]: [product_id], [qty], [product_name].
    [ties] is the choice of the sorting routine in this call. *)
Definition compute_best_selling (ties : nat -> nat)
    (order_items : list ItemRow.t) : list (Z * Z * option string) :=
  match order_items with
  | [] => []                                            (* pd.DataFrame() *)
  | _ =>
      let summary :=
        group_sum Z.compare 0 int64_add
          (map (fun i => (ItemRow.product_id i, ItemRow.qty i)) order_items) in
      let names :=
        drop_duplicates pair_eqb
          (map (fun i => (ItemRow.product_id i, ItemRow.product_name i))
               order_items) in
      let summary :=
        map (fun r => (fst (fst r), snd (fst r), option_map snd (snd r)))
            (merge_left Z.eqb fst fst summary names) in
      firstn 5 (sort_values_desc
                  (fun a b => snd (fst a) <? snd (fst b)) ties summary)
  end.

(** The [profit] column that [compute_top_profit_products] adds to its
    copy of the frame: [(unit_price - cost_price) * qty], the [int64]
    quantity cast to [float64]. *)
Definition profit_column (order_items : list ItemRow.t) : list float :=
  map (fun i => ((ItemRow.unit_price i - ItemRow.cost_price i)
                 * float_of_Z (ItemRow.qty i))%float) order_items.

(** [df.groupby(['product_id','product_name'], as_index=False)['profit'].sum()]
    on the rows with their [profit] column. *)
Definition profit_summary (df : list (ItemRow.t * float))
  : list (Z * string * float) :=
  map (fun r => (fst r, fst (snd r)))
      (group_sum pair_compare (0%float, 0%float) kahan_step
         (map (fun r => ((ItemRow.product_id (fst r),
                          ItemRow.product_name (fst r)), snd r)) df)).

(** Rows of [compute_top_profit_products]: [product_id], [product_name],
    [profit].  The function works on a copy of its argument. *)
Definition compute_top_profit_products (ties : nat -> nat)
    (order_items : list ItemRow.t) : list (Z * string * float) :=
  match order_items with
  | [] => []                                            (* pd.DataFrame() *)
  | _ =>
      let df := combine order_items (profit_column order_items) in
      firstn 5 (sort_values_desc
                  (fun a b => float_below (snd a) (snd b)) ties
                  (profit_summary df))
  end.

(** [order_time.dt.hour] *)
Definition hour_of (t : Z) : Z := (t / 3600000000) mod 24.

(** [range(0, 24)] *)
Definition hours_of_day : list Z := map Z.of_nat (seq 0 24).

(** Rows of [compute_customers_per_hour]: [hour], [customers].  The
    function writes the [hour] column into the frame it is given, so the
    frame as it is after the call is part of the result. *)
Definition compute_customers_per_hour (orders : OrdersFrame.t)
  : OrdersFrame.t * list (Z * Z) :=
  match OrdersFrame.rows orders with
  | [] => (orders, [])                                  (* pd.DataFrame() *)
  | _ =>
      let hours :=
        map (fun o => hour_of (Order.order_time o)) (OrdersFrame.rows orders) in
      let orders := OrdersFrame.mk (OrdersFrame.rows orders) (Some hours) in
      let per_hour :=
        groupby Z.compare Z.add (map (fun h => (h, 1)) hours) in
      let full := hours_of_day in
      (orders,
       map (fun r => (fst r, fillna0 (snd r)))
           (merge_left Z.eqb (fun h => h) fst full per_hour))
  end.

Module LowRow.
Record t := mk { id : Z; name : string; stock_qty : Z; sold_last_30d : Z }.
End LowRow.

(** The [qty] column of [low.merge(sales_30d, how='left').fillna({'qty':0})],
    each entry by its value.  When every row found its match the column
    is the [int64] column of the sums.  Otherwise the merge puts NaN in
    the rows without a match, which makes the column [float64]: the sums
    are cast, and [fillna] turns the NaN into 0. *)
Definition merged_qty {L : Type} (merged : list (L * option (Z * Z)))
  : list Z :=
  if forallb (fun r => match snd r with Some _ => true | None => false end) merged
  then map (fun r => fillna0 (snd r)) merged
  else map (fun r => float64_of_int64 (fillna0 (snd r))) merged.

(** [compute_low_stock]: besides its arguments it reads the clock and,
    through a connection of its own to [shop.db], the committed [orders]
    table ([store]).  Lines 145-146 of the source bind [recent_sales],
    which nothing reads. *)
Definition compute_low_stock (store : db) (now : Z)
    (products : list Product.t) (order_items : list ItemRow.t) (threshold : Z)
  : list LowRow.t :=
  let low := filter (fun p => Product.stock_qty p <? threshold) products in
  match low with
  | [] => []                                            (* return low *)
  | _ =>
      let last_30 := now - 30 * day in
      let order_recent :=
        filter (fun o => last_30 <=? Order.order_time o) (orders store) in
      match order_recent with
      | [] =>
          map (fun p => LowRow.mk (Product.id p) (Product.name p)
                          (Product.stock_qty p) 0) low
      | _ =>
          let recent_ids := map Order.id order_recent in
          let sales_30d :=
            group_sum Z.compare 0 int64_add
              (map (fun i => (ItemRow.product_id i, ItemRow.qty i))
                   (filter (fun i => existsb (Z.eqb (ItemRow.order_id i))
                                             recent_ids)
                           order_items)) in
          let low := merge_left Z.eqb Product.id fst low sales_30d in
          map (fun r => LowRow.mk (Product.id (fst (fst r)))
                          (Product.name (fst (fst r)))
                          (Product.stock_qty (fst (fst r))) (snd r))
              (combine low (merged_qty low))
      end
  end.

(** *** The reports as programs on frames held by reference *)

(** pandas hands a DataFrame around by reference: a function that assigns
    to a column of its argument changes the frame for its caller, and
    [.copy()] makes a new object.  The objects the reports work on: a
    products frame, with the [sold_last_30d] column once it is there; an
    orders frame; an order-items frame, with the [profit] column once it
    is there. *)
Inductive frame :=
| ProductsDf (rows : list Product.t) (sold_last_30d : option (list Z))
| OrdersDf (orders : OrdersFrame.t)
| ItemsDf (rows : list ItemRow.t) (profit : option (list float)).

(** What a report can touch: the objects of the interpreter, the file
    [shop.db] as a new connection finds it, and the clock. *)
Record world := mkworld { heap : list frame; shop : db; clock : Z }.

(** A program on the world; [None] stands for an exception of the
    interpreter (a name that holds no frame of the kind the code uses). *)
Definition P (A : Type) : Type := world -> option (A * world).

Definition ret_P {A} (a : A) : P A := fun w => Some (a, w).

Definition fail_P {A} : P A := fun _ => None.

Definition bind_P {A B} (m : P A) (k : A -> P B) : P B :=
  fun w => match m w with
           | Some (a, w') => k a w'
           | None => None
           end.

Declare Scope frames_scope.
Delimit Scope frames_scope with frames.
Notation "x <~ m ;; k" := (bind_P m (fun x => k))
  (at level 61, m at next level, right associativity) : frames_scope.
Notation "m ~;; k" := (bind_P m (fun _ => k))
  (at level 61, right associativity) : frames_scope.

(** The frame a name refers to. *)
Definition frame_at (r : nat) : P frame :=
  fun w => match nth_error (heap w) r with
           | Some f => Some (f, w)
           | None => None
           end.

(** A new object: [.copy()], or the result of an operation that builds a
    frame. *)
Definition new_frame (f : frame) : P nat :=
  fun w => Some (List.length (heap w),
                 mkworld (heap w ++ [f]) (shop w) (clock w)).

Fixpoint replace_nth {A} (n : nat) (x : A) (l : list A) : list A :=
  match l, n with
  | [], _ => []
  | _ :: l', O => x :: l'
  | y :: l', S n' => y :: replace_nth n' x l'
  end.

(** A write into the object itself: [df[col] = ...]. *)
Definition set_frame (r : nat) (f : frame) : P unit :=
  fun w => if (r <? List.length (heap w))%nat
           then Some (tt, mkworld (replace_nth r f (heap w)) (shop w) (clock w))
           else None.

(** [pd.read_sql_query("SELECT * FROM orders", get_conn())] *)
Definition read_sql_orders : P (list Order.t) :=
  fun w => Some (orders (shop w), w).

(** [datetime.now()] *)
Definition datetime_now : P Z := fun w => Some (clock w, w).

Local Open Scope frames_scope.

(** [compute_best_selling(order_items)] *)
Definition best_selling_on (ties : nat -> nat) (order_items : nat)
  : P (list (Z * Z * option string)) :=
  df <~ frame_at order_items ;;
  match df with
  | ItemsDf rows _ => ret_P (compute_best_selling ties rows)
  | _ => fail_P
  end.

(** [compute_top_profit_products(order_items)] *)
Definition top_profit_on (ties : nat -> nat) (order_items : nat)
  : P (list (Z * string * float)) :=
  arg <~ frame_at order_items ;;
  match arg with
  | ItemsDf [] _ => ret_P []                            (* pd.DataFrame() *)
  | ItemsDf rows profit =>
      df <~ new_frame (ItemsDf rows profit) ;;          (* order_items.copy() *)
      cols <~ frame_at df ;;
      match cols with
      | ItemsDf rows _ =>
          set_frame df (ItemsDf rows (Some (profit_column rows))) ~;;
          cols <~ frame_at df ;;
          match cols with
          | ItemsDf rows (Some profit) =>
              ret_P (firstn 5 (sort_values_desc
                                 (fun a b => float_below (snd a) (snd b)) ties
                                 (profit_summary (combine rows profit))))
          | _ => fail_P
          end
      | _ => fail_P
      end
  | _ => fail_P
  end.

(** [compute_customers_per_hour(orders)] *)
Definition customers_per_hour_on (orders : nat) : P (list (Z * Z)) :=
  arg <~ frame_at orders ;;
  match arg with
  | OrdersDf df =>
      let (df, per_hour) := compute_customers_per_hour df in
      set_frame orders (OrdersDf df) ~;;                (* orders['hour'] = ... *)
      ret_P per_hour
  | _ => fail_P
  end.

(** The rows of [low[['id','name','stock_qty','sold_last_30d']]]. *)
Definition low_rows (rows : list Product.t) (sold : list Z)
  : list LowRow.t :=
  map (fun r => LowRow.mk (Product.id (fst r)) (Product.name (fst r))
                  (Product.stock_qty (fst r)) (snd r))
      (combine rows sold).

(** [compute_low_stock(products, order_items, threshold)] *)
Definition low_stock_on (products order_items : nat) (threshold : Z)
  : P (list LowRow.t) :=
  arg <~ frame_at products ;;
  match arg with
  | ProductsDf rows _ =>
      let below := filter (fun p => Product.stock_qty p <? threshold) rows in
      low <~ new_frame (ProductsDf below None) ;;       (* products[...].copy() *)
      match below with
      | [] => ret_P []                                  (* return low *)
      | _ =>
          now <~ datetime_now ;;
          let last_30 := now - 30 * day in
          items <~ frame_at order_items ;;
          match items with
          | ItemsDf items _ =>
              order_recent <~ read_sql_orders ;;
              let order_recent :=
                filter (fun o => last_30 <=? Order.order_time o) order_recent in
              match order_recent with
              | [] =>
                  set_frame low                         (* low['sold_last_30d'] = 0 *)
                    (ProductsDf below (Some (map (fun _ => 0) below))) ~;;
                  cols <~ frame_at low ;;
                  match cols with
                  | ProductsDf rows (Some sold) => ret_P (low_rows rows sold)
                  | _ => fail_P
                  end
              | _ =>
                  let recent_ids := map Order.id order_recent in
                  let sales_30d :=
                    group_sum Z.compare 0 int64_add
                      (map (fun i => (ItemRow.product_id i, ItemRow.qty i))
                           (filter (fun i => existsb (Z.eqb (ItemRow.order_id i))
                                                     recent_ids)
                                   items)) in
                  let merged := merge_left Z.eqb Product.id fst below sales_30d in
                  low <~ new_frame                      (* low.merge(...).fillna(...) *)
                           (ProductsDf (map fst merged) (Some (merged_qty merged))) ;;
                  cols <~ frame_at low ;;
                  match cols with
                  | ProductsDf rows (Some sold) => ret_P (low_rows rows sold)
                  | _ => fail_P
                  end
              end
          | _ => fail_P
          end
      end
  | _ => fail_P
  end.

(** ** Admin - Manage Products *)

(** The "Add Product" form: [stock] comes from a number input with
    [min_value=0]. *)
Definition add_product (pname : string) (cost sell : float) (stock : Z) : M unit :=
  execute (insert_product pname cost sell stock) ;;;
  commit.

(** The "Update Stock" form: [add_qty] comes from a number input with
    [min_value=1]. *)
Definition add_stock (pid add_qty : Z) : M unit :=
  execute (update_stock_add add_qty pid) ;;;
  commit.

(** ** Admin - Add Order *)

(** The staged cart, [st.session_state['order_items_tmp']]: pairs
    [(product_id, qty)]. *)
Definition cart := list (Z * Z).

(** What the user did on the page in this run of the script. *)
Inductive event :=
| NoEvent
| AddItem (psel : nat) (qty : Z)      (* option chosen in the select box *)
| FinalizeOrder.                      (* the "Finalize Order" button *)

Module BillLine.
Record t := mk { product : string; qty : Z; unit_price : float; line_total : float }.
End BillLine.

(** What the page shows at the end of the run. *)
Inductive view :=
| NoProducts                          (* "No products found. Add products first." *)
| Rerun                               (* st.experimental_rerun() after "Add Item" *)
| AddFirst                            (* "Add products to order first." *)
| Bill (lines : list BillLine.t) (total_amt : float)
| Saved (oid : Z) (total_amt : float).    (* "Order saved (ID oid). Total total_amt" *)

(** [products_df[products_df['id']==item['product_id']].iloc[0]] and the
    bill line made of it; [None] stands for the [IndexError] of [iloc]. *)
Definition bill_line (products_df : list Product.t) (item : Z * Z)
  : option BillLine.t :=
  match find (fun p => Product.id p =? fst item) products_df with
  | None => None
  | Some p =>
      Some (BillLine.mk (Product.name p) (snd item) (Product.selling_price p)
              (Product.selling_price p * float_of_Z (snd item))%float)
  end.

Fixpoint bill_lines (products_df : list Product.t) (items : cart)
  : option (list BillLine.t) :=
  match items with
  | [] => Some []
  | item :: items' =>
      match bill_line products_df item with
      | None => None
      | Some l =>
          match bill_lines products_df items' with
          | None => None
          | Some ls => Some (l :: ls)
          end
      end
  end.

(** [bill_df['Line Total'].sum()] *)
Definition sum_line_total (lines : list BillLine.t) : float :=
  series_sum (map BillLine.line_total lines).

(** One staged line (the body of the loop of finalize). *)
Definition finalize_line (oid : Z) (item : Z * Z) : M unit :=
  row <- execute (select_selling_price (fst item)) ;;
  match row with
  | None => raise TypeError                    (* None['selling_price'] *)
  | Some price =>
      execute (insert_order_item oid (fst item) (snd item) price) ;;;
      execute (update_stock_deduct (snd item) (fst item))
  end.

(** The body of [if st.button("Finalize Order")], up to [conn.commit()];
    the result is [oid]. *)
Definition finalize (items : cart) (cust : string) (order_time : Z)
    (total_amt : float) : M Z :=
  oid <- execute (insert_order order_time cust total_amt) ;;
  forM_ items (finalize_line oid) ;;;
  commit ;;;
  ret oid.

(** The page, given the frame [load_tables] returned and the cart of the
    session; the result is what is shown and the cart the session keeps. *)
Definition add_order_page (products_df : list Product.t) (items : cart)
    (ev : event) (cust : string) (order_time : Z) : M (view * cart) :=
  match products_df with
  | [] => ret (NoProducts, items)
  | _ =>
      match ev with
      | AddItem psel qty =>
          match nth_error products_df psel with
          | Some p => ret (Rerun, items ++ [(Product.id p, qty)])
          | None => ret (Rerun, items)
          end
      | _ =>
          match bill_lines products_df items with
          | None => raise IndexError
          | Some [] => ret (AddFirst, items)
          | Some lines =>
              let total_amt := sum_line_total lines in
              match ev with
              | FinalizeOrder =>
                  oid <- finalize items cust order_time total_amt ;;
                  ret (Saved oid total_amt, [])
              | _ => ret (Bill lines total_amt, items)
              end
          end
      end
  end.

(** ** The script *)

(** The page part of a run in mode "Admin - Add Order": [load_tables],
    then the page. *)
Definition add_order_run (items : cart) (ev : event) (cust : string)
    (order_time : Z) : M (view * cart) :=
  t <- load_tables ;;
  add_order_page (fst (fst t)) items ev cust order_time.

(** Mode "Dashboard": the four reports.  The bar chart reads the columns
    [hour] and [customers] of the hourly report, which the empty frame
    does not have; [compute_low_stock] is called with the default
    threshold.  [ties_qty] and [ties_profit] are the choices of the
    sorting routine in the two ranking reports. *)
Definition dashboard (ties_qty ties_profit : nat -> nat) (now : Z)
    (t : list Product.t * OrdersFrame.t * list ItemRow.t)
  : M (list (Z * Z * option string) * list (Z * string * float)
       * list (Z * Z) * list LowRow.t) :=
  let '(products_df, orders_df, order_items_df) := t in
  let best := compute_best_selling ties_qty order_items_df in
  let profit_df := compute_top_profit_products ties_profit order_items_df in
  let (orders_df, per_hour) := compute_customers_per_hour orders_df in
  match per_hour with
  | [] => raise KeyError                               (* per_hour['hour'] *)
  | _ =>
      store <- read_store ;;
      let low_df := compute_low_stock store now products_df order_items_df 2 in
      ret (best, profit_df, per_hour, low_df)
  end.

(** One user action, as the script serves it: every run first calls
    [seed_dummy_data(conn)] and [load_tables(conn)]; [Seed] is the loader
    called on its own, with either value of [force].  A view of the
    dashboard comes with the choices its two sorts make among equal
    rows. *)
Inductive action :=
| Seed (force : bool)
| Dashboard (ties_qty ties_profit : nat -> nat)
| AddProduct (pname : string) (cost sell : float) (stock : Z)
| AddStock (pid add_qty : Z)
| AddOrder (items : cart) (ev : event) (cust : string).

Definition script (now : Z) (a : action) : M unit :=
  match a with
  | Seed force => seed_dummy_data now force
  | Dashboard ties_qty ties_profit =>
      seed_dummy_data now false ;;;
      t <- load_tables ;;
      dashboard ties_qty ties_profit now t ;;; ret tt
  | AddProduct pname cost sell stock =>
      seed_dummy_data now false ;;;
      load_tables ;;;
      add_product pname cost sell stock
  | AddStock pid add_qty =>
      seed_dummy_data now false ;;;
      load_tables ;;;
      add_stock pid add_qty
  | AddOrder items ev cust =>
      seed_dummy_data now false ;;;
      add_order_run items ev cust now ;;; ret tt
  end.

(** The bounds the number inputs put on what reaches the script. *)
Definition well_formed (a : action) : Prop :=
  match a with
  | Seed _ => True
  | Dashboard _ _ => True
  | AddProduct _ _ _ stock => 0 <= stock
  | AddStock _ add_qty => 1 <= add_qty
  | AddOrder _ _ _ => True
  end.

(** The committed states of [shop.db] that runs of the script produce,
    whatever the engine's faults, starting from the fresh file. *)
Inductive reachable : db -> Prop :=
| reach_fresh : reachable empty_db
| reach_run (d : db) (now : Z) (a : action) (sched : list bool)
    (r : result unit) (c' : Connection) :
    reachable d ->
    well_formed a ->
    script now a (get_conn d sched) = (r, c') ->
    reachable (committed c').

(** * Vocabulary of the statements *)

(** ** Runs of the script *)

(** A connection whose engine will not fail any more. *)
Definition quiet (c : Connection) : Prop := faults c = [].

(** [keeps I m]: whatever way [m] ends, it ends in a connection state
    satisfying [I] when started in one. *)
Definition keeps {A} (I : Connection -> Prop) (m : M A) : Prop :=
  forall c r c', I c -> m c = (r, c') -> I c'.

(** An invariant of database views, carried by both views of a
    connection. *)
Definition both (P : db -> Prop) (c : Connection) : Prop :=
  P (committed c) /\ P (pending c).

(** [runs m]: on a quiet connection [m] returns normally, and leaves the
    connection quiet. *)
Definition runs {A} (m : M A) : Prop :=
  forall c, quiet c -> exists a c', m c = (Ok a, c') /\ quiet c'.

(** What the statements of a script make of a view when none fails. *)
Definition apply_script (script : list (db -> db)) (d : db) : db :=
  fold_left (fun d stmt => stmt d) script d.

(** ** Invariants of the store *)

Definition stock_ok (d : db) : Prop :=
  Forall (fun p => 0 <= Product.stock_qty p) (products d).

Definition has_products (c : Connection) : Prop := products (pending c) <> [].

(** ** Rows written for the lines of an order *)

(** The price a [SELECT selling_price ... WHERE id = ?] finds. *)
Definition price_of (P : list Product.t) (pid : Z) : option float :=
  option_map Product.selling_price (find (fun p => Product.id p =? pid) P).

(** The [order_items] rows that a loop over [lines] inserts for order
    [oid] when the lines whose product is missing are skipped: one row per
    line whose product exists, priced from the [products] table [P], with
    keys following [next]. *)
Fixpoint item_rows (P : list Product.t) (oid next : Z) (lines : list (Z * Z))
  : list OrderItem.t :=
  match lines with
  | [] => []
  | (pid, qty) :: lines' =>
      match price_of P pid with
      | None => item_rows P oid next lines'
      | Some price =>
          OrderItem.mk (next + 1) oid pid qty price
          :: item_rows P oid (next + 1) lines'
      end
  end.


(** [unit_price * qty] of a row, the quantity as a [float]. *)
Definition row_amount (i : OrderItem.t) : float :=
  (OrderItem.unit_price i * float_of_Z (OrderItem.qty i))%float.

(** The total of a bill with these rows: the [Series.sum()] of their
    amounts. *)
Definition bill_total (rows : list OrderItem.t) : float :=
  series_sum (map row_amount rows).

(** [total += unit * qty], over inserted rows. *)
Definition add_line (total : float) (i : OrderItem.t) : float :=
  (total + OrderItem.unit_price i * float_of_Z (OrderItem.qty i))%float.

(** The sum of [unit_price * qty] over rows, from [0.0], in row order. *)
Definition line_sum (items : list OrderItem.t) : float :=
  fold_left add_line items 0%float.

(** [d'] is [d] after a loop over [lines] for order [oid]: rows appended
    to [order_items], stock changed, nothing else. *)
Definition lines_written (oid : Z) (lines : list (Z * Z)) (d d' : db) : Prop :=
  orders d' = orders d /\
  seq_orders d' = seq_orders d /\
  seq_products d' = seq_products d /\
  order_items d' =
    order_items d ++ item_rows (products d) oid (seq_order_items d) lines /\
  seq_order_items d' =
    seq_order_items d
    + Z.of_nat (List.length (item_rows (products d) oid (seq_order_items d) lines)) /\
  (forall pid, price_of (products d') pid = price_of (products d) pid) /\
  List.length (products d') = List.length (products d).

(** ** Rows written by the seed loader *)

(** The [products] loop of the loader, as a function of the view. *)
Definition insert_all (prods : list (string * float * float * Z)) (d : db) : db :=
  fold_left (fun d p =>
               let '(name, cost, sell, stock) := p in
               snd (insert_product name cost sell stock d))
            prods d.

(** The view in which the loop over the sample orders starts. *)
Definition restocked (prods : list (string * float * float * Z)) (d : db) : db :=
  insert_all prods (delete_all d).

(** [d'] is [d] after the loader processed one sample order. *)
Definition order_seeded (cust : string) (otime : Z) (lines : list (Z * Z))
    (d d' : db) : Prop :=
  let oid := seq_orders d + 1 in
  let rows := item_rows (products d) oid (seq_order_items d) lines in
  orders d' =
    map (set_total (line_sum rows) oid) (orders d ++ [Order.mk oid otime cust 0]) /\
  order_items d' = order_items d ++ rows /\
  seq_orders d' = oid /\
  seq_order_items d' = seq_order_items d + Z.of_nat (List.length rows) /\
  seq_products d' = seq_products d /\
  (forall pid, price_of (products d') pid = price_of (products d) pid).

(** The invariant of the loop over the sample orders: keys of orders and
    the [order_id]s of items are keys handed out so far, every total is
    the sum over the order's own rows, and every row carries the price of
    a product that exists. *)
Definition seed_inv (d : db) : Prop :=
  Forall (fun o => Order.id o <= seq_orders d) (orders d) /\
  Forall (fun i => OrderItem.order_id i <= seq_orders d) (order_items d) /\
  Forall (fun o =>
            Order.total_amount o =
            line_sum (filter (fun i => OrderItem.order_id i =? Order.id o)
                             (order_items d)))
         (orders d) /\
  Forall (fun i =>
            price_of (products d) (OrderItem.product_id i)
            = Some (OrderItem.unit_price i))
         (order_items d).

(** The rows the loop over the sample orders inserts: for each order in
    turn, the rows of its lines whose product exists. *)
Fixpoint sample_rows (P : list Product.t) (oseq iseq : Z)
    (samples : list (string * Z * list (Z * Z))) : list OrderItem.t :=
  match samples with
  | [] => []
  | (_, _, lines) :: samples' =>
      let rows := item_rows P (oseq + 1) iseq lines in
      rows ++ sample_rows P (oseq + 1) (iseq + Z.of_nat (List.length rows)) samples'
  end.

(** [d'] is [d] after the loop over [samples]. *)
Definition samples_seeded (samples : list (string * Z * list (Z * Z)))
    (d d' : db) : Prop :=
  map (fun o => (Order.customer_name o, Order.order_time o)) (orders d') =
    map (fun o => (Order.customer_name o, Order.order_time o)) (orders d)
    ++ map fst samples /\
  order_items d' =
    order_items d
    ++ sample_rows (products d) (seq_orders d) (seq_order_items d) samples /\
  (forall pid, price_of (products d') pid = price_of (products d) pid) /\
  (seed_inv d -> seed_inv d').

(** ** What the reports compute *)

Definition zsum (l : list Z) : Z := fold_right Z.add 0 l.

(** The sum of the values that rows of [g] hold under key [k]. *)
Definition total_of (k : Z) (g : list (Z * Z)) : Z :=
  zsum (map snd (filter (fun r => k =? fst r) g)).

(** Keys strictly increase along the rows. *)
Fixpoint increasing (g : list (Z * Z)) : Prop :=
  match g with
  | [] => True
  | r :: g' => Forall (fun r' => fst r < fst r') g' /\ increasing g'
  end.

(** The number of orders placed in hour [h] of the day. *)
Definition customers_in_hour (h : Z) (rows : list Order.t) : Z :=
  Z.of_nat (List.length
              (filter (fun o => hour_of (Order.order_time o) =? h) rows)).

(** An order of the store placed at or after [now - 30 days] has key [oid]. *)
Definition recent_order (store : db) (now oid : Z) : bool :=
  existsb (fun o => (oid =? Order.id o) && (now - 30 * day <=? Order.order_time o))
          (orders store).

(** The units of product [pid] sold in the last 30 days: the sum of [qty]
    over the order items of the product whose parent order is recent. *)
Definition sold_in_last_30d (store : db) (now : Z) (order_items : list ItemRow.t)
    (pid : Z) : Z :=
  zsum (map ItemRow.qty
            (filter (fun i => (pid =? ItemRow.product_id i)
                              && recent_order store now (ItemRow.order_id i))
                    order_items)).

(** ** Grouped sums *)

(** [c] is [Eq]: the two keys compared are keys of one group. *)
Definition is_eq (c : comparison) : bool :=
  match c with
  | Eq => true
  | _ => false
  end.

Section GroupRows.
Context {K V : Type} (cmp : K -> K -> comparison).

(** The rows of a table under key [k]. *)
Definition rows_of (k : K) (g : list (K * V)) : list (K * V) :=
  filter (fun r => is_eq (cmp k (fst r))) g.

(** The values a table holds under key [k], in row order. *)
Definition values_of (k : K) (kv : list (K * V)) : list V :=
  map snd (rows_of k kv).

(** Keys strictly increase along the rows, in the order of [cmp]. *)
Fixpoint ascending (g : list (K * V)) : Prop :=
  match g with
  | [] => True
  | r :: g' => Forall (fun r' => cmp (fst r) (fst r') = Lt) g' /\ ascending g'
  end.

End GroupRows.

Section GroupState.
Context {K S : Type} (cmp : K -> K -> comparison) (init : S).

(** The accumulator the table holds for [k], or [init]. *)
Definition state_of (k : K) (g : list (K * S)) : S :=
  match rows_of cmp k g with
  | r :: _ => snd r
  | [] => init
  end.

End GroupState.

(** The row that the sums of an integer column hold for key [k]. *)
Definition sum_under (kv : list (Z * Z)) (k : Z) : option (Z * Z) :=
  match values_of Z.compare k kv with
  | [] => None
  | vs => Some (k, wrap64 (zsum vs))
  end.

(** An order item of product [pid] with a recent parent order exists. *)
Definition sold_recently (store : db) (now : Z) (order_items : list ItemRow.t)
    (pid : Z) : bool :=
  existsb (fun i => (pid =? ItemRow.product_id i)
                    && recent_order store now (ItemRow.order_id i))
          order_items.

(** The [sold_last_30d] column of the listed products [low] comes out as
    [float64]: some order is recent, and some listed product has no recent
    sale, so that the merge leaves a NaN. *)
Definition sold_as_float (store : db) (now : Z) (low : list Product.t)
    (order_items : list ItemRow.t) : bool :=
  existsb (fun o => now - 30 * day <=? Order.order_time o) (orders store)
  && existsb (fun p => negb (sold_recently store now order_items (Product.id p)))
             low.

(** ** Example states *)

(** The store after the first run of the script on a fresh file. *)
Definition seeded_db (now : Z) : db :=
  committed (snd (seed_dummy_data now false (get_conn empty_db []))).

(** A fresh connection to the seeded store, with no engine fault ahead. *)
Definition seeded_conn : Connection := get_conn (seeded_db 0) [].

(** The fresh file after one run of the script that seeds it and finalizes
    an order for 99 packs of product 10 (3 in stock, 1 of them sold by the
    seed). *)
Definition overdrawn_db : db :=
  committed
    (snd (script 0 (AddOrder [(10, 99)] FinalizeOrder "Walk-in")
            (get_conn empty_db []))).

(** A finalize that fails half-way: the second staged line names a product
    that is not in the store.  The Order row and the first OrderItem row
    are in the connection's open transaction only. *)
Definition broken_finalize : result Z * Connection :=
  finalize [(1, 2); (99, 1)] "Walk-in" 0 70 seeded_conn.

(** The seeded store with one more product, "Candy", bought at 0.05 and
    sold at 0.1; it gets key 11. *)
Definition candy_db : db :=
  committed (snd (add_product "Candy" 0.05 0.1 10 seeded_conn)).

(** A store on which the sample data names products that do not exist: the
    seeded store, seeded again with [force=True].  The new products get the
    keys 11 to 20, the sample lines name 1 to 10. *)
Definition reseeded : Connection :=
  snd (seed_dummy_data 0 true (get_conn (seeded_db 0) [])).

(** The seeded store after a forced reseeding in which the engine runs
    the count and the first [DELETE] and fails the second. *)
Definition interrupted_reseed : db :=
  committed (snd (seed_dummy_data 0 true
                    (get_conn (seeded_db 0) [false; false; true]))).

(** Two orders, at 09:30 and 17:05 of the first day. *)
Definition two_orders : OrdersFrame.t :=
  OrdersFrame.mk [Order.mk 1 34200000000 "Amit" 70;
                  Order.mk 2 61500000000 "Priya" 85] None.

(** ** Stock after the lines of an order *)

(** What the stock updates of a loop over [lines] make of one product. *)
Definition deduct_lines (lines : list (Z * Z)) (p : Product.t) : Product.t :=
  fold_left (fun p line => set_stock (fun s => deduct s (snd line)) (fst line) p)
            lines p.

(** What the stock updates of the loop over the sample orders make of one
    product. *)
Definition deduct_samples (samples : list (string * Z * list (Z * Z)))
    (p : Product.t) : Product.t :=
  fold_left (fun p s => deduct_lines (snd s) p) samples p.

(** The quantities staged for product [pid], in cart order. *)
Definition staged_qtys (pid : Z) (items : cart) : list Z :=
  map snd (filter (fun line => fst line =? pid) items).

(** The rows the [products] loop of the loader inserts after counter
    [seq]. *)
Fixpoint new_products (seq : Z) (prods : list (string * float * float * Z))
  : list Product.t :=
  match prods with
  | [] => []
  | (name, cost, sell, stock) :: prods' =>
      Product.mk (seq + 1) name cost sell stock :: new_products (seq + 1) prods'
  end.

(** ** Keys and references *)

(** The keys of a table with counter [seq]: none above the counter, no
    key twice. *)
Definition fresh_keys (seq : Z) (ids : list Z) : Prop :=
  Forall (fun i => i <= seq) ids /\ NoDup ids.

(** The keys of the three tables, each against its own counter. *)
Definition keys_ok (d : db) : Prop :=
  fresh_keys (seq_products d) (map Product.id (products d)) /\
  fresh_keys (seq_orders d) (map Order.id (orders d)) /\
  fresh_keys (seq_order_items d) (map OrderItem.id (order_items d)).

(** Every order item belongs to an order of the [orders] table. *)
Definition refs_ok (d : db) : Prop :=
  Forall (fun i => In (OrderItem.order_id i) (map Order.id (orders d)))
         (order_items d).

(** Every order item carries the selling price of a product of the
    [products] table. *)
Definition priced (d : db) : Prop :=
  Forall (fun i =>
            price_of (products d) (OrderItem.product_id i)
            = Some (OrderItem.unit_price i))
         (order_items d).

(** The order items stored for the order of key [oid]. *)
Definition items_of (d : db) (oid : Z) : list OrderItem.t :=
  filter (fun i => OrderItem.order_id i =? oid) (order_items d).

(** Every order that has order items in the store carries their sum as
    its total: the running total of the loader's loop, or the
    [Series.sum()] of the "Add Order" page. *)
Definition totalled (d : db) : Prop :=
  Forall (fun o =>
            items_of d (Order.id o) = [] \/
            Order.total_amount o = line_sum (items_of d (Order.id o)) \/
            Order.total_amount o = bill_total (items_of d (Order.id o)))
         (orders d).

(** Keys, references and totals are in order. *)
Definition linked (d : db) : Prop :=
  keys_ok d /\ refs_ok d /\ priced d /\ totalled d.

(** A connection with no open transaction over such a store. *)
Definition settled (c : Connection) : Prop :=
  pending c = committed c /\ linked (committed c).

(** The columns of a product that no statement of the pages writes. *)
Definition listed_columns (p : Product.t) : Z * string * float * float :=
  (Product.id p, Product.name p, Product.cost_price p, Product.selling_price p).

(** [d'] has the rows of [d], in their places, and possibly more after
    them; of a product of [d] only the stock may differ. *)
Definition extends (d d' : db) : Prop :=
  (exists ps, map listed_columns (products d')
              = map listed_columns (products d) ++ ps) /\
  (exists os, orders d' = orders d ++ os) /\
  (exists its, order_items d' = order_items d ++ its).

(** ** Rows of the ranking reports *)

Section SortOrder.
Context {A : Type} (ltb : A -> A -> bool).

(** [a] is not below [b] in the order of the sort. *)
Definition not_below (a b : A) : Prop := ltb a b = false.

End SortOrder.

(** The place of [i] in a list of positions. *)
Fixpoint place_of (i : nat) (p : list nat) : nat :=
  match p with
  | [] => O
  | j :: p' => if (i =? j)%nat then O else S (place_of i p')
  end.

(** The units of product [pid] sold over all order items. *)
Definition units_sold (pid : Z) (order_items : list ItemRow.t) : Z :=
  zsum (map ItemRow.qty
            (filter (fun i => pid =? ItemRow.product_id i) order_items)).

(** Equality of (product, name) pairs is decidable. *)
Definition pair_eq_dec (a b : Z * string) : {a = b} + {a <> b}.
Proof. decide equality; [apply string_dec|apply Z.eq_dec]. Defined.

(** The (product, name) pairs that the order items show, each once. *)
Definition sold_pairs (order_items : list ItemRow.t) : list (Z * string) :=
  nodup pair_eq_dec
        (map (fun i => (ItemRow.product_id i, ItemRow.product_name i))
             order_items).

(** [(unit_price - cost_price) * qty] in [float64]. *)
Definition item_profit (i : ItemRow.t) : float :=
  ((ItemRow.unit_price i - ItemRow.cost_price i)
   * float_of_Z (ItemRow.qty i))%float.

(** The compensated sum of a column, in row order. *)
Definition kahan_sum (vs : list float) : float :=
  fst (fold_left kahan_step vs (0%float, 0%float)).

(** The profit made with the product of key [pid] and name [name]: the
    compensated sum of the profits of its order items. *)
Definition profit_of (pid : Z) (name : string) (order_items : list ItemRow.t)
  : float :=
  kahan_sum
    (map item_profit
         (filter (fun i => pair_eqb (pid, name)
                             (ItemRow.product_id i, ItemRow.product_name i))
                 order_items)).

(** The place of a [float64] in the order of [sort_values]: its class
    (NaN, negative infinity, negative, zero, positive, positive infinity),
    then exponent and mantissa. *)
Definition float_rank (f : spec_float) : Z * Z * Z :=
  match f with
  | S754_nan => (-3, 0, 0)
  | S754_infinity true => (-2, 0, 0)
  | S754_finite true m e => (-1, - e, - Z.pos m)
  | S754_zero _ => (0, 0, 0)
  | S754_finite false m e => (1, e, Z.pos m)
  | S754_infinity false => (2, 0, 0)
  end.

Definition rank_lt (a b : Z * Z * Z) : Prop :=
  fst (fst a) < fst (fst b) \/
  (fst (fst a) = fst (fst b) /\
   (snd (fst a) < snd (fst b) \/
    (snd (fst a) = snd (fst b) /\ snd a < snd b))).

(** The order item a row of the joined frame comes from. *)
Definition item_of_row (r : ItemRow.t) : OrderItem.t :=
  OrderItem.mk (ItemRow.id r) (ItemRow.order_id r) (ItemRow.product_id r)
               (ItemRow.qty r) (ItemRow.unit_price r).

(** ** Further runs *)

(** The dashboard part of a run in mode "Dashboard": [load_tables], then
    the four reports. *)
Definition dashboard_run (ties_qty ties_profit : nat -> nat) (now : Z)
  : M (list (Z * Z * option string) * list (Z * string * float)
       * list (Z * Z) * list LowRow.t) :=
  t <- load_tables ;;
  dashboard ties_qty ties_profit now t.

(** The spec's example: two packs of product 1 and one of product 2. *)
Definition example_finalize : result Z * Connection :=
  finalize [(1, 2); (2, 1)] "Walk-in" 0 70 seeded_conn.

(** A run on the seeded store that finalizes an order for two packs of
    product 1. *)
Definition example_run : result unit * Connection :=
  script 0 (AddOrder [(1, 2)] FinalizeOrder "Walk-in") (get_conn (seeded_db 0) []).

(** "Add Product" and "Update Stock" on the seeded store, with an engine
    that runs the statement and fails the commit. *)
Definition failed_add_product : result unit * Connection :=
  add_product "Butter" 40 52 6 (get_conn (seeded_db 0) [false; true]).

Definition failed_add_stock : result unit * Connection :=
  add_stock 1 5 (get_conn (seeded_db 0) [false; true]).

(** ** Frames as objects *)

(** Every object of [w] is in [w'] as it was. *)
Definition same_objects (w w' : world) : Prop :=
  forall r f, nth_error (heap w) r = Some f -> nth_error (heap w') r = Some f.

(** Every object of [w] but [r] is in [w'] as it was. *)
Definition same_objects_but (r : nat) (w w' : world) : Prop :=
  forall a f, a <> r -> nth_error (heap w) a = Some f ->
              nth_error (heap w') a = Some f.

(** The file and the clock are what they were. *)
Definition same_outside (w w' : world) : Prop :=
  shop w' = shop w /\ clock w' = clock w.

(** The frames of a dashboard run on the seeded store, as objects 0, 1 and 2. *)
Definition seeded_world : world :=
  mkworld [ProductsDf (products (seeded_db 0)) None;
           OrdersDf (OrdersFrame.mk (orders (seeded_db 0)) None);
           ItemsDf (join_items (seeded_db 0)) None]
          (seeded_db 0) 0.

(** * Properties *)

(** ** Running the monad *)

Lemma bind_inv {A B} (m : M A) (k : A -> M B) c r c' :
  bind m k c = (r, c') ->
  (exists e, m c = (Raise e, c') /\ r = Raise e) \/
  (exists a c1, m c = (Ok a, c1) /\ k a c1 = (r, c')).
Proof.
  unfold bind. destruct (m c) as [[a|e] c1]; intros H.
  - right. eauto.
  - left. inversion H; subst. eauto.
Qed.

Lemma bind_ok {A B} (m : M A) (k : A -> M B) c a c1 :
  m c = (Ok a, c1) -> bind m k c = k a c1.
Proof. unfold bind. intros ->. reflexivity. Qed.

Lemma execute_quiet {A} (stmt : db -> A * db) c :
  quiet c ->
  execute stmt c =
  (Ok (fst (stmt (pending c))), mkconn (committed c) (snd (stmt (pending c))) []).
Proof.
  unfold quiet, execute, next_fault. intros ->.
  destruct (stmt (pending c)); reflexivity.
Qed.

Lemma commit_quiet c :
  quiet c -> commit c = (Ok tt, mkconn (pending c) (pending c) []).
Proof. unfold quiet, commit, next_fault. intros ->. reflexivity. Qed.

Lemma run_script_quiet script d :
  run_script script d [] = (Ok tt, apply_script script d, []).
Proof.
  revert d. induction script as [|stmt script IH]; intros d; simpl;
    [reflexivity|apply IH].
Qed.

Lemma executescript_quiet script c :
  quiet c ->
  executescript script c =
  (Ok tt, mkconn (apply_script script (pending c))
                 (apply_script script (pending c)) []).
Proof.
  unfold quiet, executescript. intros ->. rewrite run_script_quiet. reflexivity.
Qed.

Lemma apply_delete_script d : apply_script delete_script d = delete_all d.
Proof. reflexivity. Qed.

(** A script stops after some of its statements; when it returns, after
    all of them. *)
Lemma run_script_inv script d sched r d' rest :
  run_script script d sched = (r, d', rest) ->
  (exists k, d' = apply_script (firstn k script) d) /\
  (r = Raise OperationalError \/ (r = Ok tt /\ d' = apply_script script d)).
Proof.
  revert d sched. induction script as [|stmt script IH]; intros d sched H; simpl in H.
  - inversion H; subst. split; [exists 0%nat; reflexivity|auto].
  - destruct sched as [|[] sched].
    + apply IH in H. destruct H as [[k Hk] Hr]. split; [|exact Hr].
      exists (S k). exact Hk.
    + inversion H; subst. split; [exists 0%nat; reflexivity|auto].
    + apply IH in H. destruct H as [[k Hk] Hr]. split; [|exact Hr].
      exists (S k). exact Hk.
Qed.

Lemma keeps_ret {A} I (a : A) : keeps I (ret a).
Proof. intros c r c' HI H. inversion H; subst; assumption. Qed.

Lemma keeps_raise {A} I e : keeps I (@raise A e).
Proof. intros c r c' HI H. inversion H; subst; assumption. Qed.

Lemma keeps_bind {A B} I (m : M A) (k : A -> M B) :
  keeps I m -> (forall a, keeps I (k a)) -> keeps I (bind m k).
Proof.
  intros Hm Hk c r c' HI H.
  destruct (bind_inv _ _ _ _ _ H) as [(e & Hc & _) | (a & c1 & Hc & Hk')].
  - eapply Hm; eassumption.
  - eapply Hk; [eapply Hm|]; eassumption.
Qed.

Lemma keeps_forM {A} I (xs : list A) body :
  (forall x, keeps I (body x)) -> keeps I (forM_ xs body).
Proof.
  intros Hb. induction xs as [|x xs IH]; simpl.
  - apply keeps_ret.
  - apply keeps_bind; auto.
Qed.

Lemma keeps_foldM {A B} I (body : B -> A -> M B) xs :
  (forall acc x, keeps I (body acc x)) -> forall acc, keeps I (foldM body acc xs).
Proof.
  intros Hb. induction xs as [|x xs IH]; intros acc; simpl.
  - apply keeps_ret.
  - apply keeps_bind; auto.
Qed.

(** Statements leave the committed database alone. *)
Lemma execute_committed {A} (stmt : db -> A * db) c r c' :
  execute stmt c = (r, c') -> committed c' = committed c.
Proof.
  unfold execute. destruct (next_fault c) as [[] rest];
    [|destruct (stmt (pending c))]; intros H; inversion H; reflexivity.
Qed.

Lemma keeps_execute_committed {A} (stmt : db -> A * db) d0 :
  keeps (fun c => committed c = d0) (execute stmt).
Proof. intros c r c' HI H. rewrite (execute_committed _ _ _ _ H). exact HI. Qed.

Lemma keeps_execute {A} (P : db -> Prop) (stmt : db -> A * db) :
  (forall d, P d -> P (snd (stmt d))) -> keeps (both P) (execute stmt).
Proof.
  intros Hs c r c' [Hc Hp]. unfold execute.
  destruct (next_fault c) as [[] rest].
  - intros H; inversion H; subst. split; assumption.
  - specialize (Hs _ Hp). destruct (stmt (pending c)).
    intros H; inversion H; subst. split; assumption.
Qed.

Lemma keeps_commit (P : db -> Prop) : keeps (both P) commit.
Proof.
  intros c r c' [Hc Hp]. unfold commit.
  destruct (next_fault c) as [[] rest]; intros H; inversion H; subst;
    split; assumption.
Qed.

Lemma apply_script_keeps (P : db -> Prop) script :
  Forall (fun stmt => forall d, P d -> P (stmt d)) script ->
  forall k d, P d -> P (apply_script (firstn k script) d).
Proof.
  induction 1 as [|stmt script Hs _ IH]; intros [|k] d Hd; simpl; auto.
Qed.

Lemma keeps_executescript (P : db -> Prop) script :
  Forall (fun stmt => forall d, P d -> P (stmt d)) script ->
  keeps (both P) (executescript script).
Proof.
  intros Hs c r c' [Hc Hp]. unfold executescript.
  destruct (run_script script (pending c) (faults c)) as [[r0 d0] rest] eqn:E.
  intros H; inversion H; subst. apply run_script_inv in E.
  destruct E as [[k ->] _]. simpl.
  split; apply apply_script_keeps; assumption.
Qed.

(** ** Stock is never negative *)

Lemma deduct_nonneg stock qty : 0 <= deduct stock qty.
Proof. unfold deduct. destruct (stock - qty <? 0) eqn:E; lia. Qed.

Lemma stock_ok_set_stock f pid d :
  (forall s, 0 <= s -> 0 <= f s) ->
  stock_ok d -> stock_ok (update_products (set_stock f pid) d).
Proof.
  unfold stock_ok, update_products; simpl. intros Hf H.
  apply Forall_map. eapply Forall_impl; [|exact H].
  intros p Hp. unfold set_stock. destruct (Product.id p =? pid); simpl; auto.
Qed.

Lemma stock_ok_deduct qty pid d :
  stock_ok d -> stock_ok (snd (update_stock_deduct qty pid d)).
Proof.
  intros H. apply stock_ok_set_stock; [|exact H].
  intros s _. apply deduct_nonneg.
Qed.

Lemma stock_ok_add qty pid d :
  1 <= qty -> stock_ok d -> stock_ok (snd (update_stock_add qty pid d)).
Proof. intros Hq H. apply stock_ok_set_stock; [|exact H]. intros; lia. Qed.

Lemma stock_ok_insert_product name cost sell stock d :
  0 <= stock -> stock_ok d -> stock_ok (snd (insert_product name cost sell stock d)).
Proof.
  unfold stock_ok; simpl. intros Hs H. apply Forall_app. split; [exact H|].
  constructor; [exact Hs|constructor].
Qed.

Lemma keeps_stock_seed_line order_id total line :
  keeps (both stock_ok) (seed_line order_id total line).
Proof.
  destruct line as [pid qty]. unfold seed_line.
  apply keeps_bind; [apply keeps_execute; auto|].
  intros [price|]; [|apply keeps_ret].
  apply keeps_bind; [apply keeps_execute; auto|]. intros _.
  apply keeps_bind; [apply keeps_execute; apply stock_ok_deduct|]. intros _.
  apply keeps_ret.
Qed.

Lemma keeps_stock_seed_order o : keeps (both stock_ok) (seed_order o).
Proof.
  destruct o as [[cust otime] items]. unfold seed_order.
  apply keeps_bind; [apply keeps_execute; auto|]. intros order_id.
  apply keeps_bind; [apply keeps_foldM; intros; apply keeps_stock_seed_line|].
  intros total. apply keeps_execute; auto.
Qed.

Lemma delete_script_stock_ok :
  Forall (fun stmt : db -> db => forall d, stock_ok d -> stock_ok (stmt d))
         delete_script.
Proof.
  unfold delete_script.
  constructor; [intros d H; exact H|].
  constructor; [intros d H; exact H|].
  constructor; [intros d H; constructor|constructor].
Qed.

Lemma keeps_stock_seed_with prods samples :
  Forall (fun p => 0 <= snd p) prods ->
  keeps (both stock_ok) (seed_with prods samples).
Proof.
  intros Hp. unfold seed_with.
  apply keeps_bind; [apply keeps_executescript, delete_script_stock_ok|]. intros _.
  apply keeps_bind; [apply keeps_commit|]. intros _.
  apply keeps_bind.
  { clear samples. induction Hp as [|[[[name cost] sell] stock] prods Hs _ IH]; simpl.
    - apply keeps_ret.
    - apply keeps_bind; [|intros _; exact IH].
      apply keeps_execute. intros d. apply stock_ok_insert_product. exact Hs. }
  intros _. apply keeps_bind; [apply keeps_commit|]. intros _.
  apply keeps_bind; [apply keeps_forM; apply keeps_stock_seed_order|]. intros _.
  apply keeps_commit.
Qed.

Lemma seed_products_stock : Forall (fun p => 0 <= snd p) seed_products.
Proof. repeat constructor; simpl; lia. Qed.

Lemma keeps_stock_seed now force :
  keeps (both stock_ok) (seed_dummy_data now force).
Proof.
  unfold seed_dummy_data.
  apply keeps_bind; [apply keeps_execute; auto|]. intros n.
  destruct ((0 <? n) && negb force); [apply keeps_ret|].
  apply keeps_stock_seed_with, seed_products_stock.
Qed.

Lemma keeps_stock_finalize items cust order_time total_amt :
  keeps (both stock_ok) (finalize items cust order_time total_amt).
Proof.
  unfold finalize.
  apply keeps_bind; [apply keeps_execute; auto|]. intros oid.
  apply keeps_bind.
  { apply keeps_forM. intros item. unfold finalize_line.
    apply keeps_bind; [apply keeps_execute; auto|].
    intros [price|]; [|apply keeps_raise].
    apply keeps_bind; [apply keeps_execute; auto|]. intros _.
    apply keeps_execute, stock_ok_deduct. }
  intros _. apply keeps_bind; [apply keeps_commit|]. intros _. apply keeps_ret.
Qed.

Lemma keeps_stock_load_tables : keeps (both stock_ok) load_tables.
Proof.
  unfold load_tables.
  repeat (apply keeps_bind; [apply keeps_execute; auto|]; intros ?).
  apply keeps_ret.
Qed.

Lemma keeps_stock_page products_df items ev cust order_time :
  keeps (both stock_ok) (add_order_page products_df items ev cust order_time).
Proof.
  unfold add_order_page.
  destruct products_df as [|p0 ps]; [apply keeps_ret|].
  destruct ev as [|psel qty|].
  - destruct (bill_lines (p0 :: ps) items) as [[|l ls]|];
      [apply keeps_ret|apply keeps_ret|apply keeps_raise].
  - destruct (nth_error (p0 :: ps) psel); apply keeps_ret.
  - destruct (bill_lines (p0 :: ps) items) as [[|l ls]|];
      [apply keeps_ret| |apply keeps_raise].
    apply keeps_bind; [apply keeps_stock_finalize|]. intros; apply keeps_ret.
Qed.

Lemma keeps_read_store I : keeps I read_store.
Proof. intros c r c' HI H. inversion H; subst; assumption. Qed.

Lemma keeps_stock_dashboard tq tp now t : keeps (both stock_ok) (dashboard tq tp now t).
Proof.
  destruct t as [[products_df orders_df] order_items_df]. unfold dashboard.
  destruct (compute_customers_per_hour orders_df) as [orders_df' [|r per_hour]].
  - apply keeps_raise.
  - apply keeps_bind; [apply keeps_read_store|]. intros; apply keeps_ret.
Qed.

Lemma keeps_stock_script now a :
  well_formed a -> keeps (both stock_ok) (script now a).
Proof.
  destruct a as [force|tq tp|pname cost sell stock|pid add_qty|items ev cust];
    simpl; intros Hwf.
  - apply keeps_stock_seed.
  - apply keeps_bind; [apply keeps_stock_seed|]. intros _.
    apply keeps_bind; [apply keeps_stock_load_tables|]. intros t.
    apply keeps_bind; [apply keeps_stock_dashboard|]. intros; apply keeps_ret.
  - apply keeps_bind; [apply keeps_stock_seed|]. intros _.
    apply keeps_bind; [apply keeps_stock_load_tables|]. intros _.
    unfold add_product.
    apply keeps_bind; [|intros _; apply keeps_commit].
    apply keeps_execute. intros d. apply stock_ok_insert_product. exact Hwf.
  - apply keeps_bind; [apply keeps_stock_seed|]. intros _.
    apply keeps_bind; [apply keeps_stock_load_tables|]. intros _.
    unfold add_stock.
    apply keeps_bind; [|intros _; apply keeps_commit].
    apply keeps_execute. intros d. apply stock_ok_add. exact Hwf.
  - apply keeps_bind; [apply keeps_stock_seed|]. intros _.
    apply keeps_bind; [|intros; apply keeps_ret].
    unfold add_order_run.
    apply keeps_bind; [apply keeps_stock_load_tables|]. intros t.
    apply keeps_stock_page.
Qed.

Lemma reachable_stock_ok d : reachable d -> stock_ok d.
Proof.
  induction 1 as [|d now a sched r c' _ IH Hwf Hrun].
  - constructor.
  - eapply (keeps_stock_script now a Hwf (get_conn d sched) r c').
    + split; exact IH.
    + exact Hrun.
Qed.

(** C4.  In every committed state of the database that the script can
    reach, every product has [stock_qty >= 0]; the decrement that order
    finalize and seed-order creation issue keeps it so for any requested
    quantity, because the [CASE] expression clamps at 0: it is the larger
    of 0 and [stock_qty - qty]. *)
Theorem stock_qty_never_negative (d : db) (Hd : reachable d) :
  Forall (fun p => 0 <= Product.stock_qty p) (products d) /\
  (forall qty pid,
      Forall (fun p => 0 <= Product.stock_qty p)
             (products (snd (update_stock_deduct qty pid d)))) /\
  (forall stock qty,
      0 <= deduct stock qty /\ deduct stock qty = Z.max 0 (stock - qty)).
Proof.
  pose proof (reachable_stock_ok d Hd) as H.
  split; [exact H|]. split.
  - intros qty pid. apply stock_ok_deduct. exact H.
  - intros stock qty. split; [apply deduct_nonneg|].
    unfold deduct. destruct (stock - qty <? 0) eqn:E; lia.
Qed.

Lemma overdrawn_db_reachable : reachable overdrawn_db.
Proof.
  unfold overdrawn_db.
  eapply (reach_run empty_db 0 (AddOrder [(10, 99)] FinalizeOrder "Walk-in") []).
  - apply reach_fresh.
  - exact I.
  - apply surjective_pairing.
Defined.

Lemma stock_qty_never_negative_witness :
  Forall (fun p => 0 <= Product.stock_qty p) (products overdrawn_db) /\
  (forall qty pid,
      Forall (fun p => 0 <= Product.stock_qty p)
             (products (snd (update_stock_deduct qty pid overdrawn_db)))) /\
  (forall stock qty,
      0 <= deduct stock qty /\ deduct stock qty = Z.max 0 (stock - qty)).
Proof. exact (stock_qty_never_negative overdrawn_db overdrawn_db_reachable). Defined.

Example overdrawn_stock_is_clamped :
  map Product.stock_qty (products (seeded_db 0)) = [46; 22; 19; 9; 3; 7; 11; 0; 34; 2] /\
  map Product.stock_qty (products overdrawn_db) = [46; 22; 19; 9; 3; 7; 11; 0; 34; 0].
Proof. vm_compute. split; reflexivity. Qed.

(** ** Runs without engine faults *)

Lemma runs_ret {A} (a : A) : runs (ret a).
Proof. intros c Hq. exists a, c. split; [reflexivity|exact Hq]. Qed.

Lemma runs_bind {A B} (m : M A) (k : A -> M B) :
  runs m -> (forall a, runs (k a)) -> runs (bind m k).
Proof.
  intros Hm Hk c Hq. destruct (Hm c Hq) as (a & c1 & E1 & Hq1).
  destruct (Hk a c1 Hq1) as (b & c2 & E2 & Hq2).
  exists b, c2. split; [|exact Hq2]. rewrite (bind_ok _ _ _ _ _ E1). exact E2.
Qed.

Lemma runs_execute {A} (stmt : db -> A * db) : runs (execute stmt).
Proof. intros c Hq. rewrite (execute_quiet _ _ Hq). eexists _, _. split; reflexivity. Qed.

Lemma runs_commit : runs commit.
Proof. intros c Hq. rewrite (commit_quiet _ Hq). eexists _, _. split; reflexivity. Qed.

Lemma runs_executescript script : runs (executescript script).
Proof.
  intros c Hq. rewrite (executescript_quiet _ _ Hq). eexists _, _. split; reflexivity.
Qed.

Lemma runs_forM {A} (xs : list A) body :
  (forall x, runs (body x)) -> runs (forM_ xs body).
Proof.
  intros Hb. induction xs as [|x xs IH]; simpl.
  - apply runs_ret.
  - apply runs_bind; auto.
Qed.

Lemma runs_foldM {A B} (body : B -> A -> M B) xs :
  (forall acc x, runs (body acc x)) -> forall acc, runs (foldM body acc xs).
Proof.
  intros Hb. induction xs as [|x xs IH]; intros acc; simpl.
  - apply runs_ret.
  - apply runs_bind; auto.
Qed.

Lemma runs_seed_line order_id total line : runs (seed_line order_id total line).
Proof.
  destruct line as [pid qty]. unfold seed_line.
  apply runs_bind; [apply runs_execute|]. intros [price|]; [|apply runs_ret].
  repeat (apply runs_bind; [apply runs_execute|]; intros _). apply runs_ret.
Qed.

Lemma runs_seed_order o : runs (seed_order o).
Proof.
  destruct o as [[cust otime] items]. unfold seed_order.
  apply runs_bind; [apply runs_execute|]. intros order_id.
  apply runs_bind; [apply runs_foldM; intros; apply runs_seed_line|].
  intros total. apply runs_execute.
Qed.

Lemma runs_seed_with prods samples : runs (seed_with prods samples).
Proof.
  unfold seed_with.
  apply runs_bind; [apply runs_executescript|]. intros _.
  apply runs_bind; [apply runs_commit|]. intros _.
  apply runs_bind.
  { apply runs_forM. intros [[[name cost] sell] stock]. apply runs_execute. }
  intros _. apply runs_bind; [apply runs_commit|]. intros _.
  apply runs_bind; [apply runs_forM; apply runs_seed_order|]. intros _.
  apply runs_commit.
Qed.

Lemma runs_seed now force : runs (seed_dummy_data now force).
Proof.
  unfold seed_dummy_data. apply runs_bind; [apply runs_execute|]. intros n.
  destruct ((0 <? n) && negb force); [apply runs_ret|apply runs_seed_with].
Qed.

Lemma runs_unit (m : M unit) c :
  runs m -> quiet c -> exists c', m c = (Ok tt, c') /\ quiet c'.
Proof. intros Hm Hq. destruct (Hm c Hq) as ([] & c' & E & Hq'). eauto. Qed.

(** ** The seed loader is idempotent *)

Lemma keeps_has_products_execute {A} (stmt : db -> A * db) :
  (forall d, products d <> [] -> products (snd (stmt d)) <> []) ->
  keeps has_products (execute stmt).
Proof.
  intros Hs c r c'. unfold has_products, execute.
  destruct (next_fault c) as [[] rest].
  - intros Hp H; inversion H; subst; exact Hp.
  - intros Hp. specialize (Hs _ Hp). destruct (stmt (pending c)).
    intros H; inversion H; subst; exact Hs.
Qed.

Lemma keeps_has_products_commit : keeps has_products commit.
Proof.
  intros c r c'. unfold has_products, commit.
  destruct (next_fault c) as [[] rest]; intros Hp H; inversion H; subst; exact Hp.
Qed.

Lemma map_not_nil {A B} (f : A -> B) l : l <> [] -> map f l <> [].
Proof. destruct l; simpl; congruence. Qed.

Lemma app_not_nil_r {A} (l : list A) x : l ++ [x] <> [].
Proof. destruct l; simpl; congruence. Qed.

Lemma keeps_has_products_seed_order o : keeps has_products (seed_order o).
Proof.
  destruct o as [[cust otime] items]. unfold seed_order.
  apply keeps_bind; [apply keeps_has_products_execute; auto|]. intros order_id.
  apply keeps_bind; [|intros; apply keeps_has_products_execute; auto].
  apply keeps_foldM. intros acc [pid qty]. unfold seed_line.
  apply keeps_bind; [apply keeps_has_products_execute; auto|].
  intros [price|]; [|apply keeps_ret].
  apply keeps_bind; [apply keeps_has_products_execute; auto|]. intros _.
  apply keeps_bind; [|intros; apply keeps_ret].
  apply keeps_has_products_execute. intros d. apply map_not_nil.
Qed.

Lemma insert_products_has_products prods c c' :
  prods <> [] ->
  forM_ prods (fun '(name, cost, sell, stock) =>
                 execute (insert_product name cost sell stock)) c = (Ok tt, c') ->
  has_products c'.
Proof.
  destruct prods as [|[[[name cost] sell] stock] prods]; [congruence|].
  intros _. simpl. intros H.
  destruct (bind_inv _ _ _ _ _ H) as [(e & _ & He) | (a & c1 & E1 & E2)];
    [discriminate|].
  assert (H1 : has_products c1).
  { revert E1. unfold execute. destruct (next_fault c) as [[] rest]; simpl;
      intros E1; inversion E1; subst. unfold has_products; simpl.
    apply app_not_nil_r. }
  revert E2. apply keeps_forM; [|exact H1].
  intros [[[n2 c2] s2] k2]. apply keeps_has_products_execute.
  intros d _. simpl. apply app_not_nil_r.
Qed.

Ltac bind_ok_inv H a c1 E :=
  let e := fresh "e" in
  let He := fresh "He" in
  apply bind_inv in H;
  destruct H as [(e & _ & He) | (a & c1 & E & H)]; [discriminate He|].

Lemma seed_with_has_products prods samples c c' :
  prods <> [] -> seed_with prods samples c = (Ok tt, c') -> has_products c'.
Proof.
  intros Hne. unfold seed_with. intros H.
  bind_ok_inv H a1 c1 E1. bind_ok_inv H a2 c2 E2.
  bind_ok_inv H a3 c3 E3. bind_ok_inv H a4 c4 E4.
  bind_ok_inv H a5 c5 E5.
  destruct a3. apply insert_products_has_products in E3; [|exact Hne].
  eapply keeps_has_products_commit; [|exact H].
  eapply (keeps_forM has_products); [|eapply keeps_has_products_commit|];
    eauto using keeps_has_products_seed_order.
Qed.

Lemma seed_nonforced_skips now c r c' :
  has_products c ->
  seed_dummy_data now false c = (r, c') ->
  committed c' = committed c /\ pending c' = pending c.
Proof.
  unfold has_products, seed_dummy_data, bind, execute, count_products.
  intros Hp. destruct (next_fault c) as [[] rest].
  - intros H; inversion H; subst; simpl; auto.
  - replace (0 <? Z.of_nat (List.length (products (pending c)))) with true.
    + simpl. intros H; inversion H; subst; simpl; auto.
    + symmetry. apply Z.ltb_lt. destruct (products (pending c)); [congruence|].
      simpl. lia.
Qed.

Lemma seed_ok_has_products now force c c' :
  seed_dummy_data now force c = (Ok tt, c') -> has_products c'.
Proof.
  unfold seed_dummy_data. intros H. bind_ok_inv H n c1 E1.
  assert (Hc1 : pending c1 = pending c).
  { revert E1. unfold execute, count_products.
    destruct (next_fault c) as [[] rest]; intros E1; inversion E1; reflexivity. }
  destruct ((0 <? n) && negb force) eqn:Eg.
  - inversion H; subst. unfold has_products. rewrite Hc1.
    apply andb_prop in Eg. destruct Eg as [Eg _]. apply Z.ltb_lt in Eg.
    revert E1. unfold execute, count_products.
    destruct (next_fault c) as [[] rest]; intros E1; inversion E1; subst.
    destruct (products (pending c)); [simpl in Eg; lia|congruence].
  - eapply seed_with_has_products; [|exact H]. discriminate.
Qed.

(** C8.  A run of the seed loader with [force=False] on a store whose
    [products] table is not empty changes nothing: the committed database
    and the connection's view, with all three tables, are what they were.
    After any non-forced run that returned normally the [products] table is
    not empty, so a second non-forced run is such a no-op; and on a
    connection without engine faults the loader does return normally. *)
Theorem seed_nonforced_idempotent now c r c'
    (Hrun : seed_dummy_data now false c = (r, c')) :
  (products (pending c) <> [] ->
   committed c' = committed c /\ pending c' = pending c) /\
  (r = Ok tt ->
   forall now2 r2 c2,
     seed_dummy_data now2 false c' = (r2, c2) ->
     committed c2 = committed c' /\ pending c2 = pending c') /\
  (quiet c -> r = Ok tt).
Proof.
  split; [|split].
  - intros Hp. eapply seed_nonforced_skips; eassumption.
  - intros -> now2 r2 c2 H2.
    eapply seed_nonforced_skips; [|exact H2].
    eapply seed_ok_has_products; exact Hrun.
  - intros Hq. destruct (runs_unit _ c (runs_seed now false) Hq) as (c1 & E & _).
    rewrite E in Hrun. inversion Hrun; reflexivity.
Qed.

Lemma seed_nonforced_idempotent_witness :
  let c := get_conn (seeded_db 0) [] in
  let c' := snd (seed_dummy_data 86400000000 false c) in
  committed c' = committed c /\ pending c' = pending c.
Proof.
  intros c c'.
  refine (proj1 (seed_nonforced_idempotent 86400000000 c
                   (fst (seed_dummy_data 86400000000 false c)) c' _) _).
  - apply surjective_pairing.
  - unfold c. vm_compute. discriminate.
Defined.

(** ** What a loop over order lines writes *)

Lemma execute_ok_inv {A} (stmt : db -> A * db) c a c' :
  execute stmt c = (Ok a, c') ->
  stmt (pending c) = (a, pending c') /\ committed c' = committed c.
Proof.
  unfold execute. destruct (next_fault c) as [[] rest]; [discriminate|].
  destruct (stmt (pending c)) as [a0 d0]. intros H; inversion H; subst. auto.
Qed.

Lemma commit_ok_inv c u c' :
  commit c = (Ok u, c') -> committed c' = pending c /\ pending c' = pending c.
Proof.
  unfold commit. destruct (next_fault c) as [[] rest]; [discriminate|].
  intros H; inversion H; subst. auto.
Qed.

Lemma executescript_ok_inv script c u c' :
  executescript script c = (Ok u, c') ->
  committed c' = apply_script script (pending c) /\
  pending c' = apply_script script (pending c).
Proof.
  unfold executescript.
  destruct (run_script script (pending c) (faults c)) as [[r0 d0] rest] eqn:E.
  intros H; inversion H; subst. apply run_script_inv in E.
  destruct E as [_ [E|[_ ->]]]; [discriminate|]. auto.
Qed.

Lemma select_selling_price_eq pid d :
  select_selling_price pid d = (price_of (products d) pid, d).
Proof. reflexivity. Qed.

Lemma price_of_set_stock f pid' P pid :
  price_of (map (set_stock f pid') P) pid = price_of P pid.
Proof.
  unfold price_of. induction P as [|p P IH]; simpl; [reflexivity|].
  assert (Hid : Product.id (set_stock f pid' p) = Product.id p).
  { unfold set_stock. destruct (Product.id p =? pid'); reflexivity. }
  assert (Hpr : Product.selling_price (set_stock f pid' p) = Product.selling_price p).
  { unfold set_stock. destruct (Product.id p =? pid'); reflexivity. }
  rewrite Hid. destruct (Product.id p =? pid); simpl; [rewrite Hpr; reflexivity|].
  exact IH.
Qed.

Lemma item_rows_ext P P' oid next lines :
  (forall pid, price_of P' pid = price_of P pid) ->
  item_rows P' oid next lines = item_rows P oid next lines.
Proof.
  intros He. revert next. induction lines as [|[pid qty] lines IH]; intros next;
    simpl; [reflexivity|].
  rewrite He. destruct (price_of P pid); [f_equal|]; apply IH.
Qed.

Lemma item_rows_order_id P oid next lines i :
  In i (item_rows P oid next lines) -> OrderItem.order_id i = oid.
Proof.
  revert next. induction lines as [|[pid qty] lines IH]; intros next; simpl;
    [tauto|].
  destruct (price_of P pid); simpl; [intros [<-|H]; [reflexivity|]|intros H];
    eapply IH; exact H.
Qed.

Lemma lines_written_nil oid d : lines_written oid [] d d.
Proof.
  unfold lines_written; simpl. rewrite app_nil_r.
  repeat split; auto. lia.
Qed.

(** One more line in front: the line is skipped ([d1 = d]) or written. *)
Lemma lines_written_cons oid pid qty lines d d1 d' :
  match price_of (products d) pid with
  | None => d1 = d
  | Some price =>
      d1 = snd (update_stock_deduct qty pid
                  (snd (insert_order_item oid pid qty price d)))
  end ->
  lines_written oid lines d1 d' ->
  lines_written oid ((pid, qty) :: lines) d d'.
Proof.
  unfold lines_written. simpl.
  destruct (price_of (products d) pid) as [price|] eqn:Ep.
  - intros -> (Ho & Hso & Hsp & Hi & Hsi & Hpr & Hl). simpl in *.
    assert (Hext : forall next,
               item_rows (map (set_stock (fun s => deduct s qty) pid) (products d))
                 oid next lines = item_rows (products d) oid next lines).
    { intros next. apply item_rows_ext. intros p. apply price_of_set_stock. }
    rewrite Hext in Hi, Hsi. rewrite Ho, Hso, Hsp, Hi, Hsi.
    rewrite <- app_assoc. simpl. rewrite length_map in Hl.
    repeat split; auto; try lia.
    intros p. rewrite Hpr. apply price_of_set_stock.
  - intros -> H. exact H.
Qed.

Lemma seed_line_ok oid acc pid qty c a c1 :
  seed_line oid acc (pid, qty) c = (Ok a, c1) ->
  committed c1 = committed c /\
  match price_of (products (pending c)) pid with
  | None => pending c1 = pending c /\ a = acc
  | Some price =>
      pending c1 =
        snd (update_stock_deduct qty pid
               (snd (insert_order_item oid pid qty price (pending c)))) /\
      a = (acc + price * float_of_Z qty)%float
  end.
Proof.
  unfold seed_line. intros H. bind_ok_inv H row c0 E0.
  apply execute_ok_inv in E0. rewrite select_selling_price_eq in E0.
  destruct E0 as [E0 Hc0]. inversion E0 as [[Hrow Hp0]]. clear E0. subst row.
  destruct (price_of (products (pending c)) pid) as [price|].
  - bind_ok_inv H u1 c2 E1. bind_ok_inv H u2 c3 E2.
    inversion H; subst a c3; clear H.
    apply execute_ok_inv in E1, E2. destruct E1 as [E1 Hc1], E2 as [E2 Hc2].
    rewrite <- Hp0 in E1. apply (f_equal snd) in E1, E2. simpl in E1, E2.
    split; [congruence|]. split; [|reflexivity].
    rewrite <- E2, <- E1. reflexivity.
  - inversion H; subst a c1; clear H.
    split; [exact Hc0|]. split; [congruence|reflexivity].
Qed.

Lemma seed_lines_ok oid lines :
  forall acc c total c',
    foldM (seed_line oid) acc lines c = (Ok total, c') ->
    committed c' = committed c /\
    lines_written oid lines (pending c) (pending c') /\
    total = fold_left add_line
              (item_rows (products (pending c)) oid
                 (seq_order_items (pending c)) lines) acc.
Proof.
  induction lines as [|[pid qty] lines IH]; intros acc c total c' H; simpl in H.
  - inversion H; subst. split; [reflexivity|]. split; [apply lines_written_nil|].
    reflexivity.
  - bind_ok_inv H a c1 E1. apply seed_line_ok in E1. destruct E1 as [Hc1 E1].
    apply IH in H. destruct H as (Hc & Hw & Ht).
    split; [congruence|]. split.
    + eapply lines_written_cons; [|exact Hw].
      destruct (price_of (products (pending c)) pid); tauto.
    + simpl. destruct (price_of (products (pending c)) pid) as [price|].
      * destruct E1 as [Hp1 Ha]. rewrite Hp1 in Ht. simpl in Ht.
        rewrite item_rows_ext with (P := products (pending c)) in Ht
          by (intros p; apply price_of_set_stock).
        simpl. unfold add_line at 2. simpl. rewrite <- Ha. exact Ht.
      * destruct E1 as [Hp1 Ha]. rewrite Hp1, Ha in Ht. exact Ht.
Qed.

Lemma finalize_line_ok oid pid qty c u c1 :
  finalize_line oid (pid, qty) c = (Ok u, c1) ->
  committed c1 = committed c /\
  exists price,
    price_of (products (pending c)) pid = Some price /\
    pending c1 =
      snd (update_stock_deduct qty pid
             (snd (insert_order_item oid pid qty price (pending c)))).
Proof.
  unfold finalize_line. simpl. intros H. bind_ok_inv H row c0 E0.
  apply execute_ok_inv in E0. rewrite select_selling_price_eq in E0.
  destruct E0 as [E0 Hc0]. inversion E0 as [[Hrow Hp0]]. clear E0. subst row.
  destruct (price_of (products (pending c)) pid) as [price|]; [|discriminate].
  bind_ok_inv H u1 c2 E1.
  apply execute_ok_inv in E1, H. destruct E1 as [E1 Hc1], H as [E2 Hc2].
  rewrite <- Hp0 in E1. apply (f_equal snd) in E1, E2. simpl in E1, E2.
  split; [congruence|]. exists price. split; [reflexivity|].
  rewrite <- E2, <- E1. reflexivity.
Qed.

Lemma finalize_lines_ok oid items :
  forall c u c',
    forM_ items (finalize_line oid) c = (Ok u, c') ->
    committed c' = committed c /\
    lines_written oid items (pending c) (pending c') /\
    Forall (fun item => price_of (products (pending c)) (fst item) <> None) items.
Proof.
  induction items as [|[pid qty] items IH]; intros c u c' H; simpl in H.
  - inversion H; subst. split; [reflexivity|]. split; [apply lines_written_nil|].
    constructor.
  - bind_ok_inv H a c1 E1. apply finalize_line_ok in E1.
    destruct E1 as (Hc1 & price & Hprice & Hp1).
    apply IH in H. destruct H as (Hc & Hw & Hall).
    split; [congruence|]. split.
    + eapply lines_written_cons; [|exact Hw]. rewrite Hprice. exact Hp1.
    + constructor; [simpl; congruence|].
      eapply Forall_impl; [|exact Hall]. intros item Hi. simpl in Hi.
      rewrite Hp1 in Hi. simpl in Hi. rewrite price_of_set_stock in Hi. exact Hi.
Qed.

(** ** Finalize *)

Lemma commit_committed_raise c e c' :
  commit c = (Raise e, c') -> committed c' = committed c.
Proof.
  unfold commit. destruct (next_fault c) as [[] rest]; intros H; inversion H;
    reflexivity.
Qed.

Lemma keeps_committed_finalize_line oid item d0 :
  keeps (fun c => committed c = d0) (finalize_line oid item).
Proof.
  unfold finalize_line.
  apply keeps_bind; [apply keeps_execute_committed|].
  intros [price|]; [|apply keeps_raise].
  apply keeps_bind; [apply keeps_execute_committed|]. intros _.
  apply keeps_execute_committed.
Qed.

Lemma finalize_raise items cust order_time total_amt c e c' :
  finalize items cust order_time total_amt c = (Raise e, c') ->
  committed c' = committed c.
Proof.
  unfold finalize. intros H.
  apply bind_inv in H. destruct H as [(e1 & H & _)|(oid & c1 & E1 & H)].
  { eapply execute_committed; exact H. }
  apply execute_committed in E1.
  apply bind_inv in H. destruct H as [(e2 & H & _)|(u & c2 & E2 & H)].
  { rewrite <- E1. revert H.
    apply (keeps_forM (fun c => committed c = committed c1));
      [intros; apply keeps_committed_finalize_line|reflexivity]. }
  assert (E2' : committed c2 = committed c1).
  { revert E2. apply (keeps_forM (fun c => committed c = committed c1));
      [intros; apply keeps_committed_finalize_line|reflexivity]. }
  apply bind_inv in H. destruct H as [(e3 & H & _)|(u3 & c3 & E3 & H)].
  { apply commit_committed_raise in H. congruence. }
  discriminate H.
Qed.

Lemma finalize_ok items cust order_time total_amt c oid c' :
  finalize items cust order_time total_amt c = (Ok oid, c') ->
  oid = seq_orders (pending c) + 1 /\
  committed c' = pending c' /\
  orders (pending c') =
    orders (pending c) ++ [Order.mk oid order_time cust total_amt] /\
  order_items (pending c') =
    order_items (pending c)
    ++ item_rows (products (pending c)) oid (seq_order_items (pending c)) items /\
  Forall (fun item => price_of (products (pending c)) (fst item) <> None) items.
Proof.
  unfold finalize. intros H.
  bind_ok_inv H oid1 c1 E1. bind_ok_inv H u2 c2 E2. bind_ok_inv H u3 c3 E3.
  inversion H; subst oid1 c3; clear H.
  apply execute_ok_inv in E1. destruct E1 as [E1 _].
  unfold insert_order in E1. inversion E1 as [[Hoid Hd1]]. clear E1.
  apply finalize_lines_ok in E2. destruct E2 as (_ & Hw & Hall).
  apply commit_ok_inv in E3. destruct E3 as [Hc3 Hp3].
  destruct Hw as (Ho & _ & _ & Hi & _). rewrite <- Hd1 in Ho, Hi, Hall.
  simpl in Ho, Hi, Hall.
  split; [reflexivity|]. split; [congruence|].
  rewrite Hp3, Ho, Hi. rewrite Hoid. auto.
Qed.



(** C3.  Finalize is all or nothing on the committed database.  When any
    of its statements fails (a product that is gone, or an engine error in
    an insert, an update or the commit itself) the committed database is
    what it was before; when it returns, the Order row, one OrderItem row
    per staged line and the stock changes are committed together. *)
Theorem finalize_atomic items cust order_time total_amt c r c'
    (Hrun : finalize items cust order_time total_amt c = (r, c')) :
  match r with
  | Raise _ => committed c' = committed c
  | Ok oid =>
      let rows :=
        item_rows (products (pending c)) oid (seq_order_items (pending c)) items in
      committed c' = pending c' /\
      orders (committed c') =
        orders (pending c) ++ [Order.mk oid order_time cust total_amt] /\
      order_items (committed c') = order_items (pending c) ++ rows /\
      List.length rows = List.length items
  end.
Proof.
  destruct r as [oid|e].
  - apply finalize_ok in Hrun. destruct Hrun as (_ & Hc & Ho & Hi & Hall).
    simpl. rewrite Hc. repeat split; auto.
    clear Hi Ho Hc. generalize (seq_order_items (pending c)) as next.
    induction Hall as [|[pid qty] items Hf _ IH]; intros next; simpl;
      [reflexivity|].
    simpl in Hf. destruct (price_of (products (pending c)) pid); [|congruence].
    simpl. rewrite IH. reflexivity.
  - eapply finalize_raise; exact Hrun.
Qed.

Lemma finalize_atomic_witness :
  fst broken_finalize = Raise TypeError /\
  committed (snd broken_finalize) = committed seeded_conn /\
  List.length (orders (pending (snd broken_finalize))) = 8%nat /\
  List.length (orders (committed (snd broken_finalize))) = 7%nat.
Proof.
  split; [vm_compute; reflexivity|]. split; [|split; vm_compute; reflexivity].
  generalize (finalize_atomic [(1, 2); (99, 1)] "Walk-in" 0 70 seeded_conn
                (fst broken_finalize) (snd broken_finalize)
                (surjective_pairing _)).
  replace (fst broken_finalize) with (@Raise Z TypeError)
    by (vm_compute; reflexivity).
  exact (fun H => H).
Defined.

(** The same with an engine error in the sixth statement (the second
    [INSERT INTO order_items]). *)
Example finalize_engine_fault :
  let c := get_conn (seeded_db 0) [false; false; false; false; false; true] in
  let out := finalize [(1, 2); (2, 1)] "Walk-in" 0 70 c in
  fst out = Raise OperationalError /\
  committed (snd out) = committed c /\
  List.length (order_items (pending (snd out))) = 16%nat /\
  List.length (order_items (seeded_db 0)) = 15%nat.
Proof. vm_compute. repeat split; reflexivity. Qed.

(** ** The Add Order page *)

Lemma bill_lines_found P items :
  Forall (fun item => price_of P (fst item) <> None) items ->
  exists lines,
    bill_lines P items = Some lines /\
    List.length lines = List.length items /\
    forall oid next,
      map BillLine.line_total lines = map row_amount (item_rows P oid next items).
Proof.
  induction 1 as [|[pid qty] items Hf _ (lines & E & Hl & Hs)]; simpl.
  - exists []. repeat split; reflexivity.
  - unfold price_of in Hf. simpl in Hf. unfold bill_line, price_of. simpl.
    destruct (find (fun p => Product.id p =? pid) P) as [p|]; [|simpl in Hf; congruence].
    rewrite E. eexists. split; [reflexivity|]. split; [simpl; congruence|].
    intros oid next. simpl. f_equal. apply Hs.
Qed.

Lemma load_tables_quiet c :
  quiet c ->
  load_tables c =
  (Ok (products (pending c), OrdersFrame.mk (orders (pending c)) None,
       join_items (pending c)),
   mkconn (committed c) (pending c) []).
Proof.
  intros Hq. unfold load_tables.
  erewrite bind_ok by (apply execute_quiet; exact Hq). simpl.
  erewrite bind_ok by (apply execute_quiet; reflexivity). simpl.
  erewrite bind_ok by (apply execute_quiet; reflexivity). reflexivity.
Qed.


(** A staged line whose product is not in the loaded frame stops the page
    while the bill is drawn up, before the finalize block: no run finalizes
    a cart with a missing product. *)
Lemma add_order_run_missing_product items ev cust order_time c :
  quiet c ->
  products (pending c) <> [] ->
  (forall psel qty, ev <> AddItem psel qty) ->
  Exists (fun item => price_of (products (pending c)) (fst item) = None) items ->
  add_order_run items ev cust order_time c
  = (Raise IndexError, mkconn (committed c) (pending c) []).
Proof.
  intros Hq Hne Hev Hmiss.
  assert (Hb : bill_lines (products (pending c)) items = None).
  { induction Hmiss as [[pid qty] items Hm|[pid qty] items _ IH]; simpl.
    - unfold bill_line, price_of in *. simpl in *.
      destruct (find (fun p => Product.id p =? pid) (products (pending c)));
        [discriminate|reflexivity].
    - rewrite IH. destruct (bill_line (products (pending c)) (pid, qty));
        reflexivity. }
  unfold add_order_run. erewrite bind_ok by (apply load_tables_quiet; exact Hq).
  simpl. unfold add_order_page. rewrite Hb.
  destruct (products (pending c)); [congruence|].
  destruct ev as [|psel qty|]; [reflexivity| |reflexivity].
  exfalso. eapply Hev. reflexivity.
Qed.


Example finalize_spec_example :
  let out := add_order_run [(1, 2); (2, 1)] FinalizeOrder "Walk-in" 0 seeded_conn in
  fst out = Ok (Saved 8 70, []) /\
  List.length (orders (committed (snd out))) = 8%nat /\
  List.length (order_items (committed (snd out))) = 17%nat /\
  map Product.stock_qty (firstn 2 (products (committed seeded_conn))) = [46; 22] /\
  map Product.stock_qty (firstn 2 (products (committed (snd out)))) = [44; 21].
Proof. vm_compute. repeat split; reflexivity. Qed.

(** The total on the Order row is computed from the [products] frame the
    run loaded; the page given a frame that differs from the store would
    record that frame's total next to the store's unit prices. *)
Example page_total_is_from_loaded_frame :
  let stale := [Product.mk 1 "Milk 1L" 20 30 50] in
  let out := add_order_page stale [(1, 2)] FinalizeOrder "Walk-in" 0 seeded_conn in
  fst out = Ok (Saved 8 60, []) /\
  map OrderItem.unit_price
      (filter (fun i => OrderItem.order_id i =? 8)
              (order_items (committed (snd out)))) = [25%float].
Proof. vm_compute. split; reflexivity. Qed.

(** Prices that are no binary fractions: three packs at 0.1 make the total
    that binary64 makes of them, and that number is what the Order row
    holds. *)
Example finalize_total_is_binary64 :
  let out := add_order_run [(11, 3)] FinalizeOrder "Walk-in" 0
               (get_conn candy_db []) in
  fst out = Ok (Saved 8 0.30000000000000004, []) /\
  map Order.total_amount
      (filter (fun o => Order.id o =? 8) (orders (committed (snd out))))
  = [0.30000000000000004%float].
Proof. vm_compute. split; reflexivity. Qed.

(** C9.  Finalizing with an empty cart is rejected.  Whatever the loaded
    [products] frame, the page with an empty cart answers a finalize
    request with one of its two notices and touches nothing: the connection
    (committed database, open transaction, so also the [orders] table) is
    what it was, and the cart stays empty.  A whole page run, which first
    reloads the tables, likewise leaves both database views unchanged and
    never reports a saved order. *)
Theorem finalize_empty_cart_rejected products_df cust order_time c :
  add_order_page products_df [] FinalizeOrder cust order_time c
    = (Ok (match products_df with [] => NoProducts | _ => AddFirst end, []), c) /\
  (forall r c',
      add_order_run [] FinalizeOrder cust order_time c = (r, c') ->
      committed c' = committed c /\ pending c' = pending c /\
      orders (committed c') = orders (committed c) /\
      forall oid total items, r <> Ok (Saved oid total, items)).
Proof.
  split.
  - destruct products_df; reflexivity.
  - intros r c' H. unfold add_order_run in H.
    assert (Hl : forall r0 c0, load_tables c = (r0, c0) ->
                 committed c0 = committed c /\ pending c0 = pending c).
    { unfold load_tables, bind, execute. intros r0 c0.
      destruct (next_fault c) as [[] rest]; simpl;
        [intros E; inversion E; subst; auto|].
      destruct rest as [|[] rest]; simpl;
        try (intros E; inversion E; subst; auto; fail).
      destruct rest as [|[] rest]; simpl; intros E; inversion E; subst; auto. }
    apply bind_inv in H. destruct H as [(e & H & ->)|(t & c1 & E1 & H)].
    + destruct (Hl _ _ H) as [Hc Hp]. rewrite Hc, Hp.
      repeat split; auto. discriminate.
    + destruct (Hl _ _ E1) as [Hc Hp].
      assert (E : c' = c1 /\ forall oid total items, r <> Ok (Saved oid total, items)).
      { destruct (fst (fst t)); simpl in H; inversion H; subst;
          split; auto; discriminate. }
      destruct E as [-> Hr]. rewrite Hc, Hp. repeat split; auto.
Qed.

(** ** What the seed loader writes *)

Lemma seed_order_ok cust otime lines c u c' :
  seed_order (cust, otime, lines) c = (Ok u, c') ->
  committed c' = committed c /\
  order_seeded cust otime lines (pending c) (pending c').
Proof.
  unfold seed_order. intros H.
  bind_ok_inv H oid c1 E1. bind_ok_inv H total c2 E2.
  apply execute_ok_inv in E1, H. destruct E1 as [E1 Hc1], H as [E3 Hc3].
  apply seed_lines_ok in E2. destruct E2 as (Hc2 & Hw & Ht).
  unfold insert_order in E1. inversion E1 as [[Hoid Hd1]]. clear E1.
  rewrite <- Hd1 in Hw, Ht. simpl in Ht.
  destruct Hw as (Ho & Hso & Hsp & Hi & Hsi & Hpr & _). simpl in *.
  unfold update_order_total in E3. injection E3 as _ Hd3.
  split; [congruence|]. unfold order_seeded. rewrite <- Hd3. simpl.
  rewrite Ho, Hi, Hso, Hsi, Hsp, Hoid, Ht.
  repeat split; auto.
Qed.

Lemma item_rows_priced P oid next lines :
  Forall (fun i => price_of P (OrderItem.product_id i) = Some (OrderItem.unit_price i))
         (item_rows P oid next lines).
Proof.
  revert next. induction lines as [|[pid qty] lines IH]; intros next; simpl;
    [constructor|].
  destruct (price_of P pid) eqn:Ep; [constructor; [exact Ep|]|]; apply IH.
Qed.

Lemma filter_none {A} (f : A -> bool) l :
  Forall (fun x => f x = false) l -> filter f l = [].
Proof.
  induction 1 as [|x l Hx _ IH]; simpl; [reflexivity|]. rewrite Hx. exact IH.
Qed.

Lemma filter_all {A} (f : A -> bool) l :
  Forall (fun x => f x = true) l -> filter f l = l.
Proof.
  induction 1 as [|x l Hx _ IH]; simpl; [reflexivity|]. rewrite Hx, IH. reflexivity.
Qed.

Lemma order_seeded_inv cust otime lines d d' :
  order_seeded cust otime lines d d' -> seed_inv d -> seed_inv d'.
Proof.
  unfold order_seeded, seed_inv.
  set (oid := seq_orders d + 1).
  set (rows := item_rows (products d) oid (seq_order_items d) lines).
  intros (Ho & Hi & Hso & _ & _ & Hpr) (Iid & Iref & Itot & Ipr).
  assert (Hrows : Forall (fun i => OrderItem.order_id i = oid) rows).
  { apply Forall_forall. intros i. apply item_rows_order_id. }
  assert (Hold : forall o, In o (orders d) -> set_total (line_sum rows) oid o = o).
  { intros o Hin. unfold set_total.
    rewrite Forall_forall in Iid. specialize (Iid o Hin).
    destruct (Order.id o =? oid) eqn:E; [|reflexivity].
    apply Z.eqb_eq in E. unfold oid in E. lia. }
  assert (Hnew : set_total (line_sum rows) oid (Order.mk oid otime cust 0)
                 = Order.mk oid otime cust (line_sum rows)).
  { unfold set_total. simpl. rewrite Z.eqb_refl. reflexivity. }
  rewrite Ho, Hi, Hso. rewrite map_app. simpl. rewrite Hnew.
  rewrite (map_ext_in _ (fun o => o) _ Hold), map_id.
  split; [|split; [|split]].
  - apply Forall_app. split.
    + eapply Forall_impl; [|exact Iid]. intros o Hle. simpl in Hle. unfold oid. lia.
    + constructor; [simpl; lia|constructor].
  - apply Forall_app. split.
    + eapply Forall_impl; [|exact Iref]. intros i Hle. simpl in Hle. unfold oid. lia.
    + eapply Forall_impl; [|exact Hrows]. intros i Hi'. simpl in Hi'. lia.
  - apply Forall_app. split.
    + rewrite Forall_forall in Itot, Iid |- *. intros o Hin. rewrite (Itot o Hin).
      rewrite filter_app. rewrite (filter_none _ rows); [rewrite app_nil_r; reflexivity|].
      eapply Forall_impl; [|exact Hrows]. intros i Hi'. simpl in Hi'.
      apply Z.eqb_neq. specialize (Iid o Hin). simpl in Iid. unfold oid in Hi'. lia.
    + constructor; [|constructor]. simpl. rewrite filter_app.
      rewrite (filter_none _ (order_items d)).
      * rewrite (filter_all _ rows); [reflexivity|].
        eapply Forall_impl; [|exact Hrows]. intros i Hi'. simpl in Hi'.
        apply Z.eqb_eq. exact Hi'.
      * eapply Forall_impl; [|exact Iref]. intros i Hle. simpl in Hle.
        apply Z.eqb_neq. unfold oid. lia.
  - apply Forall_app. split.
    + eapply Forall_impl; [|exact Ipr]. intros i Hp. simpl in Hp. rewrite Hpr. exact Hp.
    + eapply Forall_impl; [|apply item_rows_priced]. intros i Hp. simpl in Hp.
      rewrite Hpr. exact Hp.
Qed.

Lemma sample_rows_ext P P' oseq iseq samples :
  (forall pid, price_of P' pid = price_of P pid) ->
  sample_rows P' oseq iseq samples = sample_rows P oseq iseq samples.
Proof.
  intros He. revert oseq iseq.
  induction samples as [|[[cust otime] lines] samples IH]; intros oseq iseq;
    simpl; [reflexivity|].
  rewrite (item_rows_ext P P') by exact He. rewrite IH. reflexivity.
Qed.

Lemma set_total_names total oid l :
  map (fun o => (Order.customer_name o, Order.order_time o))
      (map (set_total total oid) l) =
  map (fun o => (Order.customer_name o, Order.order_time o)) l.
Proof.
  rewrite map_map. apply map_ext. intros o. unfold set_total.
  destruct (Order.id o =? oid); reflexivity.
Qed.

Lemma seed_orders_ok samples :
  forall c u c',
    forM_ samples seed_order c = (Ok u, c') ->
    committed c' = committed c /\ samples_seeded samples (pending c) (pending c').
Proof.
  induction samples as [|[[cust otime] lines] samples IH]; intros c u c' H;
    simpl in H.
  - inversion H; subst. split; [reflexivity|]. unfold samples_seeded. simpl.
    rewrite !app_nil_r. auto.
  - bind_ok_inv H u1 c1 E1. apply seed_order_ok in E1. destruct E1 as [Hc1 Hs].
    apply IH in H. destruct H as [Hc (Hn & Hi & Hpr & Hinv)].
    split; [congruence|].
    pose proof Hs as (Ho1 & Hi1 & Hso1 & Hsi1 & _ & Hpr1).
    unfold samples_seeded. split; [|split; [|split]].
    + rewrite Hn, Ho1, set_total_names, map_app, <- app_assoc. reflexivity.
    + rewrite Hi, Hi1, Hso1, Hsi1, <- app_assoc. simpl.
      rewrite (sample_rows_ext (products (pending c)) (products (pending c1)))
        by exact Hpr1.
      reflexivity.
    + intros pid. rewrite Hpr. apply Hpr1.
    + intros I0. apply Hinv. eapply order_seeded_inv; eassumption.
Qed.

Lemma insert_all_ok prods :
  forall c u c',
    forM_ prods (fun '(name, cost, sell, stock) =>
                   execute (insert_product name cost sell stock)) c = (Ok u, c') ->
    committed c' = committed c /\ pending c' = insert_all prods (pending c).
Proof.
  induction prods as [|[[[name cost] sell] stock] prods IH]; intros c u c' H;
    simpl in H.
  - inversion H; subst. auto.
  - bind_ok_inv H u1 c1 E1. apply execute_ok_inv in E1. destruct E1 as [E1 Hc1].
    apply IH in H. destruct H as [Hc Hp]. split; [congruence|].
    rewrite Hp. unfold insert_all. cbn [fold_left]. rewrite E1. reflexivity.
Qed.

Lemma insert_all_tables prods d :
  orders (insert_all prods d) = orders d /\
  order_items (insert_all prods d) = order_items d /\
  seq_orders (insert_all prods d) = seq_orders d /\
  seq_order_items (insert_all prods d) = seq_order_items d.
Proof.
  revert d. induction prods as [|[[[name cost] sell] stock] prods IH]; intros d;
    [simpl; auto|].
  destruct (IH (snd (insert_product name cost sell stock d))) as (H1 & H2 & H3 & H4).
  unfold insert_all in *. cbn [fold_left]. rewrite H1, H2, H3, H4. simpl. auto.
Qed.

Lemma seed_with_ok prods samples c u c' :
  seed_with prods samples c = (Ok u, c') ->
  committed c' = pending c' /\
  samples_seeded samples (restocked prods (pending c)) (pending c').
Proof.
  unfold seed_with. intros H.
  bind_ok_inv H u1 c1 E1. bind_ok_inv H u2 c2 E2. bind_ok_inv H u3 c3 E3.
  bind_ok_inv H u4 c4 E4. bind_ok_inv H u5 c5 E5.
  apply executescript_ok_inv in E1. destruct E1 as [_ Hp1].
  rewrite apply_delete_script in Hp1.
  apply commit_ok_inv in E2, E4, H.
  destruct E2 as [_ Hp2], E4 as [_ Hp4], H as [Hc6 Hp6].
  apply insert_all_ok in E3. destruct E3 as [_ Hp3].
  apply seed_orders_ok in E5. destruct E5 as [_ Hs].
  split; [congruence|]. rewrite Hp6. unfold restocked.
  rewrite <- Hp1, <- Hp2, <- Hp3, <- Hp4. exact Hs.
Qed.

Lemma seed_inv_restocked prods d : seed_inv (restocked prods d).
Proof.
  unfold seed_inv, restocked.
  destruct (insert_all_tables prods (delete_all d)) as (Ho & Hi & _ & _).
  rewrite Ho, Hi. simpl. repeat split; constructor.
Qed.

(** A run of the loader that does seed, on a quiet connection. *)
Lemma seed_dummy_data_seeds now force c :
  quiet c ->
  force = true \/ products (pending c) = [] ->
  exists c',
    seed_dummy_data now force c = (Ok tt, c') /\
    committed c' = pending c' /\
    samples_seeded (sample_orders now) (restocked seed_products (pending c))
      (pending c').
Proof.
  intros Hq Hseed.
  destruct (runs_unit _ c (runs_seed now force) Hq) as (c' & E & _).
  exists c'. split; [exact E|].
  unfold seed_dummy_data in E.
  erewrite bind_ok in E by (apply execute_quiet; exact Hq). simpl in E.
  assert (Hg : (0 <? Z.of_nat (List.length (products (pending c)))) && negb force
               = false).
  { destruct Hseed as [-> | ->]; [apply andb_false_r|reflexivity]. }
  rewrite Hg in E. apply seed_with_ok in E. exact E.
Qed.

Lemma seed_line_missing oid total pid qty c :
  quiet c ->
  price_of (products (pending c)) pid = None ->
  seed_line oid total (pid, qty) c = (Ok total, c).
Proof.
  intros Hq Hp. unfold seed_line.
  erewrite bind_ok by (apply execute_quiet; exact Hq).
  rewrite select_selling_price_eq. simpl. rewrite Hp.
  destruct c as [dc dp fs]. unfold quiet in Hq. simpl in *. subst fs. reflexivity.
Qed.

(** C10.  After a run of the seed loader that seeds (forced, or on an
    empty [products] table), every Order row in the store has as
    [total_amount] the sum of [unit_price * qty] over the OrderItem rows
    stored for that order; and every stored OrderItem row belongs to a
    product that exists, at that product's price: a skipped line has left
    neither a row nor an amount. *)
Theorem seeded_totals_match_items now force c
    (Hq : quiet c)
    (Hseed : force = true \/ products (pending c) = []) :
  exists c',
    seed_dummy_data now force c = (Ok tt, c') /\
    List.length (orders (committed c')) = 7%nat /\
    Forall (fun o =>
              Order.total_amount o =
              line_sum (filter (fun i => OrderItem.order_id i =? Order.id o)
                               (order_items (committed c'))))
           (orders (committed c')) /\
    Forall (fun i =>
              price_of (products (committed c')) (OrderItem.product_id i)
              = Some (OrderItem.unit_price i))
           (order_items (committed c')).
Proof.
  destruct (seed_dummy_data_seeds now force c Hq Hseed) as (c' & E & Hc & Hs).
  exists c'. split; [exact E|]. rewrite Hc.
  destruct Hs as (Hn & _ & _ & Hinv).
  destruct (Hinv (seed_inv_restocked _ _)) as (_ & _ & Htot & Hpr).
  split; [|split; assumption].
  apply (f_equal (@List.length _)) in Hn. rewrite length_map in Hn. rewrite Hn.
  unfold restocked.
  destruct (insert_all_tables seed_products (delete_all (pending c))) as (Ho & _).
  rewrite Ho. reflexivity.
Qed.

Lemma seeded_totals_match_items_witness :
  exists c',
    seed_dummy_data 0 false (get_conn empty_db []) = (Ok tt, c') /\
    List.length (orders (committed c')) = 7%nat /\
    Forall (fun o =>
              Order.total_amount o =
              line_sum (filter (fun i => OrderItem.order_id i =? Order.id o)
                               (order_items (committed c'))))
           (orders (committed c')) /\
    Forall (fun i =>
              price_of (products (committed c')) (OrderItem.product_id i)
              = Some (OrderItem.unit_price i))
           (order_items (committed c')).
Proof.
  exact (seeded_totals_match_items 0 false (get_conn empty_db [])
           eq_refl (or_intror eq_refl)).
Defined.

(** ** Sample lines that name a missing product *)

(** C7, as the spec states it, fails: every line of every sample order
    names a missing product, and still all seven Order rows are created
    (with total 0 and no OrderItem row). *)
Lemma seed_keeps_order_of_missing_product :
  Forall (fun s => Forall (fun line =>
                             price_of (products (committed reseeded)) (fst line)
                             = None)
                          (snd s))
         (sample_orders 0) /\
  map Order.customer_name (orders (committed reseeded)) =
    ["Amit"; "Shreya"; "Ramesh"; "Priya"; "Karan"; "Neha"; "LocalShop"]%string /\
  map Order.total_amount (orders (committed reseeded)) = [0; 0; 0; 0; 0; 0; 0]%float /\
  order_items (committed reseeded) = [].
Proof. vm_compute. repeat split; repeat constructor. Qed.

(** A database whose [products] counter stands at 5 with no product left:
    the loader gives the products the keys 6 to 15.  Of Karan's order
    (products 10 and 4) the line for product 4 is skipped and the line for
    product 10 is kept, and the total is that line's. *)
Example seed_keeps_other_lines :
  let c' := snd (seed_dummy_data 0 false (get_conn (mkdb [] [] [] 5 0 0) [])) in
  map (fun i => (OrderItem.product_id i, OrderItem.qty i, OrderItem.unit_price i))
      (filter (fun i => OrderItem.order_id i =? 5) (order_items (committed c')))
    = [(10, 1, 20%float)] /\
  map (fun o => (Order.customer_name o, Order.total_amount o))
      (filter (fun o => Order.id o =? 5) (orders (committed c')))
    = [("Karan"%string, 20%float)].
Proof. vm_compute. split; reflexivity. Qed.

(** C7, amended.  When a sample line names a product that does not exist,
    that line alone is skipped: the statement for it leaves the connection
    and the running total as they were.  The sample order is not skipped:
    the loader creates one Order row per sample order, in order, and the
    OrderItem rows are those of the lines, over all sample orders, whose
    product exists. *)
Theorem seed_skips_only_missing_lines now force c
    (Hq : quiet c)
    (Hseed : force = true \/ products (pending c) = []) :
  exists c',
    seed_dummy_data now force c = (Ok tt, c') /\
    map (fun o => (Order.customer_name o, Order.order_time o))
        (orders (committed c'))
      = map fst (sample_orders now) /\
    order_items (committed c')
      = sample_rows (products (committed c')) (seq_orders (pending c))
          (seq_order_items (pending c)) (sample_orders now) /\
    (forall oid total pid qty c0,
        quiet c0 ->
        price_of (products (pending c0)) pid = None ->
        seed_line oid total (pid, qty) c0 = (Ok total, c0)).
Proof.
  destruct (seed_dummy_data_seeds now force c Hq Hseed) as (c' & E & Hc & Hs).
  exists c'. split; [exact E|]. rewrite Hc.
  destruct Hs as (Hn & Hi & Hpr & _).
  destruct (insert_all_tables seed_products (delete_all (pending c)))
    as (Ho & Hit & Hso & Hsi).
  unfold restocked in Hn, Hi. rewrite Ho in Hn. rewrite Hit, Hso, Hsi in Hi.
  split; [exact Hn|]. split.
  - rewrite Hi.
    change (order_items (delete_all (pending c))) with (@nil OrderItem.t).
    change (seq_orders (delete_all (pending c))) with (seq_orders (pending c)).
    change (seq_order_items (delete_all (pending c)))
      with (seq_order_items (pending c)).
    rewrite app_nil_l. symmetry. apply sample_rows_ext. exact Hpr.
  - intros. apply seed_line_missing; assumption.
Qed.

Lemma seed_skips_only_missing_lines_witness :
  exists c',
    seed_dummy_data 0 true (get_conn (seeded_db 0) []) = (Ok tt, c') /\
    map (fun o => (Order.customer_name o, Order.order_time o))
        (orders (committed c'))
      = map fst (sample_orders 0) /\
    order_items (committed c')
      = sample_rows (products (committed c'))
          (seq_orders (pending (get_conn (seeded_db 0) [])))
          (seq_order_items (pending (get_conn (seeded_db 0) [])))
          (sample_orders 0) /\
    (forall oid total pid qty c0,
        quiet c0 ->
        price_of (products (pending c0)) pid = None ->
        seed_line oid total (pid, qty) c0 = (Ok total, c0)).
Proof.
  exact (seed_skips_only_missing_lines 0 true (get_conn (seeded_db 0) [])
           eq_refl (or_introl eq_refl)).
Defined.

(** ** Grouping and merging *)

Lemma total_of_cons k r g :
  total_of k (r :: g) = (if k =? fst r then snd r else 0) + total_of k g.
Proof.
  unfold total_of. simpl. destruct (k =? fst r); simpl; lia.
Qed.

Lemma total_of_group_add k k0 v g :
  total_of k (group_add Z.compare Z.add k0 v g)
  = total_of k g + (if k =? k0 then v else 0).
Proof.
  induction g as [|[k' v'] g IH]; simpl.
  - rewrite total_of_cons. simpl. unfold total_of. simpl. lia.
  - destruct (Z.compare_spec k0 k') as [E|E|E].
    + subst k'. rewrite !total_of_cons. simpl. destruct (k =? k0); lia.
    + rewrite !total_of_cons. simpl. lia.
    + rewrite !total_of_cons, IH. simpl. lia.
Qed.

Lemma total_of_groupby_from k kv :
  forall g,
    total_of k (fold_left (fun g r => group_add Z.compare Z.add (fst r) (snd r) g) kv g)
    = total_of k g + total_of k kv.
Proof.
  induction kv as [|r kv IH]; intros g; simpl.
  - unfold total_of at 3. simpl. lia.
  - rewrite IH, total_of_group_add, total_of_cons. lia.
Qed.

Lemma total_of_groupby k kv :
  total_of k (groupby Z.compare Z.add kv) = total_of k kv.
Proof. unfold groupby. rewrite total_of_groupby_from. reflexivity. Qed.

Lemma group_add_above lo k v g :
  lo < k ->
  Forall (fun r => lo < fst r) g ->
  Forall (fun r => lo < fst r) (group_add Z.compare Z.add k v g).
Proof.
  intros Hk. induction 1 as [|[k' v'] g Hr Hg IH]; simpl.
  - repeat constructor. exact Hk.
  - destruct (k ?= k'); repeat constructor; auto.
Qed.

Lemma group_add_increasing k v g :
  increasing g -> increasing (group_add Z.compare Z.add k v g).
Proof.
  induction g as [|[k' v'] g IH]; simpl.
  - intros _. split; [constructor|exact I].
  - intros [Hall Hinc]. destruct (Z.compare_spec k k') as [E|E|E]; simpl.
    + split; assumption.
    + split; [|split; assumption]. constructor; [exact E|].
      eapply Forall_impl; [|exact Hall]. simpl. intros; lia.
    + split; [|apply IH; exact Hinc]. apply group_add_above; assumption.
Qed.

Lemma groupby_increasing kv : increasing (groupby Z.compare Z.add kv).
Proof.
  unfold groupby. assert (H : increasing []) by exact I. revert H.
  generalize (@nil (Z * Z)) as g.
  induction kv as [|r kv IH]; intros g Hg; simpl; [exact Hg|].
  apply IH, group_add_increasing, Hg.
Qed.

(** In a table with increasing keys a key selects at most one row. *)
Lemma increasing_select k g :
  increasing g ->
  filter (fun r => k =? fst r) g = [] \/
  exists r, filter (fun r => k =? fst r) g = [r].
Proof.
  induction g as [|r g IH]; simpl; [auto|].
  intros [Hall Hinc]. destruct (k =? fst r) eqn:E.
  - right. exists r. f_equal. apply filter_none.
    eapply Forall_impl; [|exact Hall]. intros r' Hlt. simpl in Hlt.
    apply Z.eqb_eq in E. apply Z.eqb_neq. lia.
  - apply IH, Hinc.
Qed.

(** A left merge with a grouped table, followed by [fillna]: each left
    row gets the total of its key. *)
Lemma merge_left_total {L} (lkey : L -> Z) (left : list L) g :
  increasing g ->
  map (fun r => (fst r, fillna0 (snd r))) (merge_left Z.eqb lkey fst left g)
  = map (fun l => (l, total_of (lkey l) g)) left.
Proof.
  intros Hg. induction left as [|l left IH]; [reflexivity|].
  change (merge_left Z.eqb lkey fst (l :: left) g)
    with (match filter (fun r => lkey l =? fst r) g with
          | [] => [(l, None)]
          | ms => map (fun r => (l, Some r)) ms
          end ++ merge_left Z.eqb lkey fst left g).
  rewrite map_app, IH. cbn [map]. unfold total_of at 2.
  destruct (increasing_select (lkey l) g Hg) as [E|[[k v] E]]; rewrite E; simpl.
  - reflexivity.
  - rewrite Z.add_0_r. reflexivity.
Qed.

(** ** Customers per hour *)

Lemma hour_of_range t : 0 <= hour_of t < 24.
Proof. unfold hour_of. apply Z.mod_pos_bound. lia. Qed.

Lemma total_of_hours h rows :
  total_of h (map (fun x => (x, 1))
                  (map (fun o => hour_of (Order.order_time o)) rows))
  = customers_in_hour h rows.
Proof.
  unfold customers_in_hour.
  induction rows as [|o rows IH]; [reflexivity|].
  cbn [map filter]. rewrite total_of_cons, IH. cbn [fst snd].
  rewrite (Z.eqb_sym h). destruct (hour_of (Order.order_time o) =? h);
    cbn [List.length]; lia.
Qed.

Lemma zsum_map_add {A} (a b : A -> Z) l :
  zsum (map (fun x => a x + b x) l) = zsum (map a l) + zsum (map b l).
Proof. induction l as [|x l IH]; simpl; [reflexivity|]. rewrite IH. lia. Qed.

Lemma one_hour_of_day x :
  0 <= x < 24 ->
  zsum (map (fun h => if x =? h then 1 else 0) hours_of_day) = 1.
Proof.
  intros Hx.
  assert (H : exists n, (n < 24)%nat /\ x = Z.of_nat n).
  { exists (Z.to_nat x). split; lia. }
  destruct H as (n & Hn & ->).
  do 24 (destruct n as [|n]; [reflexivity|]). lia.
Qed.

Lemma customers_sum rows :
  zsum (map (fun h => customers_in_hour h rows) hours_of_day)
  = Z.of_nat (List.length rows).
Proof.
  induction rows as [|o rows IH]; [reflexivity|].
  transitivity
    (zsum (map (fun h => (if hour_of (Order.order_time o) =? h then 1 else 0)
                         + customers_in_hour h rows) hours_of_day)).
  - f_equal. apply map_ext. intros h. unfold customers_in_hour. cbn [filter].
    destruct (hour_of (Order.order_time o) =? h); cbn [List.length]; lia.
  - rewrite zsum_map_add, IH, one_hour_of_day by apply hour_of_range.
    cbn [List.length]. lia.
Qed.

Lemma customers_per_hour_table o rows hr :
  snd (compute_customers_per_hour (OrdersFrame.mk (o :: rows) hr))
  = map (fun h => (h, customers_in_hour h (o :: rows))) hours_of_day.
Proof.
  unfold compute_customers_per_hour. cbn [OrdersFrame.rows snd].
  rewrite (merge_left_total (fun h => h)) by apply groupby_increasing.
  apply map_ext. intros h. rewrite total_of_groupby, total_of_hours. reflexivity.
Qed.

(** C2, as the spec states it, fails on the empty set of orders: the
    result has no row at all. *)
Lemma customers_per_hour_empty_input :
  List.length (snd (compute_customers_per_hour (OrdersFrame.mk [] None)))
  <> 24%nat.
Proof. simpl. discriminate. Qed.

(** C2, amended.  For a non-empty set of orders the report has exactly the
    24 rows of the hours 0 to 23, in order; the count of a row is the
    number of orders placed in that hour, so it is at least 0, and 0 for an
    hour without orders; and the counts add up to the number of orders.
    For the empty set the report is the empty table. *)
Theorem customers_per_hour_rows (orders : OrdersFrame.t) :
  let res := snd (compute_customers_per_hour orders) in
  (OrdersFrame.rows orders = [] -> res = []) /\
  (OrdersFrame.rows orders <> [] ->
   map fst res = [0; 1; 2; 3; 4; 5; 6; 7; 8; 9; 10; 11; 12; 13; 14; 15; 16; 17;
                  18; 19; 20; 21; 22; 23] /\
   List.length res = 24%nat /\
   Forall (fun r => snd r = customers_in_hour (fst r) (OrdersFrame.rows orders)
                    /\ 0 <= snd r) res /\
   (forall h, In h hours_of_day ->
              Forall (fun o => hour_of (Order.order_time o) <> h)
                     (OrdersFrame.rows orders) ->
              In (h, 0) res) /\
   zsum (map snd res) = Z.of_nat (List.length (OrdersFrame.rows orders))).
Proof.
  destruct orders as [rows hr]. cbv zeta. cbn [OrdersFrame.rows]. split.
  - intros ->. reflexivity.
  - intros Hne. destruct rows as [|o rows]; [congruence|].
    rewrite customers_per_hour_table.
    set (all := o :: rows). split; [|split; [|split; [|split]]].
    + rewrite map_map. cbn [fst]. rewrite map_id. reflexivity.
    + rewrite length_map. reflexivity.
    + apply Forall_map, Forall_forall. intros h _. cbn [fst snd].
      split; [reflexivity|]. unfold customers_in_hour. lia.
    + intros h Hh Hnone. apply in_map_iff. exists h. split; [|exact Hh].
      f_equal. unfold customers_in_hour. rewrite filter_none; [reflexivity|].
      eapply Forall_impl; [|exact Hnone]. intros o' Ho'. cbn beta in Ho'.
      apply Z.eqb_neq. exact Ho'.
    + rewrite map_map. cbn [snd]. apply customers_sum.
Qed.

Lemma customers_per_hour_rows_witness :
  List.length (snd (compute_customers_per_hour two_orders)) = 24%nat /\
  In (9, 1) (snd (compute_customers_per_hour two_orders)) /\
  In (10, 0) (snd (compute_customers_per_hour two_orders)) /\
  zsum (map snd (snd (compute_customers_per_hour two_orders))) = 2.
Proof.
  destruct (proj2 (customers_per_hour_rows two_orders)) as (_ & Hl & _ & Hz & Hs).
  - discriminate.
  - split; [exact Hl|]. split; [vm_compute; tauto|]. split; [|exact Hs].
    apply Hz; [vm_compute; tauto|]. repeat constructor; vm_compute; discriminate.
Defined.

(** ** Grouped sums *)

Section GroupSumFacts.
Context {K S V : Type} (cmp : K -> K -> comparison) (init : S) (step : S -> V -> S).
Hypothesis cmp_eq : forall a b, cmp a b = Eq -> a = b.
Hypothesis cmp_refl : forall a, cmp a a = Eq.
Hypothesis cmp_lt_trans :
  forall a b c, cmp a b = Lt -> cmp b c = Lt -> cmp a c = Lt.
Hypothesis cmp_gt_lt : forall a b, cmp a b = Gt -> cmp b a = Lt.

Lemma is_eq_true a b : is_eq (cmp a b) = true <-> a = b.
Proof.
  split.
  - destruct (cmp a b) eqn:E; try discriminate. intros _. apply cmp_eq, E.
  - intros ->. rewrite cmp_refl. reflexivity.
Qed.

Lemma rows_of_above (k : K) (g : list (K * S)) :
  Forall (fun r => cmp k (fst r) = Lt) g -> rows_of cmp k g = [].
Proof.
  intros H. unfold rows_of. apply filter_none.
  eapply Forall_impl; [|exact H]. intros r Hr. cbn beta in Hr.
  rewrite Hr. reflexivity.
Qed.

(** In a table with ascending keys a key selects at most one row. *)
Lemma ascending_select k (g : list (K * S)) :
  ascending cmp g ->
  rows_of cmp k g = [] \/ exists s, rows_of cmp k g = [(k, s)].
Proof.
  induction g as [|[k' s'] g IH]; simpl; [auto|].
  intros [Hall Hinc]. destruct (is_eq (cmp k k')) eqn:E.
  - right. apply is_eq_true in E. subst k'. exists s'. f_equal.
    apply rows_of_above. exact Hall.
  - apply IH, Hinc.
Qed.

Lemma group_step_above lo k v (g : list (K * S)) :
  cmp lo k = Lt ->
  Forall (fun r => cmp lo (fst r) = Lt) g ->
  Forall (fun r => cmp lo (fst r) = Lt) (group_step cmp init step k v g).
Proof.
  intros Hk. induction 1 as [|[k' s'] g Hr Hg IH]; simpl.
  - repeat constructor. exact Hk.
  - destruct (cmp k k'); repeat constructor; auto.
Qed.

Lemma group_step_ascending k v g :
  ascending cmp g -> ascending cmp (group_step cmp init step k v g).
Proof.
  induction g as [|[k' s'] g IH]; simpl.
  - intros _. split; [constructor|exact I].
  - intros [Hall Hinc]. destruct (cmp k k') eqn:E; simpl.
    + split; assumption.
    + split; [|split; assumption]. constructor; [exact E|].
      eapply Forall_impl; [|exact Hall]. intros r Hr. cbn beta in *.
      eapply cmp_lt_trans; eassumption.
    + split; [|apply IH; exact Hinc].
      apply group_step_above; [apply cmp_gt_lt; exact E|exact Hall].
Qed.

Lemma group_step_rows k0 v g k :
  ascending cmp g ->
  rows_of cmp k (group_step cmp init step k0 v g)
  = if is_eq (cmp k k0) then [(k, step (state_of cmp init k0 g) v)]
    else rows_of cmp k g.
Proof.
  induction g as [|[k' s'] g IH]; intros Hg.
  - simpl. destruct (is_eq (cmp k k0)) eqn:E; [|reflexivity].
    apply is_eq_true in E. subst. reflexivity.
  - destruct Hg as [Hall Hinc]. cbn [group_step].
    destruct (cmp k0 k') eqn:E0.
    + apply cmp_eq in E0. subst k'. unfold state_of, rows_of. cbn [filter fst].
      rewrite cmp_refl. cbn [is_eq snd].
      destruct (is_eq (cmp k k0)) eqn:E; [|reflexivity].
      apply is_eq_true in E. subst k. f_equal.
      apply (rows_of_above k0 g). exact Hall.
    + assert (Hnone : rows_of cmp k0 ((k', s') :: g) = []).
      { apply rows_of_above. constructor; [exact E0|].
        eapply Forall_impl; [|exact Hall]. intros r Hr. cbn beta in *.
        eapply cmp_lt_trans; eassumption. }
      unfold state_of. rewrite Hnone.
      change (rows_of cmp k ((k0, step init v) :: (k', s') :: g))
        with (if is_eq (cmp k k0) then (k0, step init v) :: rows_of cmp k ((k', s') :: g)
              else rows_of cmp k ((k', s') :: g)).
      destruct (is_eq (cmp k k0)) eqn:E; [|reflexivity].
      apply is_eq_true in E. subst k. rewrite Hnone. reflexivity.
    + change (rows_of cmp k ((k', s') :: group_step cmp init step k0 v g))
        with (if is_eq (cmp k k') then (k', s') :: rows_of cmp k (group_step cmp init step k0 v g)
              else rows_of cmp k (group_step cmp init step k0 v g)).
      rewrite (IH Hinc).
      assert (Hne : is_eq (cmp k0 k') = false) by (rewrite E0; reflexivity).
      assert (Hst : state_of cmp init k0 ((k', s') :: g) = state_of cmp init k0 g).
      { unfold state_of, rows_of. cbn [filter fst]. rewrite Hne. reflexivity. }
      rewrite Hst.
      destruct (is_eq (cmp k k0)) eqn:E.
      * apply is_eq_true in E. subst k. rewrite Hne. reflexivity.
      * unfold rows_of at 3. cbn [filter fst]. reflexivity.
Qed.

Lemma group_step_state k0 v g k :
  ascending cmp g ->
  state_of cmp init k (group_step cmp init step k0 v g)
  = if is_eq (cmp k k0) then step (state_of cmp init k0 g) v else state_of cmp init k g.
Proof.
  intros Hg. unfold state_of at 1. rewrite (group_step_rows k0 v g k Hg).
  destruct (is_eq (cmp k k0)); reflexivity.
Qed.

Lemma values_of_cons k k0 (v : V) kv :
  values_of cmp k ((k0, v) :: kv)
  = if is_eq (cmp k k0) then v :: values_of cmp k kv else values_of cmp k kv.
Proof.
  unfold values_of, rows_of. cbn [filter fst].
  destruct (is_eq (cmp k k0)); reflexivity.
Qed.

Lemma group_sum_from kv :
  forall g k,
    ascending cmp g ->
    ascending cmp (fold_left (fun g r => group_step cmp init step (fst r) (snd r) g) kv g) /\
    rows_of cmp k (fold_left (fun g r => group_step cmp init step (fst r) (snd r) g) kv g)
    = match values_of cmp k kv with
      | [] => rows_of cmp k g
      | vs => [(k, fold_left step vs (state_of cmp init k g))]
      end.
Proof.
  induction kv as [|[k0 v] kv IH]; intros g k Hg; [split; [exact Hg|reflexivity]|].
  cbn [fold_left fst snd].
  pose proof (group_step_ascending k0 v g Hg) as Hg'.
  destruct (IH (group_step cmp init step k0 v g) k Hg') as [Ha Hr].
  split; [exact Ha|]. rewrite Hr. clear Hr.
  rewrite values_of_cons, (group_step_rows k0 v g k Hg),
    (group_step_state k0 v g k Hg).
  destruct (is_eq (cmp k k0)) eqn:E.
  - apply is_eq_true in E. subst k0. cbn [fold_left].
    destruct (values_of cmp k kv) as [|v1 vs]; reflexivity.
  - destruct (values_of cmp k kv) as [|v1 vs]; reflexivity.
Qed.

(** [groupby(...).sum()]: the groups come out in key order, one row per
    key of the table, and the row holds what the accumulator makes of the
    values under that key, in row order. *)
Lemma group_sum_rows kv k :
  rows_of cmp k (group_sum cmp init step kv)
  = match values_of cmp k kv with
    | [] => []
    | vs => [(k, fold_left step vs init)]
    end.
Proof.
  unfold group_sum.
  destruct (group_sum_from kv [] k I) as [_ H]. rewrite H. reflexivity.
Qed.

Lemma group_sum_ascending kv : ascending cmp (group_sum cmp init step kv).
Proof.
  unfold group_sum.
  destruct kv as [|[k0 v] kv]; [exact I|].
  apply (group_sum_from ((k0, v) :: kv) [] k0 I).
Qed.

End GroupSumFacts.

(** ** Integer columns *)

Lemma wrap64_small z : - 2 ^ 63 <= z < 2 ^ 63 -> wrap64 z = z.
Proof. intros H. unfold wrap64. rewrite Z.mod_small; lia. Qed.

Lemma wrap64_add_l a b : wrap64 (wrap64 a + b) = wrap64 (a + b).
Proof.
  unfold wrap64.
  replace ((a + 2 ^ 63) mod 2 ^ 64 - 2 ^ 63 + b + 2 ^ 63)
    with ((a + 2 ^ 63) mod 2 ^ 64 + b) by lia.
  rewrite Zplus_mod_idemp_l. f_equal. f_equal. lia.
Qed.

Lemma int64_sum_from vs :
  forall a, fold_left int64_add vs (wrap64 a) = wrap64 (a + zsum vs).
Proof.
  induction vs as [|v vs IH]; intros a; cbn [fold_left zsum fold_right].
  - rewrite Z.add_0_r. reflexivity.
  - unfold int64_add at 2. rewrite wrap64_add_l, IH. f_equal.
    unfold zsum. lia.
Qed.

(** The [int64] sum of a column is its sum, wrapped around. *)
Lemma int64_sum vs : fold_left int64_add vs 0 = wrap64 (zsum vs).
Proof. apply (int64_sum_from vs 0). Qed.

Lemma float64_of_int64_small z :
  Z.abs z <= 2 ^ 53 -> float64_of_int64 z = z.
Proof.
  intros H. unfold float64_of_int64.
  destruct (Z.eq_dec (Z.abs z) (2 ^ 53)) as [E|E].
  - assert (Hz : z = 2 ^ 53 \/ z = - 2 ^ 53) by lia.
    destruct Hz as [-> | ->]; vm_compute; reflexivity.
  - assert (Hlt : Z.abs z < 2 ^ 53) by lia.
    assert (Hl : Z.log2 (Z.abs z) - 52 <= 0).
    { destruct (Z.eq_dec (Z.abs z) 0) as [E0|E0]; [rewrite E0; simpl; lia|].
      assert (Z.log2 (Z.abs z) < 53); [|lia].
      apply Z.log2_lt_pow2; lia. }
    apply Z.leb_le in Hl. rewrite Hl. reflexivity.
Qed.

Lemma Z_compare_eq a b : (a ?= b) = Eq -> a = b.
Proof. apply Z.compare_eq. Qed.

Lemma Z_compare_lt_trans a b c :
  (a ?= b) = Lt -> (b ?= c) = Lt -> (a ?= c) = Lt.
Proof. rewrite !Z.compare_lt_iff. lia. Qed.

Lemma Z_compare_gt_lt a b : (a ?= b) = Gt -> (b ?= a) = Lt.
Proof. rewrite Z.compare_gt_iff, Z.compare_lt_iff. lia. Qed.

Lemma is_eq_Z_compare a b : is_eq (a ?= b) = (a =? b).
Proof.
  destruct (Z.compare_spec a b) as [E|E|E]; simpl; symmetry;
    [apply Z.eqb_eq; exact E|apply Z.eqb_neq; lia|apply Z.eqb_neq; lia].
Qed.

(** A left merge with the sums of an integer column: each left row gets
    the sum under its key, or nothing when no row has the key. *)
Lemma merge_left_sums {L} (lkey : L -> Z) (left : list L) kv :
  merge_left Z.eqb lkey fst left (group_sum Z.compare 0 int64_add kv)
  = map (fun l => (l, sum_under kv (lkey l))) left.
Proof.
  induction left as [|l left IH]; [reflexivity|].
  set (g := group_sum Z.compare 0 int64_add kv) in *.
  change (merge_left Z.eqb lkey fst (l :: left) g)
    with (match filter (fun r => lkey l =? fst r) g with
          | [] => [(l, None)]
          | ms => map (fun r => (l, Some r)) ms
          end ++ merge_left Z.eqb lkey fst left g).
  rewrite IH. clear IH. cbn [map].
  replace (filter (fun r => lkey l =? fst r) g) with (rows_of Z.compare (lkey l) g).
  - unfold g.
    rewrite (group_sum_rows Z.compare 0 int64_add Z_compare_eq Z.compare_refl
               Z_compare_lt_trans Z_compare_gt_lt).
    unfold sum_under.
    destruct (values_of Z.compare (lkey l) kv) as [|v vs] eqn:E; [reflexivity|].
    rewrite int64_sum. reflexivity.
  - unfold rows_of. apply filter_ext. intros r. apply is_eq_Z_compare.
Qed.

Lemma values_of_sales pid (f : ItemRow.t -> bool) items :
  values_of Z.compare pid
    (map (fun i => (ItemRow.product_id i, ItemRow.qty i)) (filter f items))
  = map ItemRow.qty
        (filter (fun i => (pid =? ItemRow.product_id i) && f i) items).
Proof.
  unfold values_of, rows_of.
  induction items as [|i items IH]; [reflexivity|].
  cbn [filter]. destruct (f i).
  - cbn [map filter fst]. rewrite is_eq_Z_compare, andb_true_r.
    destruct (pid =? ItemRow.product_id i); cbn [map snd]; rewrite IH; reflexivity.
  - rewrite andb_false_r. exact IH.
Qed.

(** ** Low stock *)

Lemma existsb_recent_ids store now oid :
  existsb (Z.eqb oid)
          (map Order.id
               (filter (fun o => now - 30 * day <=? Order.order_time o)
                       (orders store)))
  = recent_order store now oid.
Proof.
  unfold recent_order. generalize (orders store) as l.
  induction l as [|o l IH]; [reflexivity|]. cbn [filter existsb].
  destruct (now - 30 * day <=? Order.order_time o); cbn [map existsb].
  - rewrite IH, andb_true_r. reflexivity.
  - rewrite IH, andb_false_r. reflexivity.
Qed.

Lemma recent_order_none store now :
  filter (fun o => now - 30 * day <=? Order.order_time o) (orders store) = [] ->
  forall oid, recent_order store now oid = false.
Proof.
  intros H oid. rewrite <- existsb_recent_ids, H. reflexivity.
Qed.

Lemma existsb_filter_nil {A} (p : A -> bool) l :
  existsb p l = match filter p l with [] => false | _ => true end.
Proof.
  induction l as [|a l IH]; [reflexivity|]. cbn [filter existsb].
  destruct (p a); [reflexivity|exact IH].
Qed.

Lemma combine_map_same {A B} (f : A -> B) l :
  combine l (map f l) = map (fun x => (x, f x)) l.
Proof. induction l as [|a l IH]; simpl; [reflexivity|rewrite IH; reflexivity]. Qed.

(** The recent sales of a product, as the merge finds them. *)
Lemma recent_sales store now order_items pid :
  values_of Z.compare pid
    (map (fun i => (ItemRow.product_id i, ItemRow.qty i))
         (filter (fun i => recent_order store now (ItemRow.order_id i)) order_items))
  = map ItemRow.qty
        (filter (fun i => (pid =? ItemRow.product_id i)
                          && recent_order store now (ItemRow.order_id i))
                order_items).
Proof. apply values_of_sales. Qed.

(** C5.  [compute_low_stock] returns, in table order, one row for each
    product whose [stock_qty] is below the threshold and no other row, and
    the empty table when no product is below the threshold.  The row's
    [sold_last_30d] is the sum of [qty] over the order items of that
    product whose parent order has [order_time >= now - 30 days] (0 when
    there is none), as pandas computes it: the sum of the [int64] column
    wraps around, and the entries have been through [float64], so are
    rounded to 53 bits, when some listed product has no recent sale while
    some order is recent.  For sums of at most [2^53] units the entry is
    the sum itself. *)
Theorem low_stock_rows store now products order_items threshold :
  let res := compute_low_stock store now products order_items threshold in
  let low := filter (fun p => Product.stock_qty p <? threshold) products in
  let sold := sold_in_last_30d store now order_items in
  let entry := fun pid =>
    if sold_as_float store now low order_items
    then float64_of_int64 (wrap64 (sold pid))
    else wrap64 (sold pid) in
  res = map (fun p => LowRow.mk (Product.id p) (Product.name p)
                        (Product.stock_qty p) (entry (Product.id p))) low /\
  Forall (fun r => LowRow.stock_qty r < threshold) res /\
  ((forall p, In p low -> Z.abs (sold (Product.id p)) <= 2 ^ 53) ->
   Forall (fun r => LowRow.sold_last_30d r = sold (LowRow.id r)) res) /\
  ((forall p, In p products -> threshold <= Product.stock_qty p) -> res = []).
Proof.
  cbv zeta.
  remember (filter (fun p => Product.stock_qty p <? threshold) products)
    as low eqn:Hlow.
  set (sold := sold_in_last_30d store now order_items).
  set (entry := fun pid =>
         if sold_as_float store now low order_items
         then float64_of_int64 (wrap64 (sold pid))
         else wrap64 (sold pid)).
  assert (Heq :
    compute_low_stock store now products order_items threshold
    = map (fun p => LowRow.mk (Product.id p) (Product.name p)
                      (Product.stock_qty p) (entry (Product.id p))) low).
  { unfold compute_low_stock. rewrite <- Hlow.
    assert (Hcase : forall X : list LowRow.t,
               X = map (fun p => LowRow.mk (Product.id p) (Product.name p)
                                   (Product.stock_qty p) (entry (Product.id p))) low ->
               match low with [] => [] | _ :: _ => X end
               = map (fun p => LowRow.mk (Product.id p) (Product.name p)
                                 (Product.stock_qty p) (entry (Product.id p))) low).
    { intros X ->. destruct low; reflexivity. }
    apply Hcase. clear Hcase.
    destruct (filter (fun o => now - 30 * day <=? Order.order_time o) (orders store))
      as [|o0 rec] eqn:Erec.
    - apply map_ext. intros p. f_equal. unfold entry, sold_as_float.
      rewrite existsb_filter_nil, Erec. cbn [andb]. f_equal.
      unfold sold, sold_in_last_30d. rewrite filter_none; [reflexivity|].
      apply Forall_forall. intros i _.
      rewrite (recent_order_none store now Erec). apply andb_false_r.
    - rewrite <- Erec.
      rewrite (filter_ext _ (fun i => recent_order store now (ItemRow.order_id i)))
        by (intros i; apply existsb_recent_ids).
      rewrite merge_left_sums.
      set (kv := map (fun i => (ItemRow.product_id i, ItemRow.qty i))
                     (filter (fun i => recent_order store now (ItemRow.order_id i))
                             order_items)).
      assert (Hopt : forall p,
                 sum_under kv (Product.id p)
                 = (if sold_recently store now order_items (Product.id p)
                    then Some (Product.id p, wrap64 (sold (Product.id p)))
                    else None) /\
                 (sold_recently store now order_items (Product.id p) = false ->
                  sold (Product.id p) = 0)).
      { intros p. unfold sum_under, kv, sold, sold_in_last_30d, sold_recently.
        rewrite recent_sales, existsb_filter_nil.
        destruct (filter (fun i => (Product.id p =? ItemRow.product_id i)
                                   && recent_order store now (ItemRow.order_id i))
                         order_items); [auto|]. split; [reflexivity|discriminate]. }
      assert (Hfloat : sold_as_float store now low order_items
                       = negb (forallb (fun r : Product.t * option (Z * Z) =>
                                          match snd r with Some _ => true | None => false end)
                                       (map (fun l => (l, sum_under kv (Product.id l))) low))).
      { unfold sold_as_float. rewrite existsb_filter_nil, Erec. cbn [andb].
        generalize low as l. induction l as [|p l IH]; [reflexivity|].
        cbn [existsb map forallb snd]. rewrite IH. rewrite (proj1 (Hopt p)).
        destruct (sold_recently store now order_items (Product.id p)); reflexivity. }
      unfold merged_qty.
      destruct (forallb _ (map (fun l => (l, sum_under kv (Product.id l))) low)) eqn:Eall;
        rewrite combine_map_same, !map_map; apply map_ext; intros p;
        cbn [fst snd]; f_equal; unfold entry; rewrite Hfloat; cbn [negb];
        destruct (Hopt p) as [Ho Hz]; rewrite Ho;
        destruct (sold_recently store now order_items (Product.id p));
        cbn [fillna0]; try reflexivity; rewrite (Hz eq_refl); reflexivity. }
  rewrite Heq. split; [reflexivity|]. split; [|split].
  - apply Forall_map, Forall_forall. intros p Hp. cbn [LowRow.stock_qty].
    rewrite Hlow in Hp.
    apply filter_In in Hp. destruct Hp as [_ Hp]. apply Z.ltb_lt. exact Hp.
  - intros Hb. apply Forall_map, Forall_forall. intros p Hp.
    cbn [LowRow.sold_last_30d LowRow.id]. specialize (Hb p Hp).
    assert (Hw : wrap64 (sold (Product.id p)) = sold (Product.id p)).
    { apply wrap64_small. assert (2 ^ 53 < 2 ^ 63) by (vm_compute; reflexivity). lia. }
    unfold entry. destruct (sold_as_float store now low order_items);
      rewrite Hw; [|reflexivity].
    apply float64_of_int64_small. exact Hb.
  - intros Hall. rewrite Hlow, filter_none; [reflexivity|].
    apply Forall_forall. intros p Hp. apply Z.ltb_ge. apply Hall. exact Hp.
Qed.

(** A listed product sold [2^53 + 1] units stands beside a listed product
    without a recent sale: the merge makes the column [float64], which has
    no room for the last unit.  Without the second product the column
    stays [int64] and holds the sum. *)
Example low_stock_large_count :
  let store := mkdb [] [Order.mk 1 0 "Walk-in" 0] [] 0 1 0 in
  let sugar := Product.mk 1 "Sugar 1kg" 40 50 0 in
  let salt := Product.mk 2 "Salt 1kg" 12 20 0 in
  let sale := ItemRow.mk 1 1 1 (2 ^ 53 + 1) 50 "Sugar 1kg" 40 in
  map LowRow.sold_last_30d (compute_low_stock store 0 [sugar; salt] [sale] 2)
  = [2 ^ 53; 0] /\
  map LowRow.sold_last_30d (compute_low_stock store 0 [sugar] [sale] 2)
  = [2 ^ 53 + 1].
Proof. vm_compute. split; reflexivity. Qed.

(** ** What the reports depend on *)

(** C6, as the spec states it, fails.  With the same [products] and
    [order_items] arguments [compute_low_stock] gives different results on
    two states of the store (the seeded one, in which product 8 was sold
    once, and the fresh one); and [compute_customers_per_hour] changes the
    frame it is given. *)
Lemma reports_not_pure :
  compute_low_stock (seeded_db 0) 0
    (products (seeded_db 0)) (join_items (seeded_db 0)) 2
  <> compute_low_stock empty_db 0
       (products (seeded_db 0)) (join_items (seeded_db 0)) 2 /\
  fst (compute_customers_per_hour two_orders) <> two_orders.
Proof. split; vm_compute; discriminate. Qed.

Lemma replace_nth_last {A} (l : list A) x y :
  replace_nth (List.length l) y (l ++ [x]) = l ++ [y].
Proof. induction l as [|a l IH]; simpl; [reflexivity|rewrite IH; reflexivity]. Qed.

Lemma nth_error_last {A} (l : list A) x :
  nth_error (l ++ [x]) (List.length l) = Some x.
Proof. induction l as [|a l IH]; simpl; [reflexivity|exact IH]. Qed.

Lemma nth_error_replace_other {A} (l : list A) n m x :
  m <> n -> nth_error (replace_nth n x l) m = nth_error l m.
Proof.
  revert n m. induction l as [|a l IH]; intros [|n] [|m] H; simpl;
    try reflexivity; try congruence.
  apply IH. congruence.
Qed.

Lemma length_lt_last {A} (l : list A) x :
  (List.length l <? List.length (l ++ [x]))%nat = true.
Proof. apply Nat.ltb_lt. rewrite length_app. simpl. lia. Qed.

Lemma low_rows_merged {L} (m : list (Product.t * L)) (col : list Z) :
  low_rows (map fst m) col
  = map (fun r => LowRow.mk (Product.id (fst (fst r))) (Product.name (fst (fst r)))
                    (Product.stock_qty (fst (fst r))) (snd r))
        (combine m col).
Proof.
  unfold low_rows. revert col.
  induction m as [|x m IH]; intros [|c col]; try reflexivity.
  cbn [map combine fst snd]. f_equal. apply IH.
Qed.

Lemma low_rows_zero (below : list Product.t) :
  low_rows below (map (fun _ => 0) below)
  = map (fun p => LowRow.mk (Product.id p) (Product.name p)
                    (Product.stock_qty p) 0) below.
Proof.
  unfold low_rows. induction below as [|p l IH]; [reflexivity|].
  cbn [map combine fst snd]. f_equal. exact IH.
Qed.

(** [compute_best_selling] only reads its argument. *)
Lemma best_selling_on_run ties w r rows profit :
  nth_error (heap w) r = Some (ItemsDf rows profit) ->
  best_selling_on ties r w = Some (compute_best_selling ties rows, w).
Proof.
  intros H. unfold best_selling_on, bind_P, frame_at. rewrite H. reflexivity.
Qed.

(** [compute_top_profit_products] writes its [profit] column into a copy. *)
Lemma top_profit_on_run ties w r rows profit :
  nth_error (heap w) r = Some (ItemsDf rows profit) ->
  top_profit_on ties r w
  = Some (compute_top_profit_products ties rows,
          match rows with
          | [] => w
          | _ => mkworld (heap w ++ [ItemsDf rows (Some (profit_column rows))])
                         (shop w) (clock w)
          end).
Proof.
  intros H. unfold top_profit_on, bind_P, frame_at at 1. rewrite H.
  destruct rows as [|i rows]; [reflexivity|].
  unfold new_frame, frame_at, set_frame. cbn [heap shop clock].
  rewrite nth_error_last. cbv beta iota. cbn [heap shop clock].
  rewrite length_lt_last, replace_nth_last. cbn [heap shop clock].
  rewrite nth_error_last. reflexivity.
Qed.

Lemma customers_per_hour_on_run w r df :
  nth_error (heap w) r = Some (OrdersDf df) ->
  customers_per_hour_on r w
  = Some (snd (compute_customers_per_hour df),
          mkworld (replace_nth r (OrdersDf (fst (compute_customers_per_hour df)))
                               (heap w))
                  (shop w) (clock w)).
Proof.
  intros H. unfold customers_per_hour_on, bind_P, frame_at. rewrite H.
  destruct (compute_customers_per_hour df) as [df' per_hour].
  unfold set_frame.
  assert (Hr : (r <? List.length (heap w))%nat = true).
  { apply Nat.ltb_lt. apply nth_error_Some. congruence. }
  rewrite Hr. reflexivity.
Qed.

Lemma low_stock_on_run w pr ir rows sold items profit threshold :
  nth_error (heap w) pr = Some (ProductsDf rows sold) ->
  nth_error (heap w) ir = Some (ItemsDf items profit) ->
  exists objs,
    low_stock_on pr ir threshold w
    = Some (compute_low_stock (shop w) (clock w) rows items threshold,
            mkworld (heap w ++ objs) (shop w) (clock w)).
Proof.
  intros Hp Hi. unfold low_stock_on, compute_low_stock, bind_P, frame_at at 1.
  rewrite Hp. unfold new_frame. cbn [heap shop clock].
  set (below := filter (fun p => Product.stock_qty p <? threshold) rows).
  destruct below as [|p0 below'] eqn:Eb.
  { eexists. reflexivity. }
  rewrite <- Eb. unfold datetime_now, frame_at at 1. cbn [heap shop clock].
  rewrite nth_error_app1 by (apply nth_error_Some; congruence).
  rewrite Hi. unfold read_sql_orders. cbn [heap shop clock].
  destruct (filter (fun o => clock w - 30 * day <=? Order.order_time o)
                   (orders (shop w))) as [|o0 recent] eqn:Er.
  - unfold set_frame, frame_at. cbn [heap shop clock].
    rewrite length_lt_last, replace_nth_last. cbn [heap shop clock].
    rewrite nth_error_last, low_rows_zero.
    rewrite Eb. eexists. reflexivity.
  - rewrite <- Er. unfold frame_at. cbn [heap shop clock].
    rewrite nth_error_last, low_rows_merged.
    rewrite Eb, <- app_assoc. eexists. reflexivity.
Qed.

Lemma same_objects_appended w objs :
  same_objects w (mkworld (heap w ++ objs) (shop w) (clock w)).
Proof.
  intros r g H. cbn [heap]. rewrite nth_error_app1; [exact H|].
  apply nth_error_Some. congruence.
Qed.

Lemma same_objects_refl w : same_objects w w.
Proof. intros r g H. exact H. Qed.

(** C6, amended.  The reports run on frames held by reference, in a
    world with other objects, the file [shop.db] and the clock.
    [compute_best_selling] and [compute_top_profit_products], called on
    an order-items frame, return what the contents of that frame
    determine, whatever else the world holds, and leave every object that
    was there, the file and the clock as they were (the [profit] column
    goes into a copy).  [compute_low_stock] leaves every object, the file
    and the clock as they were as well; its result is determined by the
    contents of its two frames, the clock and the file, and of the file
    by the [orders] table only.  [compute_customers_per_hour] returns what
    the rows of the orders frame determine, whatever else the world holds,
    and leaves the file, the clock and every object other than that frame
    as they were. *)
Theorem reports_dependencies :
  (forall ties w r rows profit,
      nth_error (heap w) r = Some (ItemsDf rows profit) ->
      exists w',
        best_selling_on ties r w = Some (compute_best_selling ties rows, w') /\
        same_objects w w' /\ same_outside w w') /\
  (forall ties w r rows profit,
      nth_error (heap w) r = Some (ItemsDf rows profit) ->
      exists w',
        top_profit_on ties r w
        = Some (compute_top_profit_products ties rows, w') /\
        same_objects w w' /\ same_outside w w') /\
  (forall w pr ir rows sold items profit threshold,
      nth_error (heap w) pr = Some (ProductsDf rows sold) ->
      nth_error (heap w) ir = Some (ItemsDf items profit) ->
      exists w',
        low_stock_on pr ir threshold w
        = Some (compute_low_stock (shop w) (clock w) rows items threshold, w') /\
        same_objects w w' /\ same_outside w w') /\
  (forall st1 st2 now products order_items threshold,
      orders st1 = orders st2 ->
      compute_low_stock st1 now products order_items threshold
      = compute_low_stock st2 now products order_items threshold) /\
  (forall w r rows hour,
      nth_error (heap w) r = Some (OrdersDf (OrdersFrame.mk rows hour)) ->
      exists w',
        customers_per_hour_on r w
        = Some (snd (compute_customers_per_hour (OrdersFrame.mk rows None)), w') /\
        same_objects_but r w w' /\ same_outside w w').
Proof.
  split; [|split; [|split; [|split]]].
  - intros ties w r rows profit H. exists w.
    split; [exact (best_selling_on_run ties w r rows profit H)|].
    split; [apply same_objects_refl|split; reflexivity].
  - intros ties w r rows profit H. eexists.
    split; [exact (top_profit_on_run ties w r rows profit H)|].
    destruct rows as [|i rows].
    + split; [apply same_objects_refl|split; reflexivity].
    + split; [apply same_objects_appended|split; reflexivity].
  - intros w pr ir rows sold items profit threshold Hp Hi.
    destruct (low_stock_on_run w pr ir rows sold items profit threshold Hp Hi)
      as (objs & Hrun).
    eexists. split; [exact Hrun|].
    split; [apply same_objects_appended|split; reflexivity].
  - intros st1 st2 now products order_items threshold Ho.
    unfold compute_low_stock. rewrite Ho. reflexivity.
  - intros w r rows hour H. eexists. split.
    + rewrite (customers_per_hour_on_run w r _ H). f_equal. f_equal.
      unfold compute_customers_per_hour. cbn [OrdersFrame.rows].
      destruct rows; reflexivity.
    + split; [|split; reflexivity].
      intros a f Ha Hf. cbn [heap].
      rewrite nth_error_replace_other; assumption.
Qed.

Lemma reports_dependencies_witness :
  exists w',
    top_profit_on id 2 seeded_world
    = Some (compute_top_profit_products id (join_items (seeded_db 0)), w') /\
    same_objects seeded_world w' /\ same_outside seeded_world w'.
Proof.
  exact (proj1 (proj2 reports_dependencies) id seeded_world 2%nat
           (join_items (seeded_db 0)) None eq_refl).
Defined.

(** ** Stock after the lines of an order *)

Lemma set_stock_fields f pid p :
  Product.id (set_stock f pid p) = Product.id p /\
  Product.name (set_stock f pid p) = Product.name p /\
  Product.cost_price (set_stock f pid p) = Product.cost_price p /\
  Product.selling_price (set_stock f pid p) = Product.selling_price p.
Proof. unfold set_stock. destruct (Product.id p =? pid); auto. Qed.

Lemma set_stock_other f pid p : Product.id p <> pid -> set_stock f pid p = p.
Proof.
  intros H. unfold set_stock. apply Z.eqb_neq in H. rewrite H. reflexivity.
Qed.

Lemma price_of_none P pid :
  price_of P pid = None -> Forall (fun p => Product.id p <> pid) P.
Proof.
  unfold price_of. induction P as [|p P IH]; simpl; [constructor|].
  destruct (Product.id p =? pid) eqn:E; [discriminate|].
  intros H. constructor; [apply Z.eqb_neq; exact E|apply IH; exact H].
Qed.

Lemma set_stock_missing f pid P :
  price_of P pid = None -> map (set_stock f pid) P = P.
Proof.
  intros H. apply price_of_none in H. induction H as [|p P Hp _ IH]; simpl;
    [reflexivity|].
  rewrite IH, set_stock_other by exact Hp. reflexivity.
Qed.

Lemma deduct_lines_fields lines p :
  Product.id (deduct_lines lines p) = Product.id p /\
  Product.name (deduct_lines lines p) = Product.name p /\
  Product.cost_price (deduct_lines lines p) = Product.cost_price p /\
  Product.selling_price (deduct_lines lines p) = Product.selling_price p.
Proof.
  revert p. unfold deduct_lines.
  induction lines as [|[pid qty] lines IH]; intros p; cbn [fold_left fst snd];
    [auto|].
  destruct (IH (set_stock (fun s => deduct s qty) pid p)) as (H1 & H2 & H3 & H4).
  destruct (set_stock_fields (fun s => deduct s qty) pid p) as (G1 & G2 & G3 & G4).
  rewrite H1, H2, H3, H4. auto.
Qed.

Lemma deduct_lines_cons pid qty lines P :
  map (deduct_lines lines) (map (set_stock (fun s => deduct s qty) pid) P)
  = map (deduct_lines ((pid, qty) :: lines)) P.
Proof. rewrite map_map. reflexivity. Qed.

Lemma finalize_lines_products oid items :
  forall c u c',
    forM_ items (finalize_line oid) c = (Ok u, c') ->
    products (pending c') = map (deduct_lines items) (products (pending c)).
Proof.
  induction items as [|[pid qty] items IH]; intros c u c' H; simpl in H.
  - inversion H; subst. symmetry. apply map_id.
  - bind_ok_inv H a c1 E1. apply finalize_line_ok in E1.
    destruct E1 as (_ & price & _ & Hp1).
    apply IH in H. rewrite H, Hp1. apply deduct_lines_cons.
Qed.

Lemma seed_lines_products oid lines :
  forall acc c total c',
    foldM (seed_line oid) acc lines c = (Ok total, c') ->
    products (pending c') = map (deduct_lines lines) (products (pending c)).
Proof.
  induction lines as [|[pid qty] lines IH]; intros acc c total c' H; simpl in H.
  - inversion H; subst. symmetry. apply map_id.
  - bind_ok_inv H a c1 E1. apply seed_line_ok in E1. destruct E1 as [_ E1].
    apply IH in H. rewrite H.
    destruct (price_of (products (pending c)) pid) as [price|] eqn:Ep.
    + destruct E1 as [Hp1 _]. rewrite Hp1. apply deduct_lines_cons.
    + destruct E1 as [Hp1 _]. rewrite Hp1.
      rewrite <- deduct_lines_cons, set_stock_missing by exact Ep. reflexivity.
Qed.

Lemma seed_order_products cust otime lines c u c' :
  seed_order (cust, otime, lines) c = (Ok u, c') ->
  products (pending c') = map (deduct_lines lines) (products (pending c)).
Proof.
  unfold seed_order. intros H.
  bind_ok_inv H oid c1 E1. bind_ok_inv H total c2 E2.
  apply execute_ok_inv in E1, H. destruct E1 as [E1 _], H as [E3 _].
  apply seed_lines_products in E2.
  apply (f_equal snd) in E1, E3. simpl in E1, E3.
  rewrite <- E3. simpl. rewrite E2, <- E1. reflexivity.
Qed.

(** ** Keys, references and totals in every reachable store *)

Lemma fresh_keys_snoc seq ids :
  fresh_keys seq ids -> fresh_keys (seq + 1) (ids ++ [seq + 1]).
Proof.
  intros [Hle Hnd]. split.
  - apply Forall_app. split; [|repeat constructor; lia].
    eapply Forall_impl; [|exact Hle]. simpl. intros; lia.
  - apply NoDup_app; [exact Hnd|repeat constructor; simpl; tauto|].
    intros a Ha [<-|[]]. rewrite Forall_forall in Hle. specialize (Hle _ Ha). lia.
Qed.

Lemma fresh_keys_rows P oid lines :
  forall next ids,
    fresh_keys next ids ->
    fresh_keys (next + Z.of_nat (List.length (item_rows P oid next lines)))
               (ids ++ map OrderItem.id (item_rows P oid next lines)).
Proof.
  induction lines as [|[pid qty] lines IH]; intros next ids H; simpl.
  - rewrite app_nil_r, Z.add_0_r. exact H.
  - destruct (price_of P pid) as [price|]; [|apply IH; exact H].
    cbn [List.length map OrderItem.id].
    specialize (IH (next + 1) (ids ++ [next + 1]) (fresh_keys_snoc _ _ H)).
    rewrite <- app_assoc in IH. simpl in IH.
    replace (next + Z.of_nat (S (List.length (item_rows P oid (next + 1) lines))))
      with (next + 1 + Z.of_nat (List.length (item_rows P oid (next + 1) lines)))
      by lia.
    exact IH.
Qed.

Lemma price_of_some_in P pid price :
  price_of P pid = Some price -> In pid (map Product.id P).
Proof.
  unfold price_of. induction P as [|p P IH]; simpl; [discriminate|].
  destruct (Product.id p =? pid) eqn:E.
  - intros _. left. apply Z.eqb_eq. exact E.
  - intros H. right. apply IH. exact H.
Qed.

Lemma price_of_app_some P Q pid price :
  price_of P pid = Some price -> price_of (P ++ Q) pid = Some price.
Proof.
  unfold price_of. induction P as [|p P IH]; simpl; [discriminate|].
  destruct (Product.id p =? pid); [auto|exact IH].
Qed.

Lemma linked_empty_db : linked empty_db.
Proof.
  unfold linked, keys_ok, refs_ok, priced, totalled, fresh_keys. simpl.
  repeat split; constructor.
Qed.

(** A store without order items is [totalled]. *)
Lemma totalled_no_items d : order_items d = [] -> totalled d.
Proof.
  intros H. unfold totalled, items_of. rewrite H.
  apply Forall_forall. intros o _. left. reflexivity.
Qed.

(** The [DELETE] statements, in the order of the script: the items go
    first, so no statement leaves an item without its order or product. *)
Lemma linked_delete_script k d :
  linked d -> linked (apply_script (firstn k delete_script) d).
Proof.
  intros ((Kp & Ko & Ki) & R & P & T).
  assert (Hnil : forall seq, fresh_keys seq []).
  { intros seq. split; constructor. }
  destruct k as [|[|[|k]]];
    [exact (conj (conj Kp (conj Ko Ki)) (conj R (conj P T)))| | |];
    unfold delete_script; cbn [firstn]; try rewrite firstn_nil;
    unfold linked, keys_ok, refs_ok, priced; simpl.
  - split; [split; [exact Kp|split; [exact Ko|apply Hnil]]|].
    split; [constructor|]. split; [constructor|].
    apply totalled_no_items. reflexivity.
  - split; [split; [exact Kp|split; apply Hnil]|].
    split; [constructor|]. split; [constructor|].
    apply totalled_no_items. reflexivity.
  - split; [split; [apply Hnil|split; apply Hnil]|].
    split; [constructor|]. split; [constructor|].
    apply totalled_no_items. reflexivity.
Qed.

Lemma linked_insert_product name cost sell stock d :
  linked d -> linked (snd (insert_product name cost sell stock d)).
Proof.
  intros ((Kp & Ko & Ki) & R & P & T).
  unfold linked, keys_ok, refs_ok, priced. simpl.
  rewrite map_app. simpl.
  split; [|split; [exact R|split; [|exact T]]].
  - split; [apply fresh_keys_snoc; exact Kp|]. split; assumption.
  - eapply Forall_impl; [|exact P]. intros i Hi. simpl in Hi.
    apply price_of_app_some. exact Hi.
Qed.

Lemma linked_insert_all prods d :
  linked d -> linked (insert_all prods d).
Proof.
  revert d. unfold insert_all.
  induction prods as [|[[[name cost] sell] stock] prods IH]; intros d H;
    cbn [fold_left]; [exact H|].
  apply IH, linked_insert_product, H.
Qed.

Lemma map_id_set_stock f pid P :
  map Product.id (map (set_stock f pid) P) = map Product.id P.
Proof.
  rewrite map_map. apply map_ext. intros p.
  apply (proj1 (set_stock_fields f pid p)).
Qed.

Lemma linked_set_stock f pid d :
  linked d -> linked (update_products (set_stock f pid) d).
Proof.
  intros ((Kp & Ko & Ki) & R & P & T).
  unfold linked, keys_ok, refs_ok, priced, update_products. simpl.
  rewrite map_id_set_stock.
  split; [|split; [exact R|split; [|exact T]]].
  - split; [exact Kp|]. split; assumption.
  - eapply Forall_impl; [|exact P]. intros i Hi. simpl in Hi.
    rewrite price_of_set_stock. exact Hi.
Qed.

Lemma map_id_set_total total oid l :
  map Order.id (map (set_total total oid) l) = map Order.id l.
Proof.
  rewrite map_map. apply map_ext. intros o. unfold set_total.
  destruct (Order.id o =? oid); reflexivity.
Qed.

Lemma filter_none_other oid oid' (rows : list OrderItem.t) :
  oid <> oid' ->
  Forall (fun i => OrderItem.order_id i = oid) rows ->
  filter (fun i => OrderItem.order_id i =? oid') rows = [].
Proof.
  intros Hne H. apply filter_none. eapply Forall_impl; [|exact H].
  intros i Hi. cbn beta in Hi. apply Z.eqb_neq. congruence.
Qed.

Lemma filter_all_own oid (rows : list OrderItem.t) :
  Forall (fun i => OrderItem.order_id i = oid) rows ->
  filter (fun i => OrderItem.order_id i =? oid) rows = rows.
Proof.
  induction 1 as [|i rows Hi _ IH]; [reflexivity|].
  cbn [filter]. rewrite IH. apply Z.eqb_eq in Hi. rewrite Hi. reflexivity.
Qed.

(** One more order with the rows of its lines, written by the loader or
    by a finalize: the total it carries is a sum over these rows. *)
Lemma linked_order_added lines d d' o :
  let rows := item_rows (products d) (seq_orders d + 1) (seq_order_items d)
                        lines in
  orders d' = orders d ++ [o] ->
  Order.id o = seq_orders d + 1 ->
  Order.total_amount o = line_sum rows \/ Order.total_amount o = bill_total rows ->
  order_items d'
  = order_items d
    ++ item_rows (products d) (seq_orders d + 1) (seq_order_items d) lines ->
  seq_orders d' = seq_orders d + 1 ->
  seq_order_items d'
  = seq_order_items d
    + Z.of_nat (List.length (item_rows (products d) (seq_orders d + 1)
                               (seq_order_items d) lines)) ->
  seq_products d' = seq_products d ->
  (forall pid, price_of (products d') pid = price_of (products d) pid) ->
  map Product.id (products d') = map Product.id (products d) ->
  linked d -> linked d'.
Proof.
  intros rows Ho Hid Htot Hi Hso Hsi Hsp Hpr Hids ((Kp & Ko & Ki) & R & P & T).
  fold rows in Hi, Hsi.
  assert (Hown : Forall (fun i => OrderItem.order_id i = seq_orders d + 1) rows).
  { apply Forall_forall. intros i. apply item_rows_order_id. }
  assert (Hold : Forall (fun i => OrderItem.order_id i <= seq_orders d)
                        (order_items d)).
  { eapply Forall_impl; [|exact R]. intros i Hin. cbn beta in Hin.
    destruct Ko as [Hle _]. rewrite Forall_forall in Hle. apply Hle. exact Hin. }
  split; [|split; [|split]].
  - unfold keys_ok. rewrite Hids, Hsp, Ho, Hi, Hso, Hsi, !map_app.
    cbn [map]. rewrite Hid.
    split; [exact Kp|]. split; [apply fresh_keys_snoc; exact Ko|].
    apply fresh_keys_rows. exact Ki.
  - unfold refs_ok. rewrite Ho, Hi, map_app. cbn [map]. rewrite Hid.
    apply Forall_app. split.
    + eapply Forall_impl; [|exact R]. intros i Hin. simpl in Hin.
      apply in_or_app. left. exact Hin.
    + apply Forall_forall. intros i Hin. apply item_rows_order_id in Hin.
      rewrite Hin. apply in_or_app. right. left. reflexivity.
  - unfold priced. rewrite Hi. apply Forall_app. split.
    + eapply Forall_impl; [|exact P]. intros i Hp. simpl in Hp.
      rewrite Hpr. exact Hp.
    + eapply Forall_impl; [|apply item_rows_priced]. intros i Hp. simpl in Hp.
      rewrite Hpr. exact Hp.
  - unfold totalled, items_of. rewrite Ho, Hi. apply Forall_app. split.
    + apply Forall_forall. intros o' Ho'.
      assert (Hlt : Order.id o' <= seq_orders d).
      { destruct Ko as [Hle _]. rewrite Forall_forall in Hle. apply Hle.
        apply in_map. exact Ho'. }
      rewrite filter_app,
        (filter_none_other (seq_orders d + 1) (Order.id o') rows), app_nil_r;
        [|lia|exact Hown].
      unfold totalled, items_of in T. rewrite Forall_forall in T.
      apply T. exact Ho'.
    + constructor; [|constructor]. rewrite Hid, filter_app.
      rewrite (filter_all_own _ rows Hown).
      replace (filter (fun i => OrderItem.order_id i =? seq_orders d + 1)
                      (order_items d)) with (@nil OrderItem.t).
      * right. exact Htot.
      * symmetry. apply filter_none. eapply Forall_impl; [|exact Hold].
        intros i Hle. cbn beta in Hle. apply Z.eqb_neq. lia.
Qed.

Lemma set_total_others total oid l :
  Forall (fun o => Order.id o <> oid) l -> map (set_total total oid) l = l.
Proof.
  induction 1 as [|o l Ho _ IH]; [reflexivity|].
  cbn [map]. rewrite IH. unfold set_total.
  apply Z.eqb_neq in Ho. rewrite Ho. reflexivity.
Qed.

Lemma map_id_deduct_lines lines P :
  map Product.id (map (deduct_lines lines) P) = map Product.id P.
Proof.
  rewrite map_map. apply map_ext. intros p.
  apply (proj1 (deduct_lines_fields lines p)).
Qed.

Lemma order_seeded_linked cust otime lines d d' :
  order_seeded cust otime lines d d' ->
  map Product.id (products d') = map Product.id (products d) ->
  linked d -> linked d'.
Proof.
  intros (Ho & Hi & Hso & Hsi & Hsp & Hpr) Hids Hl.
  set (rows := item_rows (products d) (seq_orders d + 1) (seq_order_items d)
                         lines) in *.
  apply (linked_order_added lines d d'
           (Order.mk (seq_orders d + 1) otime cust (line_sum rows)));
    try assumption; [|reflexivity|left; reflexivity].
  rewrite Ho, map_app. cbn [map]. unfold set_total at 2. cbn [Order.id].
  rewrite Z.eqb_refl. f_equal. apply set_total_others.
  destruct Hl as ((_ & (Hle & _) & _) & _).
  rewrite Forall_map in Hle. eapply Forall_impl; [|exact Hle].
  intros o Ho'. cbn beta in Ho'. lia.
Qed.

Lemma seed_orders_linked samples :
  forall c u c',
    forM_ samples seed_order c = (Ok u, c') ->
    linked (pending c) -> linked (pending c').
Proof.
  induction samples as [|[[cust otime] lines] samples IH]; intros c u c' H Hc;
    simpl in H.
  - inversion H; subst. exact Hc.
  - bind_ok_inv H u1 c1 E1. eapply IH; [exact H|].
    pose proof (seed_order_products _ _ _ _ _ _ E1) as Hp.
    apply seed_order_ok in E1. destruct E1 as [_ Hs].
    eapply order_seeded_linked; [exact Hs| |exact Hc].
    rewrite Hp. apply map_id_deduct_lines.
Qed.

Lemma executescript_inv script c r c' :
  executescript script c = (r, c') ->
  pending c' = committed c' /\
  (exists k, committed c' = apply_script (firstn k script) (pending c)) /\
  (r = Raise OperationalError \/
   (r = Ok tt /\ committed c' = apply_script script (pending c))).
Proof.
  unfold executescript.
  destruct (run_script script (pending c) (faults c)) as [[r0 d0] rest] eqn:E.
  intros H; inversion H; subst. apply run_script_inv in E. simpl. tauto.
Qed.

Lemma commit_inv c r c' :
  commit c = (r, c') ->
  (r = Raise OperationalError /\ committed c' = committed c /\ pending c' = pending c) \/
  (r = Ok tt /\ committed c' = pending c /\ pending c' = pending c).
Proof.
  unfold commit. destruct (next_fault c) as [[] rest];
    intros H; inversion H; subst; simpl; auto.
Qed.

Lemma query_inv {A} (q : db -> A) c r c' :
  execute (fun d => (q d, d)) c = (r, c') ->
  committed c' = committed c /\ pending c' = pending c /\
  (forall a, r = Ok a -> a = q (pending c)).
Proof.
  unfold execute. destruct (next_fault c) as [[] rest];
    intros H; inversion H; subst; simpl;
    (split; [reflexivity|split; [reflexivity|]]); intros a Ha;
    [discriminate|inversion Ha; reflexivity].
Qed.

Lemma load_tables_inv c r c' :
  load_tables c = (r, c') ->
  committed c' = committed c /\ pending c' = pending c /\
  (forall t, r = Ok t ->
             t = (products (pending c), OrdersFrame.mk (orders (pending c)) None,
                  join_items (pending c))).
Proof.
  unfold load_tables. intros H.
  apply bind_inv in H. destruct H as [(e & H & ->)|(p & c1 & E1 & H)].
  { apply query_inv in H. destruct H as (Hc & Hp & _).
    repeat split; auto; discriminate. }
  apply query_inv in E1. destruct E1 as (Hc1 & Hp1 & Ha1).
  specialize (Ha1 p eq_refl).
  apply bind_inv in H. destruct H as [(e & H & ->)|(o & c2 & E2 & H)].
  { apply query_inv in H. destruct H as (Hc & Hp & _).
    repeat split; try congruence; discriminate. }
  apply query_inv in E2. destruct E2 as (Hc2 & Hp2 & Ha2).
  specialize (Ha2 o eq_refl).
  apply bind_inv in H. destruct H as [(e & H & ->)|(i & c3 & E3 & H)].
  { apply query_inv in H. destruct H as (Hc & Hp & _).
    repeat split; try congruence; discriminate. }
  apply query_inv in E3. destruct E3 as (Hc3 & Hp3 & Ha3).
  specialize (Ha3 i eq_refl).
  inversion H; subst r c'.
  split; [congruence|]. split; [congruence|].
  intros t Ht. inversion Ht. subst. rewrite Hp2, Hp1. reflexivity.
Qed.

Lemma keeps_committed_seed_order o d0 :
  keeps (fun c => committed c = d0) (seed_order o).
Proof.
  destruct o as [[cust otime] items]. unfold seed_order.
  apply keeps_bind; [apply keeps_execute_committed|]. intros oid.
  apply keeps_bind; [|intros; apply keeps_execute_committed].
  apply keeps_foldM. intros acc [pid qty]. unfold seed_line.
  apply keeps_bind; [apply keeps_execute_committed|].
  intros [price|]; [|apply keeps_ret].
  apply keeps_bind; [apply keeps_execute_committed|]. intros _.
  apply keeps_bind; [apply keeps_execute_committed|]. intros; apply keeps_ret.
Qed.

(** A run of the loader's seeding part publishes what it found with some
    of the [DELETE]s applied, the products alone, or everything. *)
Lemma seed_with_linked prods samples c r c' :
  seed_with prods samples c = (r, c') ->
  linked (pending c) ->
  linked (committed c') /\ (r = Ok tt -> pending c' = committed c').
Proof.
  unfold seed_with. intros H Hc.
  apply bind_inv in H. destruct H as [(e & H & ->)|(u1 & c1 & E1 & H)].
  { apply executescript_inv in H. destruct H as (_ & [k Hk] & _).
    rewrite Hk. split; [apply linked_delete_script; exact Hc|discriminate]. }
  apply executescript_inv in E1.
  destruct E1 as (Hp1 & _ & [Hr|[_ Hc1]]); [discriminate|].
  rewrite apply_delete_script in Hc1. rewrite Hc1 in Hp1.
  assert (Hd : linked (delete_all (pending c))).
  { apply (linked_delete_script 3 (pending c) Hc). }
  apply bind_inv in H. destruct H as [(e & H & ->)|(u2 & c2 & E2 & H)].
  { apply commit_inv in H. destruct H as [(_ & Hco & _)|(Hr & _)];
      [|discriminate]. rewrite Hco, Hc1. split; [exact Hd|discriminate]. }
  apply commit_inv in E2. destruct E2 as [(Hr & _)|(_ & Hc2 & Hp2)];
    [discriminate|]. rewrite Hp1 in Hc2, Hp2.
  apply bind_inv in H. destruct H as [(e & H & ->)|(u3 & c3 & E3 & H)].
  { split; [|discriminate].
    replace (committed c') with (delete_all (pending c)); [exact Hd|].
    symmetry. revert H. apply (keeps_forM (fun c => committed c = _)); [|exact Hc2].
    intros [[[n co] se] st]. apply keeps_execute_committed. }
  apply insert_all_ok in E3. destruct E3 as [Hc3 Hp3]. rewrite Hc2 in Hc3.
  rewrite Hp2 in Hp3. fold (restocked prods (pending c)) in Hp3.
  assert (Hr : linked (restocked prods (pending c))).
  { apply linked_insert_all. exact Hd. }
  apply bind_inv in H. destruct H as [(e & H & ->)|(u4 & c4 & E4 & H)].
  { apply commit_inv in H. destruct H as [(_ & Hco & _)|(Hr' & _)];
      [|discriminate]. rewrite Hco, Hc3. split; [exact Hd|discriminate]. }
  apply commit_inv in E4. destruct E4 as [(Hr' & _)|(_ & Hc4 & Hp4)];
    [discriminate|]. rewrite Hp3 in Hc4, Hp4.
  apply bind_inv in H. destruct H as [(e & H & ->)|(u5 & c5 & E5 & H)].
  { split; [|discriminate].
    replace (committed c') with (restocked prods (pending c)); [exact Hr|].
    symmetry. revert H. apply (keeps_forM (fun c => committed c = _)); [|exact Hc4].
    intros o. apply keeps_committed_seed_order. }
  assert (Hc5 : committed c5 = restocked prods (pending c)).
  { revert E5. apply (keeps_forM (fun c => committed c = _)); [|exact Hc4].
    intros o. apply keeps_committed_seed_order. }
  apply seed_orders_linked in E5; [|rewrite Hp4; exact Hr].
  apply commit_inv in H. destruct H as [(-> & Hco & _)|(-> & Hco & Hpe)].
  - rewrite Hco, Hc5. split; [exact Hr|discriminate].
  - rewrite Hco. split; [exact E5|]. intros _. congruence.
Qed.

Lemma seed_linked now force c r c' :
  seed_dummy_data now force c = (r, c') ->
  settled c ->
  linked (committed c') /\ (r = Ok tt -> settled c').
Proof.
  unfold seed_dummy_data, settled. intros H [Hcl Hc].
  apply bind_inv in H. destruct H as [(e & H & ->)|(n & c1 & E1 & H)].
  { apply query_inv in H. destruct H as (Hco & _). rewrite Hco.
    split; [exact Hc|discriminate]. }
  apply query_inv in E1. destruct E1 as (Hc1 & Hp1 & _).
  destruct ((0 <? n) && negb force).
  - inversion H; subst r c'. rewrite Hc1, Hp1. auto.
  - apply seed_with_linked in H; [|rewrite Hp1, Hcl; exact Hc].
    destruct H as [H1 H2]. split; [exact H1|]. intros Hr. split; auto.
Qed.

(** One statement and [conn.commit()], on a settled connection. *)
Lemma update_commit_linked (stmt : db -> unit * db) c r c' :
  (execute stmt ;;; commit) c = (r, c') ->
  (forall d, linked d -> linked (snd (stmt d))) ->
  settled c ->
  linked (committed c').
Proof.
  intros H Hs [Hcl Hc].
  apply bind_inv in H. destruct H as [(e & H & ->)|(u & c1 & E1 & H)].
  { apply execute_committed in H. rewrite H. exact Hc. }
  apply execute_ok_inv in E1. destruct E1 as [E1 Hc1].
  apply commit_inv in H. destruct H as [(_ & Hco & _)|(_ & Hco & _)].
  - rewrite Hco, Hc1. exact Hc.
  - rewrite Hco.
    replace (pending c1) with (snd (stmt (pending c))) by (rewrite E1; reflexivity).
    apply Hs. rewrite Hcl. exact Hc.
Qed.

Lemma finalize_linked items cust order_time total_amt c oid c' :
  finalize items cust order_time total_amt c = (Ok oid, c') ->
  total_amt = bill_total (item_rows (products (pending c))
                            (seq_orders (pending c) + 1)
                            (seq_order_items (pending c)) items) ->
  linked (pending c) ->
  linked (committed c').
Proof.
  unfold finalize. intros H Htot Hl.
  bind_ok_inv H oid1 c1 E1. bind_ok_inv H u2 c2 E2. bind_ok_inv H u3 c3 E3.
  inversion H; subst oid1 c3; clear H.
  apply execute_ok_inv in E1. destruct E1 as [E1 _].
  unfold insert_order in E1. inversion E1 as [[Hoid Hd1]]. clear E1.
  pose proof (finalize_lines_products _ _ _ _ _ E2) as Hprod.
  apply finalize_lines_ok in E2. destruct E2 as (_ & Hw & _).
  apply commit_ok_inv in E3. destruct E3 as [Hc3 _].
  destruct Hw as (Ho & Hso & Hsp & Hi & Hsi & Hpr & _).
  rewrite <- Hd1 in Ho, Hso, Hsp, Hi, Hsi, Hpr, Hprod. simpl in *.
  subst oid.
  rewrite Hc3.
  apply (linked_order_added items (pending c) (pending c2)
           (Order.mk (seq_orders (pending c) + 1) order_time cust total_amt));
    try assumption; [reflexivity|right; exact Htot|].
  rewrite Hprod. apply map_id_deduct_lines.
Qed.

(** The lines of the bill and the rows a loop over the cart inserts carry
    the same amounts. *)
Lemma bill_lines_amounts P items lines :
  bill_lines P items = Some lines ->
  forall oid next,
    map BillLine.line_total lines = map row_amount (item_rows P oid next items).
Proof.
  revert lines. induction items as [|[pid qty] items IH]; intros lines H oid next.
  - inversion H. reflexivity.
  - cbn [bill_lines] in H. unfold bill_line in H. cbn [fst snd] in H.
    cbn [item_rows]. unfold price_of.
    destruct (find (fun p => Product.id p =? pid) P) as [p|]; [|discriminate].
    destruct (bill_lines P items) as [ls|]; [|discriminate].
    inversion H; subst. cbn [option_map map BillLine.line_total].
    f_equal. apply IH. reflexivity.
Qed.

Lemma add_order_run_linked items ev cust order_time c r c' :
  add_order_run items ev cust order_time c = (r, c') ->
  settled c ->
  linked (committed c').
Proof.
  unfold add_order_run. intros H [Hcl Hc].
  apply bind_inv in H. destruct H as [(e & H & ->)|(t & c1 & E1 & H)].
  { apply load_tables_inv in H. destruct H as (Hco & _). rewrite Hco. exact Hc. }
  apply load_tables_inv in E1. destruct E1 as (Hc1 & Hp1 & Ht).
  rewrite (Ht t eq_refl) in H. cbn [fst] in H.
  assert (Hsame : forall v, ret v c1 = (r, c') -> linked (committed c')).
  { intros v Hv. inversion Hv; subst. rewrite Hc1. exact Hc. }
  unfold add_order_page in H.
  destruct (products (pending c)) as [|p0 ps] eqn:EP; [eapply Hsame; exact H|].
  rewrite <- EP in H.
  destruct ev as [|psel qty|].
  - destruct (bill_lines (products (pending c)) items) as [[|l ls]|];
      try (eapply Hsame; exact H).
    inversion H; subst. rewrite Hc1. exact Hc.
  - destruct (nth_error (products (pending c)) psel); eapply Hsame; exact H.
  - destruct (bill_lines (products (pending c)) items) as [[|l ls]|] eqn:Eb;
      [eapply Hsame; exact H| |inversion H; subst; rewrite Hc1; exact Hc].
    apply bind_inv in H. destruct H as [(e & H & ->)|(oid & c2 & E2 & H)].
    { apply finalize_raise in H. rewrite H, Hc1. exact Hc. }
    inversion H; subst r c'. clear H.
    eapply finalize_linked; [exact E2| |rewrite Hp1, Hcl; exact Hc].
    unfold sum_line_total, bill_total. rewrite Hp1.
    rewrite (bill_lines_amounts _ _ _ Eb (seq_orders (pending c) + 1)
               (seq_order_items (pending c))).
    reflexivity.
Qed.

Lemma dashboard_inv tq tp now t c r c' :
  dashboard tq tp now t c = (r, c') ->
  c' = c /\
  (r = Raise KeyError <-> OrdersFrame.rows (snd (fst t)) = []).
Proof.
  destruct t as [[products_df orders_df] order_items_df]. unfold dashboard.
  cbn [fst snd]. destruct orders_df as [rows hr].
  destruct rows as [|o rows].
  - simpl. intros H; inversion H; subst. split; [reflexivity|]. tauto.
  - pose proof (customers_per_hour_table o rows hr) as Ht.
    destruct (compute_customers_per_hour (OrdersFrame.mk (o :: rows) hr))
      as [frame per_hour]. cbn [snd] in Ht. subst per_hour.
    cbn [hours_of_day seq map]. intros H. inversion H; subst.
    split; [reflexivity|]. cbn [OrdersFrame.rows]. split; discriminate.
Qed.

Lemma script_linked now a c r c' :
  script now a c = (r, c') ->
  settled c ->
  linked (committed c').
Proof.
  intros H Hs.
  assert (Hseed : forall {A} (k : M A) r c',
             (seed_dummy_data now false ;;; k) c = (r, c') ->
             (forall r c1 c', settled c1 -> k c1 = (r, c') ->
                              linked (committed c')) ->
             linked (committed c')).
  { intros A k r0 c0 H0 Hk.
    apply bind_inv in H0. destruct H0 as [(e & H0 & _)|(u & c1 & E1 & H0)].
    - apply (proj1 (seed_linked _ _ _ _ _ H0 Hs)).
    - destruct u. eapply Hk; [|exact H0].
      apply (proj2 (seed_linked _ _ _ _ _ E1 Hs)). reflexivity. }
  assert (Hload : forall {A} (k : M A) c1 r c',
             settled c1 ->
             (load_tables ;;; k) c1 = (r, c') ->
             (forall r c2 c', settled c2 -> k c2 = (r, c') ->
                              linked (committed c')) ->
             linked (committed c')).
  { intros A k c1 r0 c0 [Hcl Hc] H0 Hk.
    apply bind_inv in H0. destruct H0 as [(e & H0 & _)|(t & c2 & E1 & H0)].
    - apply load_tables_inv in H0. destruct H0 as (Hco & _). rewrite Hco. exact Hc.
    - apply load_tables_inv in E1. destruct E1 as (Hc2 & Hp2 & _).
      eapply Hk; [|exact H0]. split; congruence. }
  destruct a as [force|tq tp|pname cost sell stock|pid add_qty|items ev cust];
    simpl in H.
  - apply (proj1 (seed_linked _ _ _ _ _ H Hs)).
  - eapply Hseed; [exact H|]. intros r1 c1 c1' [Hcl Hc] H1.
    apply bind_inv in H1. destruct H1 as [(e & H1 & _)|(t & c2 & E1 & H1)].
    { apply load_tables_inv in H1. destruct H1 as (Hco & _). rewrite Hco. exact Hc. }
    apply load_tables_inv in E1. destruct E1 as (Hc2 & _).
    apply bind_inv in H1. destruct H1 as [(e & H1 & _)|(v & c3 & E2 & H1)].
    { apply dashboard_inv in H1. destruct H1 as [-> _]. rewrite Hc2. exact Hc. }
    apply dashboard_inv in E2. destruct E2 as [-> _].
    inversion H1; subst. rewrite Hc2. exact Hc.
  - eapply Hseed; [exact H|]. intros r1 c1 c1' Hs1 H1.
    eapply Hload; [exact Hs1|exact H1|]. intros r2 c2 c2' Hs2 H2.
    eapply update_commit_linked; [exact H2| |exact Hs2].
    intros d. apply linked_insert_product.
  - eapply Hseed; [exact H|]. intros r1 c1 c1' Hs1 H1.
    eapply Hload; [exact Hs1|exact H1|]. intros r2 c2 c2' Hs2 H2.
    eapply update_commit_linked; [exact H2| |exact Hs2].
    intros d. apply linked_set_stock.
  - eapply Hseed; [exact H|]. intros r1 c1 c1' Hs1 H1.
    apply bind_inv in H1. destruct H1 as [(e & H1 & _)|(v & c2 & E1 & H1)].
    + eapply add_order_run_linked; eassumption.
    + inversion H1; subst. eapply add_order_run_linked; eassumption.
Qed.

Lemma reachable_linked d : reachable d -> linked d.
Proof.
  induction 1 as [|d now a sched r c' _ IH _ Hrun].
  - apply linked_empty_db.
  - eapply script_linked; [exact Hrun|]. split; [reflexivity|exact IH].
Qed.

(** X1.  In every committed state the script can reach, no key occurs
    twice in a table and no key is above the table's counter: the
    [AUTOINCREMENT] keys identify rows and are never handed out again. *)
Theorem keys_unique_in_reachable_store (d : db) (Hd : reachable d) :
  (NoDup (map Product.id (products d)) /\
   Forall (fun p => Product.id p <= seq_products d) (products d)) /\
  (NoDup (map Order.id (orders d)) /\
   Forall (fun o => Order.id o <= seq_orders d) (orders d)) /\
  (NoDup (map OrderItem.id (order_items d)) /\
   Forall (fun i => OrderItem.id i <= seq_order_items d) (order_items d)).
Proof.
  destruct (reachable_linked d Hd) as (((Hp1 & Hp2) & (Ho1 & Ho2) & (Hi1 & Hi2)) & _).
  rewrite Forall_map in Hp1, Ho1, Hi1. repeat split; assumption.
Qed.

Lemma keys_unique_in_reachable_store_witness :
  (NoDup (map Product.id (products overdrawn_db)) /\
   Forall (fun p => Product.id p <= seq_products overdrawn_db)
          (products overdrawn_db)) /\
  (NoDup (map Order.id (orders overdrawn_db)) /\
   Forall (fun o => Order.id o <= seq_orders overdrawn_db) (orders overdrawn_db)) /\
  (NoDup (map OrderItem.id (order_items overdrawn_db)) /\
   Forall (fun i => OrderItem.id i <= seq_order_items overdrawn_db)
          (order_items overdrawn_db)).
Proof.
  exact (keys_unique_in_reachable_store overdrawn_db overdrawn_db_reachable).
Defined.

(** X2.  In every committed state the script can reach, every order item
    belongs to an order of the [orders] table and to a product of the
    [products] table, and its [unit_price] is that product's
    [selling_price] (no statement of the program changes a price). *)
Theorem references_hold_in_reachable_store (d : db) (Hd : reachable d) :
  Forall (fun i =>
            In (OrderItem.order_id i) (map Order.id (orders d)) /\
            In (OrderItem.product_id i) (map Product.id (products d)) /\
            price_of (products d) (OrderItem.product_id i)
            = Some (OrderItem.unit_price i))
         (order_items d).
Proof.
  destruct (reachable_linked d Hd) as (_ & Hr & Hp & _).
  unfold priced in Hp.
  unfold refs_ok in Hr. rewrite Forall_forall in *. intros i Hi.
  split; [apply Hr; exact Hi|]. split; [|apply Hp; exact Hi].
  eapply price_of_some_in. apply Hp. exact Hi.
Qed.

Lemma references_hold_in_reachable_store_witness :
  Forall (fun i =>
            In (OrderItem.order_id i) (map Order.id (orders overdrawn_db)) /\
            In (OrderItem.product_id i) (map Product.id (products overdrawn_db)) /\
            price_of (products overdrawn_db) (OrderItem.product_id i)
            = Some (OrderItem.unit_price i))
         (order_items overdrawn_db).
Proof.
  exact (references_hold_in_reachable_store overdrawn_db overdrawn_db_reachable).
Defined.

(** X3.  In every committed state the script can reach, whatever the
    engine's faults, an order that has order items in the store carries
    as [total_amount] the binary64 sum of [unit_price * qty] over them:
    the running total of the loader's loop ([line_sum]: from 0.0, in row
    order) or the [Series.sum()] of the "Add Order" page ([bill_total]).
    An order is without items when none of its lines named a product, or
    when a forced reseeding stopped between its [DELETE] statements. *)
Theorem totals_hold_in_reachable_store (d : db) (Hd : reachable d) :
  Forall (fun o =>
            items_of d (Order.id o) = [] \/
            Order.total_amount o = line_sum (items_of d (Order.id o)) \/
            Order.total_amount o = bill_total (items_of d (Order.id o)))
         (orders d).
Proof.
  destruct (reachable_linked d Hd) as (_ & _ & _ & Ht). exact Ht.
Qed.

Lemma totals_hold_in_reachable_store_witness :
  Forall (fun o =>
            items_of overdrawn_db (Order.id o) = [] \/
            Order.total_amount o = line_sum (items_of overdrawn_db (Order.id o)) \/
            Order.total_amount o = bill_total (items_of overdrawn_db (Order.id o)))
         (orders overdrawn_db).
Proof.
  exact (totals_hold_in_reachable_store overdrawn_db overdrawn_db_reachable).
Defined.

(** The store in question holds the seven seeded orders and the finalized
    one, each with items; the finalized order carries 99 times 45. *)
Example overdrawn_db_totals :
  map (fun o => (List.length (items_of overdrawn_db (Order.id o)),
                 Order.total_amount o))
      (orders overdrawn_db)
  = [(2%nat, 70%float); (2%nat, 115%float); (2%nat, 450%float);
     (3%nat, 85%float); (2%nat, 100%float); (2%nat, 75%float);
     (2%nat, 200%float); (1%nat, 4455%float)].
Proof. vm_compute. reflexivity. Qed.

(** A forced reseeding of the seeded store that stops at its second
    [DELETE]: the order items are gone, the orders and their totals are
    not. *)
Example interrupted_reseed_keeps_orders :
  order_items interrupted_reseed = [] /\
  map Order.total_amount (orders interrupted_reseed)
  = [70; 115; 450; 85; 100; 75; 200]%float /\
  List.length (products interrupted_reseed) = 10%nat.
Proof. vm_compute. repeat split; reflexivity. Qed.

(** ** The stock a finalize leaves *)

Lemma deduct_lines_stock items :
  forall p,
    Product.stock_qty (deduct_lines items p)
    = fold_left deduct (staged_qtys (Product.id p) items) (Product.stock_qty p).
Proof.
  unfold deduct_lines, staged_qtys.
  induction items as [|[pid qty] items IH]; intros p; cbn [fold_left fst snd filter];
    [reflexivity|].
  rewrite IH. rewrite (proj1 (set_stock_fields _ pid p)).
  rewrite (Z.eqb_sym pid). unfold set_stock.
  destruct (Product.id p =? pid); reflexivity.
Qed.

Lemma fold_deduct_clamped qs :
  Forall (fun q => 0 <= q) qs ->
  forall s, 0 <= s -> fold_left deduct qs s = Z.max 0 (s - zsum qs).
Proof.
  induction 1 as [|q qs Hq Hqs IH]; intros s Hs; simpl.
  - lia.
  - rewrite IH by apply deduct_nonneg. unfold deduct.
    assert (Hz : 0 <= zsum qs).
    { clear IH. induction Hqs as [|x qs Hx _ IHq]; simpl; lia. }
    destruct (s - q <? 0) eqn:E; lia.
Qed.

Lemma finalize_products items cust order_time total_amt c oid c' :
  finalize items cust order_time total_amt c = (Ok oid, c') ->
  products (committed c') = map (deduct_lines items) (products (pending c)).
Proof.
  unfold finalize. intros H.
  bind_ok_inv H oid1 c1 E1. bind_ok_inv H u2 c2 E2. bind_ok_inv H u3 c3 E3.
  inversion H; subst oid1 c3; clear H.
  apply execute_ok_inv in E1. destruct E1 as [E1 _].
  apply (f_equal snd) in E1. simpl in E1.
  apply finalize_lines_products in E2.
  apply commit_ok_inv in E3. destruct E3 as [Hc3 _].
  rewrite Hc3, E2, <- E1. reflexivity.
Qed.

Lemma Forall2_map_same {A B} (R : A -> B -> Prop) (f : A -> B) l :
  (forall x, R x (f x)) -> Forall2 R l (map f l).
Proof. intros H. induction l; simpl; constructor; auto. Qed.

(** X4.  A finalize that returns leaves every product its key, name, cost
    and price, and decrements its stock once per staged line that names
    it, in cart order, each time clamped at 0; with a stock and quantities
    that are not negative the new stock is the larger of 0 and the old
    stock minus the total quantity staged for the product.  A product no
    line names keeps its stock. *)
Theorem finalize_stock_effect items cust order_time total_amt c oid c'
    (Hrun : finalize items cust order_time total_amt c = (Ok oid, c')) :
  Forall2 (fun p p' =>
             Product.id p' = Product.id p /\
             Product.name p' = Product.name p /\
             Product.cost_price p' = Product.cost_price p /\
             Product.selling_price p' = Product.selling_price p /\
             Product.stock_qty p'
             = fold_left deduct (staged_qtys (Product.id p) items)
                 (Product.stock_qty p) /\
             (Forall (fun line => fst line <> Product.id p) items -> p' = p) /\
             (0 <= Product.stock_qty p ->
              Forall (fun line => 0 <= snd line) items ->
              Product.stock_qty p'
              = Z.max 0 (Product.stock_qty p
                         - zsum (staged_qtys (Product.id p) items))))
          (products (pending c)) (products (committed c')).
Proof.
  rewrite (finalize_products _ _ _ _ _ _ _ Hrun).
  apply Forall2_map_same. intros p.
  destruct (deduct_lines_fields items p) as (H1 & H2 & H3 & H4).
  pose proof (deduct_lines_stock items p) as H5.
  repeat (split; [assumption|]). split.
  - intros Hno. unfold deduct_lines. clear -Hno.
    induction Hno as [|[pid qty] items Hne _ IH]; cbn [fold_left fst snd];
      [reflexivity|].
    rewrite set_stock_other by (simpl in Hne; congruence). exact IH.
  - intros Hs Hq. rewrite H5. apply fold_deduct_clamped; [|exact Hs].
    unfold staged_qtys. apply Forall_map.
    apply Forall_forall. intros line Hin. apply filter_In in Hin.
    rewrite Forall_forall in Hq. apply Hq. tauto.
Qed.

Lemma finalize_stock_effect_witness :
  map Product.stock_qty (firstn 3 (products (pending seeded_conn))) = [46; 22; 19] /\
  map Product.stock_qty (firstn 3 (products (committed (snd example_finalize))))
  = [44; 21; 19] /\
  List.length (products (committed (snd example_finalize))) = 10%nat.
Proof.
  split; [vm_compute; reflexivity|]. split; [vm_compute; reflexivity|].
  assert (Hrun : finalize [(1, 2); (2, 1)] "Walk-in" 0 70 seeded_conn
                 = (Ok 8, snd example_finalize)) by (vm_compute; reflexivity).
  pose proof (finalize_stock_effect _ _ _ _ _ _ _ Hrun) as W.
  apply Forall2_length in W. rewrite <- W. vm_compute. reflexivity.
Defined.

(** ** Sorting and the two ranking reports *)

Section InsertionFacts.
Context {A : Type} (ltb : A -> A -> bool).
Hypothesis ltb_asym : forall a b, ltb a b = true -> ltb b a = false.
Hypothesis ltb_trans :
  forall a b c, ltb a b = false -> ltb b c = false -> ltb a c = false.

Lemma insert_desc_perm x l : Permutation (insert_desc ltb x l) (x :: l).
Proof.
  induction l as [|y l IH]; simpl; [reflexivity|].
  destruct (ltb x y); [|reflexivity].
  rewrite IH. apply perm_swap.
Qed.

Lemma insert_desc_In x l z : In z (insert_desc ltb x l) <-> z = x \/ In z l.
Proof.
  induction l as [|y l IH]; simpl.
  - intuition auto.
  - destruct (ltb x y); simpl; [|intuition auto]. rewrite IH. intuition auto.
Qed.

Lemma insert_desc_sorted x l :
  StronglySorted (not_below ltb) l -> StronglySorted (not_below ltb) (insert_desc ltb x l).
Proof.
  induction 1 as [|y l Hs IH Hy]; simpl.
  - repeat constructor.
  - destruct (ltb x y) eqn:E.
    + constructor; [exact IH|]. apply Forall_forall. intros z Hz.
      apply insert_desc_In in Hz. destruct Hz as [->|Hz];
        [apply ltb_asym; exact E|].
      rewrite Forall_forall in Hy. apply Hy. exact Hz.
    + constructor; [constructor; assumption|].
      constructor; [exact E|].
      eapply Forall_impl; [|exact Hy]. intros z Hz.
      eapply ltb_trans; [exact E|exact Hz].
Qed.

Lemma insertion_perm l : Permutation (fold_right (insert_desc ltb) [] l) l.
Proof.
  induction l as [|x l IH]; simpl; [reflexivity|].
  rewrite insert_desc_perm. constructor. exact IH.
Qed.

Lemma insertion_sorted l :
  StronglySorted (not_below ltb) (fold_right (insert_desc ltb) [] l).
Proof.
  induction l as [|x l IH]; simpl;
    [constructor|apply insert_desc_sorted; exact IH].
Qed.

End InsertionFacts.

Section SortFacts.
Context {A : Type} (ltb : A -> A -> bool) (ties : nat -> nat).
Hypothesis ltb_asym : forall a b, ltb a b = true -> ltb b a = false.
Hypothesis ltb_trans :
  forall a b c, ltb a b = false -> ltb b c = false -> ltb a c = false.

Lemma after_asym x y : after ltb ties x y = true -> after ltb ties y x = false.
Proof.
  unfold after. intros H.
  destruct (ltb (snd x) (snd y)) eqn:Exy.
  - rewrite (ltb_asym _ _ Exy). reflexivity.
  - destruct (ltb (snd y) (snd x)) eqn:Eyx; [discriminate|].
    simpl in *. apply Nat.ltb_lt in H. apply Nat.ltb_ge. lia.
Qed.

Lemma after_trans x y z :
  after ltb ties x y = false -> after ltb ties y z = false ->
  after ltb ties x z = false.
Proof.
  unfold after. intros Hxy Hyz.
  apply orb_false_elim in Hxy. destruct Hxy as [Exy Hxy].
  apply orb_false_elim in Hyz. destruct Hyz as [Eyz Hyz].
  rewrite (ltb_trans _ _ _ Exy Eyz). cbn [orb].
  destruct (ltb (snd z) (snd x)) eqn:Ezx; [reflexivity|]. cbn [negb andb].
  rewrite (ltb_trans _ _ _ Eyz Ezx) in Hxy.
  rewrite (ltb_trans _ _ _ Ezx Exy) in Hyz.
  cbn [negb andb] in *.
  apply Nat.ltb_ge in Hxy, Hyz. apply Nat.ltb_ge. lia.
Qed.

Lemma map_snd_combine_seq (l : list A) :
  forall n, map snd (combine (seq n (List.length l)) l) = l.
Proof.
  induction l as [|x l IH]; intros n; [reflexivity|].
  cbn [List.length seq combine map snd]. rewrite IH. reflexivity.
Qed.

(** [sort_values] rearranges the rows. *)
Lemma sort_values_desc_perm l : Permutation (sort_values_desc ltb ties l) l.
Proof.
  unfold sort_values_desc.
  etransitivity; [apply Permutation_map, insertion_perm|].
  rewrite map_snd_combine_seq. reflexivity.
Qed.

End SortFacts.

Lemma StronglySorted_weaken {A} (R S : A -> A -> Prop) l :
  (forall a b, R a b -> S a b) -> StronglySorted R l -> StronglySorted S l.
Proof.
  intros H. induction 1 as [|a l _ IH Ha]; constructor; [exact IH|].
  eapply Forall_impl; [|exact Ha]. apply H.
Qed.

Lemma StronglySorted_map {A B} (f : A -> B) (R : B -> B -> Prop) l :
  StronglySorted (fun a b => R (f a) (f b)) l -> StronglySorted R (map f l).
Proof.
  induction 1 as [|a l _ IH Ha]; simpl; constructor; [exact IH|].
  apply Forall_map. exact Ha.
Qed.

(** Whatever the routine does with ties, the rows come out in descending
    order. *)
Lemma sort_values_desc_sorted {A} (ltb : A -> A -> bool) ties l :
  (forall a b, ltb a b = true -> ltb b a = false) ->
  (forall a b c, ltb a b = false -> ltb b c = false -> ltb a c = false) ->
  StronglySorted (not_below ltb) (sort_values_desc ltb ties l).
Proof.
  intros Hasym Htrans. unfold sort_values_desc.
  apply StronglySorted_map.
  apply StronglySorted_weaken with (R := not_below (after ltb ties)).
  - unfold not_below, after. intros a b H.
    apply orb_false_elim in H. apply H.
  - apply insertion_sorted.
    + apply after_asym; assumption.
    + apply after_trans; assumption.
Qed.

Lemma place_of_lt i j p :
  ~ In i p -> In j p -> (place_of i (i :: p) < place_of j (i :: p))%nat.
Proof.
  intros Hi Hj. cbn [place_of]. rewrite Nat.eqb_refl.
  destruct (j =? i)%nat eqn:E; [|lia].
  apply Nat.eqb_eq in E. subst. contradiction.
Qed.

Lemma place_of_cons i j k p :
  i <> k -> j <> k ->
  ((place_of i (k :: p) < place_of j (k :: p))%nat
   <-> (place_of i p < place_of j p)%nat).
Proof.
  intros Hi Hj. cbn [place_of].
  apply Nat.eqb_neq in Hi, Hj. rewrite Hi, Hj. lia.
Qed.

Section Unique.
Context {A : Type} (R : A -> A -> Prop).

(** Two arrangements of the same rows that are both in order are the
    same, when no two different rows can go either way round. *)
Lemma sorted_unique (l l' : list A) :
  (forall a b, In a l -> In b l -> R a b -> R b a -> a = b) ->
  Permutation l l' -> StronglySorted R l -> StronglySorted R l' -> l = l'.
Proof.
  revert l'. induction l as [|a l IH]; intros l' Hanti Hp Hs Hs'.
  - apply Permutation_nil in Hp. subst. reflexivity.
  - destruct l' as [|b l'].
    { symmetry in Hp. apply Permutation_nil in Hp. discriminate. }
    inversion Hs as [|? ? Hsl Ha]; subst.
    inversion Hs' as [|? ? Hsl' Hb]; subst.
    assert (E : a = b).
    { assert (Hbin : In b (a :: l)).
      { apply (Permutation_in _ (Permutation_sym Hp)). left. reflexivity. }
      assert (Hain : In a (b :: l')).
      { apply (Permutation_in _ Hp). left. reflexivity. }
      destruct Hbin as [E|Hbin]; [exact E|].
      destruct Hain as [E|Hain]; [symmetry; exact E|].
      rewrite Forall_forall in Ha, Hb.
      apply Hanti; [left; reflexivity|right; exact Hbin|apply Ha; exact Hbin|
                    apply Hb; exact Hain]. }
    subst b. f_equal. apply IH; try assumption.
    + intros x y Hx Hy. apply Hanti; right; assumption.
    + eapply Permutation_cons_inv. exact Hp.
Qed.
End Unique.

Lemma place_of_inj i j p :
  In i p -> In j p -> place_of i p = place_of j p -> i = j.
Proof.
  induction p as [|k p IH]; simpl; [tauto|].
  intros Hi Hj. destruct (i =? k)%nat eqn:Ei, (j =? k)%nat eqn:Ej; intros E;
    try discriminate.
  - apply Nat.eqb_eq in Ei, Ej. congruence.
  - apply Nat.eqb_neq in Ei, Ej.
    destruct Hi as [Hi|Hi]; [congruence|]. destruct Hj as [Hj|Hj]; [congruence|].
    apply IH; [assumption|assumption|lia].
Qed.

Lemma StronglySorted_weaken_in {A} (R S : A -> A -> Prop) l :
  (forall a b, In a l -> In b l -> R a b -> S a b) ->
  StronglySorted R l -> StronglySorted S l.
Proof.
  intros H Hs. induction Hs as [|a l Hs IH Ha]; constructor.
  - apply IH. intros x y Hx Hy. apply H; right; assumption.
  - rewrite Forall_forall in *. intros b Hb.
    apply H; [left; reflexivity|right; exact Hb|apply Ha; exact Hb].
Qed.

Lemma StronglySorted_and {A} (R S : A -> A -> Prop) l :
  StronglySorted R l -> StronglySorted S l ->
  StronglySorted (fun a b => R a b /\ S a b) l.
Proof.
  induction 1 as [|a l Hs IH Ha]; intros H'; [constructor|].
  inversion H' as [|? ? Hs' Ha']; subst. constructor; [apply IH; exact Hs'|].
  rewrite Forall_forall in *. intros b Hb. split; [apply Ha|apply Ha']; exact Hb.
Qed.

Lemma StronglySorted_unmap {A B} (f : A -> B) (R : B -> B -> Prop) l :
  StronglySorted R (map f l) -> StronglySorted (fun a b => R (f a) (f b)) l.
Proof.
  induction l as [|a l IH]; intros H; [constructor|].
  cbn [map] in H. inversion H as [|? ? Hs Ha]; subst.
  constructor; [apply IH; exact Hs|].
  rewrite Forall_map in Ha. exact Ha.
Qed.

(** Positions that are all different stand in the order of their places. *)
Lemma places_sorted p :
  NoDup p -> StronglySorted (fun i j => (place_of i p < place_of j p)%nat) p.
Proof.
  induction 1 as [|k p Hk Hnd IH]; [constructor|]. constructor.
  - apply StronglySorted_weaken_in
      with (R := fun i j => (place_of i p < place_of j p)%nat); [|exact IH].
    intros i j Hi Hj Hlt. apply place_of_cons; [| |exact Hlt]; congruence.
  - apply Forall_forall. intros j Hj. apply place_of_lt; assumption.
Qed.

Section Complete.
Context {A : Type} (ltb : A -> A -> bool).
Hypothesis ltb_asym : forall a b, ltb a b = true -> ltb b a = false.
Hypothesis ltb_trans :
  forall a b c, ltb a b = false -> ltb b c = false -> ltb a c = false.

Lemma tagged_fst (l : list A) n :
  map fst (combine (seq n (List.length l)) l) = seq n (List.length l).
Proof.
  revert n. induction l as [|x l IH]; intros n; [reflexivity|].
  cbn [List.length seq combine map fst]. rewrite IH. reflexivity.
Qed.

Lemma NoDup_fst_inj {B} (t : list (nat * B)) x y :
  NoDup (map fst t) -> In x t -> In y t -> fst x = fst y -> x = y.
Proof.
  induction t as [|z t IH]; simpl; [tauto|].
  intros Hnd Hx Hy E. apply NoDup_cons_iff in Hnd. destruct Hnd as [Hz Hnd].
  destruct Hx as [->|Hx], Hy as [->|Hy]; [reflexivity| | |auto].
  - exfalso. apply Hz. rewrite E. apply in_map. exact Hy.
  - exfalso. apply Hz. rewrite <- E. apply in_map. exact Hx.
Qed.

(** Every arrangement of the rows in descending order is what
    [sort_values] returns for some choice among the ties: the model
    leaves out no outcome of an unstable sort. *)
Lemma sort_values_desc_complete (l l' : list A) :
  Permutation l l' -> StronglySorted (not_below ltb) l' ->
  exists ties, sort_values_desc ltb ties l = l'.
Proof.
  intros Hp Hs.
  set (tagged := combine (seq 0 (List.length l)) l).
  assert (Hl : map snd tagged = l) by apply map_snd_combine_seq.
  assert (Hnd : NoDup (map fst tagged)).
  { unfold tagged. rewrite tagged_fst. apply seq_NoDup. }
  rewrite <- Hl in Hp. apply Permutation_sym, Permutation_map_inv in Hp.
  destruct Hp as (t' & -> & Hp).
  assert (Hnd' : NoDup (map fst t')).
  { eapply Permutation_NoDup; [apply Permutation_map; exact Hp|exact Hnd]. }
  set (ties := fun i => place_of i (map fst t')).
  exists ties. unfold sort_values_desc. fold tagged. f_equal.
  apply (sorted_unique (not_below (after ltb ties))).
  - intros a b Ha Hb Hab Hba. unfold not_below, after in Hab, Hba.
    apply orb_false_elim in Hab, Hba. destruct Hab as [E1 H1], Hba as [E2 H2].
    rewrite E2 in H1. rewrite E1 in H2. cbn [negb andb] in H1, H2.
    apply Nat.ltb_ge in H1, H2.
    assert (Hin : forall x, In x (fold_right (insert_desc (after ltb ties)) [] tagged)
                            -> In x tagged /\ In (fst x) (map fst t')).
    { intros x Hx. apply (Permutation_in _ (insertion_perm _ tagged)) in Hx.
      split; [exact Hx|]. apply in_map. apply (Permutation_in _ Hp). exact Hx. }
    apply Hin in Ha, Hb. destruct Ha as [Ha Ha'], Hb as [Hb Hb'].
    apply (NoDup_fst_inj tagged); [exact Hnd|exact Ha|exact Hb|].
    apply (place_of_inj _ _ (map fst t')); [exact Ha'|exact Hb'|].
    unfold ties in H1, H2. lia.
  - etransitivity; [apply insertion_perm|exact Hp].
  - apply insertion_sorted; [apply after_asym|apply after_trans]; assumption.
  - apply StronglySorted_weaken
      with (R := fun a b => not_below ltb (snd a) (snd b)
                            /\ (ties (fst a) < ties (fst b))%nat).
    + intros a b [H1 H2]. unfold not_below, after in *. rewrite H1.
      cbn [orb]. apply andb_false_iff. right. apply Nat.ltb_ge. lia.
    + apply StronglySorted_and.
      * apply StronglySorted_unmap. exact Hs.
      * apply (StronglySorted_unmap fst (fun i j => (ties i < ties j)%nat)).
        apply places_sorted. exact Hnd'.
Qed.
End Complete.

Lemma StronglySorted_firstn {A} (R : A -> A -> Prop) n l :
  StronglySorted R l -> StronglySorted R (firstn n l).
Proof.
  intros H. revert n. induction H as [|a l _ IH Ha]; intros [|n]; simpl;
    try constructor; [apply IH|].
  apply Forall_forall. intros z Hz. rewrite Forall_forall in Ha. apply Ha.
  rewrite <- (firstn_skipn n l). apply in_or_app. left. exact Hz.
Qed.

(** In a sorted table the rows kept by [head] are not below the rows cut
    off. *)
Lemma StronglySorted_head_tail {A} (R : A -> A -> Prop) n l :
  StronglySorted R l ->
  forall a b, In a (firstn n l) -> In b (skipn n l) -> R a b.
Proof.
  intros H. revert n. induction H as [|x l _ IH Hx]; intros n a b Ha Hb.
  - rewrite firstn_nil in Ha. destruct Ha.
  - destruct n as [|n]; simpl in Ha, Hb; [destruct Ha|].
    destruct Ha as [<-|Ha]; [|eapply IH; eassumption].
    rewrite Forall_forall in Hx. apply Hx.
    rewrite <- (firstn_skipn n l). apply in_or_app. right. exact Hb.
Qed.

Lemma NoDup_head {A} n (l : list A) : NoDup l -> NoDup (firstn n l).
Proof.
  intros H. rewrite <- (firstn_skipn n l) in H.
  apply NoDup_app_remove_r in H. exact H.
Qed.

Lemma NoDup_flat_map {A B} (f : A -> list B) l :
  NoDup l -> (forall a, In a l -> NoDup (f a)) ->
  (forall a a' b, In a l -> In a' l -> In b (f a) -> In b (f a') -> a = a') ->
  NoDup (flat_map f l).
Proof.
  induction 1 as [|a l Ha Hl IH]; intros Hf Hd; simpl; [constructor|].
  apply NoDup_app.
  - apply Hf. left. reflexivity.
  - apply IH.
    + intros a' Ha'. apply Hf. right. exact Ha'.
    + intros a1 a2 b H1 H2. apply Hd; right; assumption.
  - intros b Hb Hb'. apply in_flat_map in Hb'. destruct Hb' as (a' & Ha' & Hb').
    assert (E : a = a').
    { apply (Hd a a' b); [left; reflexivity|right; exact Ha'|exact Hb|exact Hb']. }
    subst a'. contradiction.
Qed.

Lemma merge_left_In {L R K} (eqb : K -> K -> bool) (lkey : L -> K) (rkey : R -> K)
    left right l m :
  In (l, m) (merge_left eqb lkey rkey left right) <->
  In l left /\
  match m with
  | Some r => In r right /\ eqb (lkey l) (rkey r) = true
  | None => forall r, In r right -> eqb (lkey l) (rkey r) = false
  end.
Proof.
  unfold merge_left. rewrite in_flat_map. split.
  - intros (l0 & Hl0 & H).
    destruct (filter (fun r => eqb (lkey l0) (rkey r)) right) as [|r0 ms] eqn:E.
    + destruct H as [H|[]]. inversion H; subst. split; [exact Hl0|].
      intros r Hr. destruct (eqb (lkey l) (rkey r)) eqn:Er; [|reflexivity].
      assert (Hin : In r (filter (fun r => eqb (lkey l) (rkey r)) right)).
      { apply filter_In. auto. }
      rewrite E in Hin. destruct Hin.
    + apply in_map_iff in H. destruct H as (r & H & Hr). inversion H; subst.
      split; [exact Hl0|]. rewrite <- E in Hr. apply filter_In in Hr. exact Hr.
  - intros [Hl Hm]. exists l. split; [exact Hl|].
    destruct (filter (fun r => eqb (lkey l) (rkey r)) right) as [|r0 ms] eqn:E.
    + destruct m as [r|]; [|left; reflexivity].
      assert (Hin : In r (filter (fun r => eqb (lkey l) (rkey r)) right)).
      { apply filter_In. exact Hm. }
      rewrite E in Hin. destruct Hin.
    + destruct m as [r|].
      * apply (in_map (fun r => (l, Some r))). rewrite <- E.
        apply filter_In. exact Hm.
      * assert (Hin : In r0 (filter (fun r => eqb (lkey l) (rkey r)) right)).
        { rewrite E. left. reflexivity. }
        apply filter_In in Hin. destruct Hin as [Hin Hr0].
        rewrite (Hm r0 Hin) in Hr0. discriminate.
Qed.

Lemma merge_left_NoDup {L R K} (eqb : K -> K -> bool) (lkey : L -> K)
    (rkey : R -> K) left right :
  NoDup left -> NoDup right -> NoDup (merge_left eqb lkey rkey left right).
Proof.
  intros Hl Hr. unfold merge_left. apply NoDup_flat_map; [exact Hl| |].
  - intros l _.
    destruct (filter (fun r => eqb (lkey l) (rkey r)) right) as [|r0 ms] eqn:E.
    + repeat constructor. intros [].
    + rewrite <- E. apply NoDup_map_NoDup_ForallPairs.
      * intros x y _ _ H. inversion H. reflexivity.
      * apply NoDup_filter. exact Hr.
  - assert (Hfst : forall l b,
              In b match filter (fun r => eqb (lkey l) (rkey r)) right with
                   | [] => [(l, None)]
                   | r0 :: ms => map (fun r => (l, Some r)) (r0 :: ms)
                   end -> fst b = l).
    { intros l b H.
      destruct (filter (fun r => eqb (lkey l) (rkey r)) right) as [|r0 ms].
      - destruct H as [<-|[]]. reflexivity.
      - apply in_map_iff in H. destruct H as (r & <- & _). reflexivity. }
    intros a a' b _ _ Ha Ha'. apply Hfst in Ha, Ha'. congruence.
Qed.

Section DropDuplicates.
Context {A : Type} (eqb : A -> A -> bool).
Hypothesis eqb_eq : forall a b, eqb a b = true <-> a = b.

Lemma existsb_eqb_In x seen : existsb (eqb x) seen = true <-> In x seen.
Proof.
  rewrite existsb_exists. split.
  - intros (y & Hy & E). apply eqb_eq in E. subst. exact Hy.
  - intros H. exists x. split; [exact H|]. apply eqb_eq. reflexivity.
Qed.

Lemma drop_duplicates_from_In l :
  forall seen x,
    In x (drop_duplicates_from eqb seen l) <-> In x l /\ ~ In x seen.
Proof.
  induction l as [|y l IH]; intros seen x; simpl; [tauto|].
  destruct (existsb (eqb y) seen) eqn:E.
  - apply existsb_eqb_In in E. rewrite IH. split.
    + intros [H1 H2]. auto.
    + intros [[->|H1] H2]; [contradiction|auto].
  - assert (Hy : ~ In y seen).
    { intros H. apply existsb_eqb_In in H. congruence. }
    simpl. rewrite IH. simpl. split.
    + intros [->|[H1 H2]]; [auto|]. split; [auto|]. intros H. apply H2. auto.
    + intros [[->|H1] H2]; [auto|].
      destruct (eqb y x) eqn:Ex.
      * apply eqb_eq in Ex. auto.
      * right. split; [exact H1|]. intros [->|H]; [|contradiction].
        assert (eqb x x = true) by (apply eqb_eq; reflexivity). congruence.
Qed.

Lemma drop_duplicates_from_NoDup l :
  forall seen, NoDup (drop_duplicates_from eqb seen l).
Proof.
  induction l as [|y l IH]; intros seen; simpl; [constructor|].
  destruct (existsb (eqb y) seen); [apply IH|].
  constructor; [|apply IH].
  rewrite drop_duplicates_from_In. intros [_ H]. apply H. left. reflexivity.
Qed.

(** [drop_duplicates] keeps every row once. *)
Lemma drop_duplicates_In l x : In x (drop_duplicates eqb l) <-> In x l.
Proof.
  unfold drop_duplicates. rewrite drop_duplicates_from_In. simpl. tauto.
Qed.

Lemma drop_duplicates_NoDup l : NoDup (drop_duplicates eqb l).
Proof. apply drop_duplicates_from_NoDup. Qed.

End DropDuplicates.

Lemma pair_eqb_eq a b : pair_eqb a b = true <-> a = b.
Proof.
  unfold pair_eqb. destruct a as [a1 a2], b as [b1 b2]. cbn [fst snd].
  rewrite andb_true_iff, Z.eqb_eq, String.eqb_eq. split.
  - intros [-> ->]. reflexivity.
  - intros H. inversion H. auto.
Qed.

Section AscendingFacts.
Context {K S : Type} (cmp : K -> K -> comparison).
Hypothesis cmp_eq : forall a b, cmp a b = Eq -> a = b.
Hypothesis cmp_refl : forall a, cmp a a = Eq.

Lemma In_rows_of k s (g : list (K * S)) : In (k, s) g -> In (k, s) (rows_of cmp k g).
Proof.
  intros H. unfold rows_of. apply filter_In. split; [exact H|].
  cbn [fst]. rewrite cmp_refl. reflexivity.
Qed.

(** A table with ascending keys has one row per key. *)
Lemma ascending_key k s s' (g : list (K * S)) :
  ascending cmp g -> In (k, s) g -> In (k, s') g -> s = s'.
Proof.
  intros Hg H H'. apply In_rows_of in H, H'.
  destruct (ascending_select cmp cmp_eq cmp_refl k g Hg) as [E|[s0 E]];
    rewrite E in H, H'.
  - destruct H.
  - destruct H as [H|[]], H' as [H'|[]]. congruence.
Qed.

Lemma ascending_NoDup (g : list (K * S)) : ascending cmp g -> NoDup g.
Proof.
  induction g as [|r g IH]; simpl; [constructor|].
  intros [Hall Hg]. constructor; [|apply IH, Hg].
  intros Hin. rewrite Forall_forall in Hall. apply Hall in Hin.
  rewrite cmp_refl in Hin. discriminate.
Qed.

End AscendingFacts.

Lemma values_of_items pid items :
  values_of Z.compare pid
    (map (fun i => (ItemRow.product_id i, ItemRow.qty i)) items)
  = map ItemRow.qty (filter (fun i => pid =? ItemRow.product_id i) items).
Proof.
  unfold values_of, rows_of.
  induction items as [|i items IH]; [reflexivity|].
  cbn [map filter fst]. rewrite is_eq_Z_compare.
  destruct (pid =? ItemRow.product_id i); cbn [map snd]; rewrite IH; reflexivity.
Qed.

(** The rows of the [groupby('product_id').sum()] of the quantities: one
    per product of an order item, with its units, wrapped around. *)
Lemma summary_row items k s :
  In (k, s) (group_sum Z.compare 0 int64_add
               (map (fun i => (ItemRow.product_id i, ItemRow.qty i)) items))
  <-> s = wrap64 (units_sold k items) /\
      exists i, In i items /\ ItemRow.product_id i = k.
Proof.
  pose proof (group_sum_rows Z.compare 0 int64_add Z_compare_eq Z.compare_refl
                Z_compare_lt_trans Z_compare_gt_lt
                (map (fun i => (ItemRow.product_id i, ItemRow.qty i)) items) k)
    as Hrows.
  rewrite values_of_items in Hrows. split.
  - intros Hin. apply (In_rows_of Z.compare Z.compare_refl) in Hin.
    rewrite Hrows in Hin.
    destruct (filter (fun i => k =? ItemRow.product_id i) items)
      as [|i0 rest] eqn:E; [destruct Hin|].
    cbn [map] in Hin. destruct Hin as [Hin|[]]. injection Hin as <-.
    split.
    + change (fold_left int64_add (map ItemRow.qty (i0 :: rest)) 0
              = wrap64 (units_sold k items)).
      rewrite int64_sum. unfold units_sold. rewrite E. reflexivity.
    + exists i0.
      assert (Hi0 : In i0 (filter (fun i => k =? ItemRow.product_id i) items)).
      { rewrite E. left. reflexivity. }
      apply filter_In in Hi0. destruct Hi0 as [Hi0 Hk].
      apply Z.eqb_eq in Hk. auto.
  - intros [-> (i & Hi & Hk)].
    assert (Hin : In i (filter (fun i => k =? ItemRow.product_id i) items)).
    { apply filter_In. split; [exact Hi|]. apply Z.eqb_eq. auto. }
    assert (Hr : In (k, wrap64 (units_sold k items))
                    (rows_of Z.compare k
                       (group_sum Z.compare 0 int64_add
                          (map (fun i => (ItemRow.product_id i, ItemRow.qty i))
                               items)))).
    { rewrite Hrows. unfold units_sold.
      destruct (filter (fun i => k =? ItemRow.product_id i) items)
        as [|i0 rest]; [destruct Hin|].
      cbn [map]. rewrite int64_sum. left. reflexivity. }
    unfold rows_of in Hr. apply filter_In in Hr. apply Hr.
Qed.

(** The table that [compute_best_selling] sorts: one row per (product,
    name) pair of the order items. *)
Lemma best_selling_table items k s m :
  In (k, s, m)
     (map (fun r : Z * Z * option (Z * string) =>
             (fst (fst r), snd (fst r), option_map snd (snd r)))
          (merge_left Z.eqb fst fst
             (group_sum Z.compare 0 int64_add
                (map (fun i => (ItemRow.product_id i, ItemRow.qty i)) items))
             (drop_duplicates pair_eqb
                (map (fun i => (ItemRow.product_id i, ItemRow.product_name i))
                     items))))
  <-> s = wrap64 (units_sold k items) /\
      exists i, In i items /\ ItemRow.product_id i = k /\
                m = Some (ItemRow.product_name i).
Proof.
  rewrite in_map_iff. split.
  - intros ([[k0 s0] m0] & E & Hin). cbn [fst snd] in E. inversion E; subst.
    clear E. apply merge_left_In in Hin. cbn [fst] in Hin.
    destruct Hin as [Hs Hm]. apply summary_row in Hs.
    destruct Hs as [Hs (i & Hi & Hk)]. split; [exact Hs|].
    destruct m0 as [[k' n]|].
    + destruct Hm as [Hn Hk']. cbn [fst] in Hk'. apply Z.eqb_eq in Hk'.
      subst k'. apply (proj1 (drop_duplicates_In pair_eqb pair_eqb_eq _ _)) in Hn.
      apply in_map_iff in Hn. destruct Hn as (j & Hj & Hin).
      inversion Hj. exists j. auto.
    + exfalso.
      assert (Hn : In (k, ItemRow.product_name i)
                      (drop_duplicates pair_eqb
                         (map (fun i => (ItemRow.product_id i,
                                         ItemRow.product_name i)) items))).
      { apply (drop_duplicates_In pair_eqb pair_eqb_eq). apply in_map_iff.
        exists i. rewrite Hk. auto. }
      apply Hm in Hn. cbn [fst] in Hn. rewrite Z.eqb_refl in Hn. discriminate.
  - intros [-> (i & Hi & Hk & ->)].
    exists (k, wrap64 (units_sold k items), Some (k, ItemRow.product_name i)).
    split; [reflexivity|]. apply merge_left_In. cbn [fst]. split.
    + apply summary_row. split; [reflexivity|]. exists i. auto.
    + split; [|apply Z.eqb_refl].
      apply (drop_duplicates_In pair_eqb pair_eqb_eq). apply in_map_iff.
      exists i. rewrite Hk. auto.
Qed.

Lemma best_selling_table_NoDup items :
  NoDup
    (map (fun r : Z * Z * option string => (fst (fst r), snd r))
       (map (fun r : Z * Z * option (Z * string) =>
               (fst (fst r), snd (fst r), option_map snd (snd r)))
          (merge_left Z.eqb fst fst
             (group_sum Z.compare 0 int64_add
                (map (fun i => (ItemRow.product_id i, ItemRow.qty i)) items))
             (drop_duplicates pair_eqb
                (map (fun i => (ItemRow.product_id i, ItemRow.product_name i))
                     items))))).
Proof.
  rewrite map_map. cbn [fst snd].
  set (summary := group_sum Z.compare 0 int64_add
                    (map (fun i => (ItemRow.product_id i, ItemRow.qty i)) items)).
  set (names := drop_duplicates pair_eqb
                  (map (fun i => (ItemRow.product_id i, ItemRow.product_name i))
                       items)).
  assert (Hasc : ascending Z.compare summary).
  { apply group_sum_ascending; [apply Z_compare_eq|apply Z.compare_refl|
                                apply Z_compare_lt_trans|apply Z_compare_gt_lt]. }
  apply NoDup_map_NoDup_ForallPairs.
  - intros [[k s] m] [[k' s'] m'] H H' E. cbn [fst snd] in E.
    apply merge_left_In in H, H'. cbn [fst] in H, H'.
    destruct H as [Hs Hm], H' as [Hs' Hm']. inversion E as [[Hk Hn]]. subst k'.
    assert (s = s').
    { apply (ascending_key Z.compare Z_compare_eq Z.compare_refl k s s' summary);
        assumption. }
    subst s'. f_equal.
    destruct m as [[k1 n1]|], m' as [[k2 n2]|]; try discriminate;
      [|reflexivity].
    cbn [option_map snd] in Hn. inversion Hn. subst n2.
    destruct Hm as [_ H1], Hm' as [_ H2]. cbn [fst] in H1, H2.
    apply Z.eqb_eq in H1, H2. congruence.
  - apply merge_left_NoDup.
    + apply (ascending_NoDup Z.compare Z.compare_refl). exact Hasc.
    + apply drop_duplicates_NoDup. apply pair_eqb_eq.
Qed.

Lemma NoDup_same_length {A} (l l' : list A) :
  NoDup l -> NoDup l' -> (forall x, In x l <-> In x l') ->
  List.length l = List.length l'.
Proof.
  intros H H' E. apply Nat.le_antisymm; apply NoDup_incl_length;
    try assumption; intros x Hx; apply E; exact Hx.
Qed.

Lemma best_selling_table_length items :
  List.length
    (merge_left Z.eqb fst fst
       (group_sum Z.compare 0 int64_add
          (map (fun i => (ItemRow.product_id i, ItemRow.qty i)) items))
       (drop_duplicates pair_eqb
          (map (fun i => (ItemRow.product_id i, ItemRow.product_name i))
               items)))
  = List.length (sold_pairs items).
Proof.
  pose proof (best_selling_table_NoDup items) as Hnd.
  rewrite <- (length_map (fun p : Z * string => (fst p, Some (snd p)))
                (sold_pairs items)).
  rewrite <- (length_map (fun r : Z * Z * option (Z * string) =>
                           (fst (fst r), snd (fst r), option_map snd (snd r)))).
  rewrite <- (length_map (fun r : Z * Z * option string => (fst (fst r), snd r))).
  apply NoDup_same_length; [exact Hnd| |].
  - apply NoDup_map_NoDup_ForallPairs.
    + intros [a b] [a' b'] _ _ H. inversion H. reflexivity.
    + apply NoDup_nodup.
  - intros [k m]. rewrite !in_map_iff. split.
    + intros ([[k0 s0] m0] & E & Hin). cbn [fst snd] in E. inversion E; subst.
      apply best_selling_table in Hin. destruct Hin as [_ (i & Hi & Hk & ->)].
      exists (k, ItemRow.product_name i). split; [reflexivity|].
      apply nodup_In. apply in_map_iff. exists i. rewrite Hk. auto.
    + intros ([k0 n] & E & Hin). cbn [fst snd] in E. inversion E; subst.
      apply nodup_In in Hin. apply in_map_iff in Hin.
      destruct Hin as (i & Hi & Hin). inversion Hi; subst.
      exists (ItemRow.product_id i, wrap64 (units_sold (ItemRow.product_id i) items),
              Some (ItemRow.product_name i)).
      split; [reflexivity|]. apply best_selling_table.
      split; [reflexivity|]. exists i. auto.
Qed.

(** X5.  Whatever the sorting routine does with ties,
    [compute_best_selling] returns one row for each (product, name) pair
    of the order items, up to five rows: no pair twice, in descending
    order of [qty].  The [qty] of a row is the number of units of its
    product over all order items as an [int64] sum holds it, wrapped
    around, which is that number when it is in the range of an [int64].
    Every pair of an order item that is not on the list has sold no more
    than each product that is; and the result for the empty frame is
    empty. *)
Theorem best_selling_rows (ties : nat -> nat) (order_items : list ItemRow.t) :
  let res := compute_best_selling ties order_items in
  let sold := fun pid => wrap64 (units_sold pid order_items) in
  (order_items = [] -> res = []) /\
  List.length res = Nat.min 5 (List.length (sold_pairs order_items)) /\
  StronglySorted (fun a b => snd (fst b) <= snd (fst a)) res /\
  NoDup (map (fun r => (fst (fst r), snd r)) res) /\
  Forall (fun r =>
            snd (fst r) = sold (fst (fst r)) /\
            (- 2 ^ 63 <= units_sold (fst (fst r)) order_items < 2 ^ 63 ->
             snd (fst r) = units_sold (fst (fst r)) order_items) /\
            exists i, In i order_items /\
                      ItemRow.product_id i = fst (fst r) /\
                      snd r = Some (ItemRow.product_name i))
         res /\
  (forall i, In i order_items ->
             In (ItemRow.product_id i, sold (ItemRow.product_id i),
                 Some (ItemRow.product_name i)) res \/
             (forall r, In r res -> sold (ItemRow.product_id i) <= snd (fst r))).
Proof.
  cbv zeta. destruct order_items as [|i0 items].
  { simpl. split; [reflexivity|]. split; [reflexivity|]. split; [constructor|].
    split; [constructor|]. split; [constructor|]. intros i []. }
  unfold compute_best_selling. cbv beta iota zeta.
  set (all := i0 :: items).
  set (merged := map (fun r : Z * Z * option (Z * string) =>
                        (fst (fst r), snd (fst r), option_map snd (snd r)))
                     (merge_left Z.eqb fst fst
                        (group_sum Z.compare 0 int64_add
                           (map (fun i => (ItemRow.product_id i, ItemRow.qty i))
                                all))
                        (drop_duplicates pair_eqb
                           (map (fun i => (ItemRow.product_id i,
                                           ItemRow.product_name i)) all)))).
  set (ltb := fun a b : Z * Z * option string => snd (fst a) <? snd (fst b)).
  pose proof (sort_values_desc_perm ltb ties merged) as Hperm.
  assert (Hsorted : StronglySorted (fun a b => snd (fst b) <= snd (fst a))
                      (sort_values_desc ltb ties merged)).
  { apply StronglySorted_weaken with (R := not_below ltb).
    - unfold not_below, ltb. intros a b H. apply Z.ltb_ge in H. exact H.
    - apply sort_values_desc_sorted; unfold ltb; intros; lia. }
  split; [discriminate|]. split.
  { rewrite length_firstn, (Permutation_length Hperm). unfold merged.
    rewrite length_map, best_selling_table_length. reflexivity. }
  split; [apply StronglySorted_firstn; exact Hsorted|]. split.
  { rewrite <- firstn_map. apply NoDup_head.
    eapply Permutation_NoDup;
      [symmetry; apply Permutation_map; exact Hperm|].
    apply best_selling_table_NoDup. }
  split.
  - apply Forall_forall. intros [[k s] m] Hr. cbn [fst snd].
    assert (Hin : In (k, s, m) merged).
    { apply (Permutation_in _ Hperm). rewrite <- (firstn_skipn 5).
      apply in_or_app. left. exact Hr. }
    apply best_selling_table in Hin. destruct Hin as [-> (i & Hi & Hk & ->)].
    split; [reflexivity|]. split; [apply wrap64_small|].
    exists i. auto.
  - intros i Hi.
    assert (Hin : In (ItemRow.product_id i,
                      wrap64 (units_sold (ItemRow.product_id i) all),
                      Some (ItemRow.product_name i))
                     (sort_values_desc ltb ties merged)).
    { apply (Permutation_in _ (Permutation_sym Hperm)).
      apply best_selling_table. split; [reflexivity|]. exists i. auto. }
    rewrite <- (firstn_skipn 5) in Hin. apply in_app_or in Hin.
    destruct Hin as [Hin|Hin]; [left; exact Hin|].
    right. intros r Hr.
    apply (StronglySorted_head_tail _ 5 _ Hsorted r _ Hr Hin).
Qed.

(** On the seeded store four products sold more than one unit and six
    sold one.  Which of the six is fifth is the sort's choice: a sort that
    keeps equal rows in table order lists product 3, one that puts the row
    at place 3 of the table first lists product 4. *)
Example best_selling_seeded_store :
  let items := join_items (seeded_db 0) in
  map (fun r => (fst (fst r), snd (fst r))) (compute_best_selling id items)
  = [(2, 8); (9, 6); (1, 4); (5, 2); (3, 1)] /\
  map (fun r => (fst (fst r), snd (fst r)))
      (compute_best_selling (fun i => if (i =? 3)%nat then O else S i) items)
  = [(2, 8); (9, 6); (1, 4); (5, 2); (4, 1)].
Proof. vm_compute. split; reflexivity. Qed.

(** Two sales of [2^62] units of one product add up to [-2^63] in an
    [int64] column, which puts the product last. *)
Example best_selling_wraps :
  compute_best_selling id
    [ItemRow.mk 1 1 1 (2 ^ 62) 25 "Milk 1L" 20;
     ItemRow.mk 2 1 1 (2 ^ 62) 25 "Milk 1L" 20;
     ItemRow.mk 3 1 2 1 20 "Bread Loaf" 15]
  = [(2, 1, Some "Bread Loaf"%string); (1, - 2 ^ 63, Some "Milk 1L"%string)].
Proof. vm_compute. reflexivity. Qed.

(** ** Float columns and the profit report *)

Lemma SFcompare_rank f1 f2 :
  match SFcompare f1 f2 with
  | None => f1 = S754_nan \/ f2 = S754_nan
  | Some Lt => rank_lt (float_rank f1) (float_rank f2)
  | Some Gt => rank_lt (float_rank f2) (float_rank f1)
  | Some Eq => float_rank f1 = float_rank f2 /\ f1 <> S754_nan
  end.
Proof.
  unfold rank_lt.
  destruct f1 as [s1|s1| |s1 m1 e1], f2 as [s2|s2| |s2 m2 e2];
    try destruct s1; try destruct s2; cbn [SFcompare float_rank fst snd];
    auto; try lia; try (split; [reflexivity|discriminate]).
  - destruct (Z.compare_spec e1 e2) as [E|E|E]; try lia.
    change (PosDef.Pos.compare_cont Eq m1 m2) with (Pos.compare m1 m2).
    destruct (Pos.compare_spec m1 m2) as [E'|E'|E']; cbn [CompOpp]; try lia.
    subst. split; [reflexivity|discriminate].
  - destruct (Z.compare_spec e1 e2) as [E|E|E]; try lia.
    change (PosDef.Pos.compare_cont Eq m1 m2) with (Pos.compare m1 m2).
    destruct (Pos.compare_spec m1 m2) as [E'|E'|E']; try lia.
    subst. split; [reflexivity|discriminate].
Qed.

Lemma is_nan_rank x :
  is_nan x = true <-> fst (fst (float_rank (Prim2SF x))) = -3.
Proof.
  unfold is_nan. rewrite eqb_spec. unfold SFeqb.
  pose proof (SFcompare_rank (Prim2SF x) (Prim2SF x)) as H.
  destruct (SFcompare (Prim2SF x) (Prim2SF x)) as [[| |]|]; cbn [negb].
  - destruct H as [_ H]. split; [discriminate|].
    intros E. destruct (Prim2SF x) as [s|s| |s m e]; try destruct s;
      cbn in E; try lia. congruence.
  - unfold rank_lt in H. lia.
  - unfold rank_lt in H. lia.
  - split; [|reflexivity]. intros _. destruct H as [-> | ->]; reflexivity.
Qed.

Lemma float_rank_class f : -3 <= fst (fst (float_rank f)) <= 2.
Proof. destruct f as [s|s| |s m e]; try destruct s; cbn; lia. Qed.

Lemma float_rank_nan f :
  fst (fst (float_rank f)) = -3 -> float_rank f = (-3, 0, 0).
Proof. destruct f as [s|s| |s m e]; try destruct s; cbn; try lia. reflexivity. Qed.

(** [float_below] is the strict order of the ranks. *)
Lemma float_below_rank a b :
  float_below a b = true
  <-> rank_lt (float_rank (Prim2SF a)) (float_rank (Prim2SF b)).
Proof.
  unfold float_below.
  pose proof (is_nan_rank a) as Ha. pose proof (is_nan_rank b) as Hb.
  pose proof (float_rank_class (Prim2SF a)) as Ca.
  pose proof (float_rank_class (Prim2SF b)) as Cb.
  pose proof (float_rank_nan (Prim2SF a)) as Na.
  pose proof (float_rank_nan (Prim2SF b)) as Nb.
  destruct (is_nan a) eqn:Ea.
  - destruct (is_nan b) eqn:Eb; cbn [negb]; unfold rank_lt.
    + rewrite Na, Nb by (apply Ha + apply Hb; reflexivity). cbn. split; [discriminate|lia].
    + assert (fst (fst (float_rank (Prim2SF b))) <> -3).
      { intros E. apply Hb in E. discriminate. }
      assert (fst (fst (float_rank (Prim2SF a))) = -3) by (apply Ha; reflexivity).
      split; [lia|reflexivity].
  - assert (fst (fst (float_rank (Prim2SF a))) <> -3).
    { intros E. apply Ha in E. discriminate. }
    destruct (is_nan b) eqn:Eb.
    + assert (fst (fst (float_rank (Prim2SF b))) = -3) by (apply Hb; reflexivity).
      unfold rank_lt. split; [discriminate|lia].
    + rewrite ltb_spec. unfold SFltb.
      pose proof (SFcompare_rank (Prim2SF a) (Prim2SF b)) as Hc.
      destruct (SFcompare (Prim2SF a) (Prim2SF b)) as [[| |]|].
      * destruct Hc as [Hc _]. rewrite Hc. unfold rank_lt.
        split; [discriminate|lia].
      * tauto.
      * split; [discriminate|]. unfold rank_lt in *. lia.
      * exfalso. destruct Hc as [Hc|Hc]; rewrite Hc in *; cbn in *; lia.
Qed.

Lemma float_below_asym a b : float_below a b = true -> float_below b a = false.
Proof.
  intros H. apply float_below_rank in H.
  destruct (float_below b a) eqn:E; [|reflexivity].
  apply float_below_rank in E. unfold rank_lt in *. lia.
Qed.

Lemma float_below_trans a b c :
  float_below a b = false -> float_below b c = false -> float_below a c = false.
Proof.
  intros H1 H2. destruct (float_below a c) eqn:E; [|reflexivity].
  apply float_below_rank in E.
  assert (N1 : ~ rank_lt (float_rank (Prim2SF a)) (float_rank (Prim2SF b))).
  { intros H. apply float_below_rank in H. congruence. }
  assert (N2 : ~ rank_lt (float_rank (Prim2SF b)) (float_rank (Prim2SF c))).
  { intros H. apply float_below_rank in H. congruence. }
  unfold rank_lt in *. lia.
Qed.

(** A value that is not below another is at least the other, or the other
    is NaN. *)
Lemma float_below_false a b :
  float_below a b = false -> is_nan b = true \/ (b <=? a)%float = true.
Proof.
  intros H. destruct (is_nan b) eqn:Eb; [left; reflexivity|right].
  unfold float_below in H. rewrite Eb in H.
  destruct (is_nan a) eqn:Ea; [discriminate|].
  rewrite ltb_spec in H. rewrite leb_spec. unfold SFltb in H. unfold SFleb.
  pose proof (SFcompare_rank (Prim2SF a) (Prim2SF b)) as Hab.
  pose proof (SFcompare_rank (Prim2SF b) (Prim2SF a)) as Hba.
  assert (Na : fst (fst (float_rank (Prim2SF a))) <> -3).
  { intros E. apply is_nan_rank in E. congruence. }
  assert (Nb : fst (fst (float_rank (Prim2SF b))) <> -3).
  { intros E. apply is_nan_rank in E. congruence. }
  assert (Hnan : forall x, fst (fst (float_rank x)) <> -3 -> x <> S754_nan).
  { intros x Hx ->. apply Hx. reflexivity. }
  apply Hnan in Na, Nb.
  destruct (SFcompare (Prim2SF b) (Prim2SF a)) as [[| |]|]; try reflexivity;
    exfalso.
  - destruct (SFcompare (Prim2SF a) (Prim2SF b)) as [[| |]|]; try discriminate.
    + destruct Hab as [Hab _]. rewrite Hab in Hba. unfold rank_lt in Hba. lia.
    + unfold rank_lt in *. lia.
    + tauto.
  - tauto.
Qed.

Lemma pair_compare_eq a b : pair_compare a b = Eq -> a = b.
Proof.
  destruct a as [x s], b as [y t]. unfold pair_compare. simpl.
  destruct (Z.compare_spec x y) as [Exy|Exy|Exy]; try discriminate.
  intros Hs. apply String_as_OT.cmp_eq in Hs. congruence.
Qed.

Lemma pair_compare_refl a : pair_compare a a = Eq.
Proof.
  destruct a as [x s]. unfold pair_compare. simpl. rewrite Z.compare_refl.
  apply String_as_OT.cmp_eq. reflexivity.
Qed.

Lemma pair_compare_lt_trans a b c :
  pair_compare a b = Lt -> pair_compare b c = Lt -> pair_compare a c = Lt.
Proof.
  destruct a as [x s], b as [y t], c as [z u]. unfold pair_compare. simpl.
  destruct (Z.compare_spec x y) as [Exy|Exy|Exy],
           (Z.compare_spec y z) as [Eyz|Eyz|Eyz]; try discriminate;
    intros H1 H2; subst.
  - rewrite Z.compare_refl. apply String_as_OT.cmp_lt.
    apply String_as_OT.cmp_lt in H1, H2. eapply String_as_OT.lt_trans; eassumption.
  - apply Z.compare_lt_iff in Eyz. rewrite Eyz. reflexivity.
  - apply Z.compare_lt_iff in Exy. rewrite Exy. reflexivity.
  - assert (Exz : x < z) by lia. apply Z.compare_lt_iff in Exz. rewrite Exz.
    reflexivity.
Qed.

Lemma pair_compare_gt_lt a b : pair_compare a b = Gt -> pair_compare b a = Lt.
Proof.
  destruct a as [x s], b as [y t]. unfold pair_compare. simpl.
  destruct (Z.compare_spec x y) as [Exy|Exy|Exy],
           (Z.compare_spec y x) as [Eyx|Eyx|Eyx]; try discriminate; try lia;
    intros Hs; try reflexivity.
  rewrite String.compare_antisym, Hs. reflexivity.
Qed.

Lemma pair_compare_eqb a b : is_eq (pair_compare a b) = pair_eqb a b.
Proof.
  destruct (pair_eqb a b) eqn:E.
  - apply pair_eqb_eq in E. subst b. rewrite pair_compare_refl. reflexivity.
  - destruct (pair_compare a b) eqn:E'; try reflexivity.
    apply pair_compare_eq in E'. subst b.
    assert (pair_eqb a a = true) by (apply pair_eqb_eq; reflexivity).
    congruence.
Qed.

Lemma values_of_profits k items :
  values_of pair_compare k
    (map (fun r : ItemRow.t * float =>
            ((ItemRow.product_id (fst r), ItemRow.product_name (fst r)), snd r))
         (combine items (profit_column items)))
  = map item_profit
        (filter (fun i => pair_eqb k (ItemRow.product_id i, ItemRow.product_name i))
                items).
Proof.
  unfold profit_column. rewrite combine_map_same, map_map. cbn [fst snd].
  unfold values_of, rows_of.
  induction items as [|i items IH]; [reflexivity|].
  cbn [map filter fst]. rewrite pair_compare_eqb.
  destruct (pair_eqb k (ItemRow.product_id i, ItemRow.product_name i));
    cbn [map snd]; rewrite IH; reflexivity.
Qed.

(** The rows of the grouped profits: one per (product, name) pair of the
    order items, with the compensated sum of the profits of its items. *)
Lemma profit_summary_row items k n p :
  In (k, n, p) (profit_summary (combine items (profit_column items)))
  <-> p = profit_of k n items /\
      exists i, In i items /\ ItemRow.product_id i = k /\
                ItemRow.product_name i = n.
Proof.
  unfold profit_summary.
  set (kv := map (fun r : ItemRow.t * float =>
                    ((ItemRow.product_id (fst r), ItemRow.product_name (fst r)),
                     snd r))
                 (combine items (profit_column items))).
  pose proof (group_sum_rows pair_compare (0%float, 0%float) kahan_step
                pair_compare_eq pair_compare_refl pair_compare_lt_trans
                pair_compare_gt_lt kv (k, n)) as Hrows.
  unfold kv in Hrows at 2. rewrite values_of_profits in Hrows.
  set (mine := filter (fun i => pair_eqb (k, n)
                                  (ItemRow.product_id i, ItemRow.product_name i))
                      items) in *.
  assert (Hmine : forall i, In i mine <->
                    In i items /\ ItemRow.product_id i = k /\
                    ItemRow.product_name i = n).
  { intros i. unfold mine. rewrite filter_In, pair_eqb_eq. split.
    - intros [Hi E]. inversion E. auto.
    - intros (Hi & <- & <-). auto. }
  rewrite in_map_iff. split.
  - intros ([k0 s] & E & Hin). cbn [fst snd] in E. inversion E; subst. clear E.
    apply (In_rows_of pair_compare pair_compare_refl) in Hin.
    rewrite Hrows in Hin.
    destruct mine as [|i0 rest] eqn:Em; [destruct Hin|].
    destruct Hin as [Hin|[]]. injection Hin as <-. split.
    + unfold profit_of, kahan_sum. fold mine. rewrite Em. reflexivity.
    + exists i0. apply Hmine. left. reflexivity.
  - intros [-> (i & Hi)]. apply Hmine in Hi.
    exists ((k, n), fold_left kahan_step (map item_profit mine) (0%float, 0%float)).
    split; [reflexivity|].
    assert (Hr : In ((k, n), fold_left kahan_step (map item_profit mine)
                               (0%float, 0%float))
                    (rows_of pair_compare (k, n)
                       (group_sum pair_compare (0%float, 0%float) kahan_step kv))).
    { rewrite Hrows. destruct mine as [|i0 rest]; [destruct Hi|].
      left. reflexivity. }
    unfold rows_of in Hr. apply filter_In in Hr. apply Hr.
Qed.

Lemma profit_summary_NoDup items :
  NoDup (map fst (profit_summary (combine items (profit_column items)))).
Proof.
  unfold profit_summary. rewrite map_map. cbn [fst].
  set (g := group_sum pair_compare (0%float, 0%float) kahan_step _).
  assert (Hasc : ascending pair_compare g).
  { apply group_sum_ascending; [apply pair_compare_eq|apply pair_compare_refl|
                                apply pair_compare_lt_trans|apply pair_compare_gt_lt]. }
  apply NoDup_map_NoDup_ForallPairs.
  - intros [k s] [k' s'] H H' E. cbn [fst] in E. subst k'. f_equal.
    apply (ascending_key pair_compare pair_compare_eq pair_compare_refl k s s' g);
      assumption.
  - apply (ascending_NoDup pair_compare pair_compare_refl). exact Hasc.
Qed.

Lemma profit_summary_length items :
  List.length (profit_summary (combine items (profit_column items)))
  = List.length (sold_pairs items).
Proof.
  rewrite <- (length_map fst).
  apply NoDup_same_length; [apply profit_summary_NoDup|apply NoDup_nodup|].
  intros [k n]. unfold sold_pairs. rewrite nodup_In, !in_map_iff. split.
  - intros ([[k0 n0] p] & E & Hin). cbn [fst] in E. inversion E; subst.
    apply profit_summary_row in Hin. destruct Hin as [_ (i & Hi & <- & <-)].
    exists i. auto.
  - intros (i & E & Hi). inversion E; subst.
    exists (ItemRow.product_id i, ItemRow.product_name i,
            profit_of (ItemRow.product_id i) (ItemRow.product_name i) items).
    split; [reflexivity|]. apply profit_summary_row.
    split; [reflexivity|]. exists i. auto.
Qed.

(** X6.  Whatever the sorting routine does with ties,
    [compute_top_profit_products] returns one row for each (product,
    name) pair of the order items, up to five rows, no pair twice.  The
    [profit] of a row is the [float64] sum that pandas computes for the
    group: the compensated sum, in row order, of the [float64] values
    [(unit_price - cost_price) * qty] of the items of that product and
    name.  The rows are in descending order of [profit] with NaN last:
    a later row's profit is NaN or at most the earlier row's; and so is
    the profit of every pair that is not on the list with respect to each
    row of the list.  The result for the empty frame is empty. *)
Theorem top_profit_rows (ties : nat -> nat) (order_items : list ItemRow.t) :
  let res := compute_top_profit_products ties order_items in
  let profit := fun i => profit_of (ItemRow.product_id i)
                                   (ItemRow.product_name i) order_items in
  let not_above := fun a b : float =>
                     is_nan a = true \/ (a <=? b)%float = true in
  (order_items = [] -> res = []) /\
  List.length res = Nat.min 5 (List.length (sold_pairs order_items)) /\
  StronglySorted (fun a b => not_above (snd b) (snd a)) res /\
  NoDup (map fst res) /\
  Forall (fun r =>
            exists i, In i order_items /\
                      r = (ItemRow.product_id i, ItemRow.product_name i,
                           profit i))
         res /\
  (forall i, In i order_items ->
             In (ItemRow.product_id i, ItemRow.product_name i, profit i) res \/
             (forall r, In r res -> not_above (profit i) (snd r))).
Proof.
  cbv zeta. destruct order_items as [|i0 items].
  { simpl. split; [reflexivity|]. split; [reflexivity|]. split; [constructor|].
    split; [constructor|]. split; [constructor|]. intros i []. }
  unfold compute_top_profit_products. cbv beta iota zeta.
  set (all := i0 :: items).
  set (summary := profit_summary (combine all (profit_column all))).
  set (ltb := fun a b : Z * string * float => float_below (snd a) (snd b)).
  pose proof (sort_values_desc_perm ltb ties summary) as Hperm.
  assert (Hsorted : StronglySorted
                      (fun a b => is_nan (snd b) = true
                                  \/ (snd b <=? snd a)%float = true)
                      (sort_values_desc ltb ties summary)).
  { apply StronglySorted_weaken with (R := not_below ltb).
    - unfold not_below, ltb. intros a b H. apply float_below_false. exact H.
    - apply sort_values_desc_sorted; unfold ltb; intros.
      + apply float_below_asym. assumption.
      + eapply float_below_trans; eassumption. }
  split; [discriminate|]. split.
  { rewrite length_firstn, (Permutation_length Hperm). unfold summary.
    rewrite profit_summary_length. reflexivity. }
  split; [apply StronglySorted_firstn; exact Hsorted|]. split.
  { rewrite <- firstn_map. apply NoDup_head.
    eapply Permutation_NoDup;
      [symmetry; apply Permutation_map; exact Hperm|].
    apply profit_summary_NoDup. }
  split.
  - apply Forall_forall. intros [[k n] p] Hr.
    assert (Hin : In (k, n, p) summary).
    { apply (Permutation_in _ Hperm). rewrite <- (firstn_skipn 5).
      apply in_or_app. left. exact Hr. }
    apply profit_summary_row in Hin. destruct Hin as [-> (i & Hi & <- & <-)].
    exists i. auto.
  - intros i Hi.
    assert (Hin : In (ItemRow.product_id i, ItemRow.product_name i,
                      profit_of (ItemRow.product_id i) (ItemRow.product_name i) all)
                     (sort_values_desc ltb ties summary)).
    { apply (Permutation_in _ (Permutation_sym Hperm)).
      apply profit_summary_row. split; [reflexivity|]. exists i. auto. }
    rewrite <- (firstn_skipn 5) in Hin. apply in_app_or in Hin.
    destruct Hin as [Hin|Hin]; [left; exact Hin|].
    right. intros r Hr.
    apply (StronglySorted_head_tail _ 5 _ Hsorted r _ Hr Hin).
Qed.

(** Prices that are no binary fractions: three units bought at 0.1 and
    sold at 0.3 make the profit that binary64 makes of them (the number
    Python prints as 0.6), and one more unit makes it 0.7999999999999999. *)
Example top_profit_is_binary64 :
  compute_top_profit_products id
    [ItemRow.mk 1 1 1 3 0.3 "Candy" 0.1;
     ItemRow.mk 2 1 2 1 0.7 "Gum" 0.1;
     ItemRow.mk 3 2 1 1 0.3 "Candy" 0.1]
  = [(1, "Candy"%string, ((0.3 - 0.1) * 3 + (0.3 - 0.1))%float);
     (2, "Gum"%string, (0.7 - 0.1)%float)] /\
  ((0.3 - 0.1) * 3)%float = 0.6%float /\
  ((0.3 - 0.1) * 3 + (0.3 - 0.1))%float = 0.7999999999999999%float.
Proof. vm_compute. repeat split; reflexivity. Qed.

(** ** The loaded frames *)

Lemma unique_product P pid :
  NoDup (map Product.id P) ->
  In pid (map Product.id P) ->
  exists p, filter (fun p => pid =? Product.id p) P = [p] /\ Product.id p = pid.
Proof.
  induction P as [|p P IH]; simpl; [tauto|].
  intros Hnd Hin. apply NoDup_cons_iff in Hnd. destruct Hnd as [Hnotin Hnd].
  destruct (pid =? Product.id p) eqn:E.
  - apply Z.eqb_eq in E. exists p. split; [|congruence]. f_equal.
    apply filter_none. apply Forall_forall. intros q Hq.
    apply Z.eqb_neq. intros Heq. apply Hnotin. rewrite <- E, Heq.
    apply in_map. exact Hq.
  - apply Z.eqb_neq in E. destruct Hin as [Hin|Hin]; [congruence|].
    apply IH; assumption.
Qed.

Lemma reachable_products_unique d :
  reachable d ->
  NoDup (map Product.id (products d)) /\
  Forall (fun i => In (OrderItem.product_id i) (map Product.id (products d)))
         (order_items d).
Proof.
  intros Hd. destruct (reachable_linked d Hd) as ((Kp & _) & _ & Hp & _).
  unfold priced in Hp.
  split; [apply Kp|]. eapply Forall_impl; [|exact Hp].
  intros i Hi. eapply price_of_some_in. exact Hi.
Qed.

(** X7.  On every store the script can reach, [load_tables] (no engine
    fault) returns the [products] and [orders] tables as they are and an
    [order_items] frame with exactly one row per order item, in table
    order, carrying the item's columns and the name and cost of a product
    with the item's [product_id]; it leaves the connection as it was. *)
Theorem load_tables_on_reachable_store (d : db) (Hd : reachable d) :
  load_tables (get_conn d [])
  = (Ok (products d, OrdersFrame.mk (orders d) None, join_items d),
     get_conn d []) /\
  map item_of_row (join_items d) = order_items d /\
  Forall (fun r =>
            exists p, In p (products d) /\
                      Product.id p = ItemRow.product_id r /\
                      Product.name p = ItemRow.product_name r /\
                      Product.cost_price p = ItemRow.cost_price r)
         (join_items d).
Proof.
  split; [apply load_tables_quiet; reflexivity|].
  destruct (reachable_products_unique d Hd) as [Hnd Href].
  unfold join_items. split.
  - induction (order_items d) as [|oi ois IH]; [reflexivity|].
    inversion Href as [|x l Hoi Hrest]; subst. cbn [flat_map].
    rewrite map_app, (IH Hrest).
    destruct (unique_product _ _ Hnd Hoi) as (p & Ep & _). rewrite Ep.
    destruct oi; reflexivity.
  - apply Forall_forall. intros r Hr. apply in_flat_map in Hr.
    destruct Hr as (oi & _ & Hr). apply in_map_iff in Hr.
    destruct Hr as (p & <- & Hp). apply filter_In in Hp. destruct Hp as [Hp Heq].
    apply Z.eqb_eq in Heq. exists p. simpl. auto.
Qed.

Lemma load_tables_on_reachable_store_witness :
  load_tables (get_conn overdrawn_db [])
  = (Ok (products overdrawn_db, OrdersFrame.mk (orders overdrawn_db) None,
         join_items overdrawn_db),
     get_conn overdrawn_db []) /\
  map item_of_row (join_items overdrawn_db) = order_items overdrawn_db /\
  Forall (fun r =>
            exists p, In p (products overdrawn_db) /\
                      Product.id p = ItemRow.product_id r /\
                      Product.name p = ItemRow.product_name r /\
                      Product.cost_price p = ItemRow.cost_price r)
         (join_items overdrawn_db).
Proof.
  exact (load_tables_on_reachable_store overdrawn_db overdrawn_db_reachable).
Defined.

(** ** The dashboard *)

(** X8.  Viewing the dashboard writes nothing: whatever the engine does,
    the committed database and the connection's view are what they were.
    Without an engine fault the run fails, with [KeyError], exactly when
    the [orders] table is empty (the hourly report then has no [hour]
    column for the chart); otherwise it returns the four reports, the
    hourly one with its 24 rows, the two ranking reports with the
    choices [ties_qty] and [ties_profit] that their sorts make among
    equal rows. *)
Theorem dashboard_read_only ties_qty ties_profit now c r c'
    (Hrun : dashboard_run ties_qty ties_profit now c = (r, c')) :
  committed c' = committed c /\
  pending c' = pending c /\
  (quiet c ->
   (orders (pending c) = [] -> r = Raise KeyError) /\
   (orders (pending c) <> [] ->
    exists best profit per_hour low,
      r = Ok (best, profit, per_hour, low) /\
      List.length per_hour = 24%nat /\
      best = compute_best_selling ties_qty (join_items (pending c)) /\
      profit = compute_top_profit_products ties_profit (join_items (pending c)) /\
      low = compute_low_stock (committed c) now (products (pending c))
              (join_items (pending c)) 2)).
Proof.
  unfold dashboard_run in Hrun.
  assert (Hviews : committed c' = committed c /\ pending c' = pending c).
  { apply bind_inv in Hrun. destruct Hrun as [(e & H & _)|(t & c1 & E1 & H)].
    - apply load_tables_inv in H. tauto.
    - apply load_tables_inv in E1. apply dashboard_inv in H.
      destruct H as [-> _]. tauto. }
  split; [tauto|]. split; [tauto|]. intros Hq.
  rewrite (bind_ok _ _ _ _ _ (load_tables_quiet c Hq)) in Hrun.
  unfold dashboard in Hrun.
  destruct (orders (pending c)) as [|o rows] eqn:Eo.
  - simpl in Hrun. inversion Hrun. split; [reflexivity|congruence].
  - split; [discriminate|]. intros _.
    pose proof (customers_per_hour_table o rows None) as Ht.
    destruct (compute_customers_per_hour (OrdersFrame.mk (o :: rows) None))
      as [frame per_hour]. cbn [snd] in Ht. subst per_hour.
    cbn [hours_of_day seq map] in Hrun. inversion Hrun; subst.
    eexists _, _, _, _. split; [reflexivity|]. simpl. auto.
Qed.

Lemma dashboard_read_only_witness :
  committed (snd (dashboard_run id id 0 seeded_conn)) = committed seeded_conn /\
  pending (snd (dashboard_run id id 0 seeded_conn)) = pending seeded_conn /\
  fst (dashboard_run id id 0 (get_conn empty_db [])) = Raise KeyError.
Proof.
  destruct (dashboard_read_only id id 0 seeded_conn _ _ (surjective_pairing _))
    as (Hc & Hp & _).
  split; [exact Hc|]. split; [exact Hp|].
  destruct (dashboard_read_only id id 0 (get_conn empty_db []) _ _
              (surjective_pairing _))
    as (_ & _ & Hq).
  apply (proj1 (Hq eq_refl)). reflexivity.
Defined.

(** ** Manage Products *)

(** X9.  "Update Stock" with no engine fault returns normally and commits;
    it adds the quantity to the stock of the products with the given key
    and changes nothing else, in any table; for a key no product has it
    changes nothing at all, and still returns normally. *)
Theorem add_stock_effect pid add_qty c (Hq : quiet c) :
  exists c',
    add_stock pid add_qty c = (Ok tt, c') /\
    committed c' = pending c' /\
    orders (pending c') = orders (pending c) /\
    order_items (pending c') = order_items (pending c) /\
    Forall2 (fun p p' =>
               Product.id p' = Product.id p /\
               Product.name p' = Product.name p /\
               Product.cost_price p' = Product.cost_price p /\
               Product.selling_price p' = Product.selling_price p /\
               Product.stock_qty p'
               = if Product.id p =? pid then Product.stock_qty p + add_qty
                 else Product.stock_qty p)
            (products (pending c)) (products (pending c')) /\
    (price_of (products (pending c)) pid = None -> pending c' = pending c).
Proof.
  unfold add_stock.
  rewrite (bind_ok _ _ _ _ _ (execute_quiet _ c Hq)).
  rewrite commit_quiet by reflexivity. simpl.
  eexists. split; [reflexivity|]. simpl.
  split; [reflexivity|]. split; [reflexivity|]. split; [reflexivity|]. split.
  - apply Forall2_map_same. intros p. unfold set_stock.
    destruct (Product.id p =? pid); simpl; auto.
  - intros Hnone. unfold update_products.
    rewrite set_stock_missing by exact Hnone. destruct (pending c); reflexivity.
Qed.

Lemma add_stock_effect_witness :
  exists c',
    add_stock 99 5 seeded_conn = (Ok tt, c') /\
    pending c' = pending seeded_conn.
Proof.
  destruct (add_stock_effect 99 5 seeded_conn eq_refl)
    as (c' & E & _ & _ & _ & _ & Hnone).
  exists c'. split; [exact E|]. apply Hnone. vm_compute. reflexivity.
Defined.

Lemma price_of_snoc_new P seq new :
  Forall (fun p => Product.id p <= seq) P ->
  Product.id new = seq + 1 ->
  price_of (P ++ [new]) (seq + 1) = Some (Product.selling_price new).
Proof.
  intros Hk Hid. unfold price_of. induction Hk as [|p P Hp _ IH]; simpl.
  - rewrite Hid, Z.eqb_refl. reflexivity.
  - destruct (Product.id p =? seq + 1) eqn:E; [|exact IH].
    apply Z.eqb_eq in E. lia.
Qed.

Lemma price_of_snoc_other P new pid :
  pid <> Product.id new -> price_of (P ++ [new]) pid = price_of P pid.
Proof.
  intros Hne. unfold price_of. induction P as [|p P IH]; simpl.
  - apply Z.eqb_neq in Hne. rewrite Z.eqb_sym, Hne. reflexivity.
  - destruct (Product.id p =? pid); [reflexivity|exact IH].
Qed.

(** X10.  "Add Product" with no engine fault, on a table whose keys are
    not above its counter, returns normally and commits; the table gets
    one more row, last, under the next key; looking that key up finds the
    new selling price, and looking any other key up finds what it found
    before. *)
Theorem add_product_then_lookup pname cost sell stock c
    (Hq : quiet c)
    (Hkeys : Forall (fun p => Product.id p <= seq_products (pending c))
                    (products (pending c))) :
  exists c',
    add_product pname cost sell stock c = (Ok tt, c') /\
    committed c' = pending c' /\
    products (pending c') =
      products (pending c)
      ++ [Product.mk (seq_products (pending c) + 1) pname cost sell stock] /\
    orders (pending c') = orders (pending c) /\
    order_items (pending c') = order_items (pending c) /\
    fst (select_selling_price (seq_products (pending c) + 1) (pending c'))
    = Some sell /\
    (forall pid, pid <> seq_products (pending c) + 1 ->
                 fst (select_selling_price pid (pending c'))
                 = fst (select_selling_price pid (pending c))).
Proof.
  unfold add_product.
  rewrite (bind_ok _ _ _ _ _ (execute_quiet _ c Hq)).
  rewrite commit_quiet by reflexivity. simpl.
  eexists. split; [reflexivity|]. simpl.
  split; [reflexivity|]. split; [reflexivity|]. split; [reflexivity|].
  split; [reflexivity|].
  split.
  - apply price_of_snoc_new; [exact Hkeys|reflexivity].
  - intros pid Hne. apply price_of_snoc_other. exact Hne.
Qed.

Lemma add_product_then_lookup_witness :
  exists c',
    add_product "Butter" 40 52 6 seeded_conn = (Ok tt, c') /\
    fst (select_selling_price 11 (pending c')) = Some 52%float /\
    fst (select_selling_price 1 (pending c')) = Some 25%float.
Proof.
  destruct (add_product_then_lookup "Butter" 40 52 6 seeded_conn eq_refl)
    as (c' & E & _ & _ & _ & _ & Hnew & Hold).
  - vm_compute. repeat constructor; discriminate.
  - exists c'. split; [exact E|]. split.
    + exact Hnew.
    + rewrite Hold; [vm_compute; reflexivity|vm_compute; discriminate].
Defined.

(** ** Staging *)

Lemma price_of_in P pid :
  In pid (map Product.id P) -> price_of P pid <> None.
Proof.
  unfold price_of. induction P as [|p P IH]; simpl; [tauto|].
  destruct (Product.id p =? pid) eqn:E; [discriminate|].
  intros [H|H]; [apply Z.eqb_neq in E; congruence|apply IH; exact H].
Qed.

(** X11.  "Add Item" touches neither the store nor the connection; it
    ends the run with the cart longer by exactly one line, for the product
    chosen in the select box (and with the cart as it was for a choice
    that is no row of the frame, which the select box does not offer),
    whatever the cart holds.  If every staged product is a product of the
    loaded frame before, so it is after, and the bill of the cart can be
    drawn up (no [IndexError]) with one bill line per staged line. *)
Theorem add_item_keeps_cart_billable products_df items psel qty cust order_time c :
  exists items',
    add_order_page products_df items (AddItem psel qty) cust order_time c
    = (Ok (match products_df with [] => NoProducts | _ => Rerun end, items'), c) /\
    items' = match nth_error products_df psel with
             | Some p => items ++ [(Product.id p, qty)]
             | None => items
             end /\
    (Forall (fun item => In (fst item) (map Product.id products_df)) items ->
     Forall (fun item => In (fst item) (map Product.id products_df)) items' /\
     exists lines,
       bill_lines products_df items' = Some lines /\
       List.length lines = List.length items').
Proof.
  set (items' := match nth_error products_df psel with
                 | Some p => items ++ [(Product.id p, qty)]
                 | None => items
                 end).
  exists items'. split; [|split; [reflexivity|]].
  - unfold add_order_page, items'.
    destruct products_df as [|p0 ps].
    + destruct psel; reflexivity.
    + destruct (nth_error (p0 :: ps) psel); reflexivity.
  - intros Hcart.
    assert (Hcart' : Forall (fun item => In (fst item) (map Product.id products_df))
                            items').
    { unfold items'. destruct (nth_error products_df psel) as [p|] eqn:En;
        [|exact Hcart].
      apply Forall_app. split; [exact Hcart|]. constructor; [|constructor].
      simpl. apply in_map. eapply nth_error_In. exact En. }
    split; [exact Hcart'|].
    destruct (bill_lines_found products_df items') as (lines & Hb & Hl & _).
    + eapply Forall_impl; [|exact Hcart']. intros item. apply price_of_in.
    + exists lines. auto.
Qed.

Lemma add_item_keeps_cart_billable_witness :
  exists items',
    add_order_page (products (seeded_db 0)) [(1, 2)] (AddItem 1 1) "Walk-in" 0
      seeded_conn
    = (Ok (Rerun, items'), seeded_conn) /\
    items' = [(1, 2); (2, 1)] /\
    exists lines,
      bill_lines (products (seeded_db 0)) items' = Some lines /\
      List.length lines = List.length items'.
Proof.
  destruct (add_item_keeps_cart_billable (products (seeded_db 0)) [(1, 2)] 1 1
              "Walk-in" 0 seeded_conn)
    as (items' & E & Hi & Hb).
  exists items'. split; [|split].
  - rewrite E. vm_compute. reflexivity.
  - rewrite Hi. vm_compute. reflexivity.
  - apply Hb. constructor; [vm_compute; tauto|constructor].
Defined.

(** ** Seeding again *)

Lemma seed_forced_from_counters now c :
  quiet c ->
  seed_dummy_data now true c
  = (commit ;;;
     forM_ seed_products (fun '(name, cost, sell, stock) =>
                            execute (insert_product name cost sell stock)) ;;;
     commit ;;;
     forM_ (sample_orders now) seed_order ;;;
     commit)
      (mkconn (delete_all (pending c)) (delete_all (pending c)) []).
Proof.
  intros Hq. unfold seed_dummy_data.
  rewrite (bind_ok _ _ _ _ _ (execute_quiet _ c Hq)).
  cbn [count_products fst snd negb]. rewrite andb_false_r.
  unfold seed_with.
  erewrite bind_ok by (apply executescript_quiet; reflexivity).
  reflexivity.
Qed.

(** X12.  A forced seeding (no engine fault) discards every row it finds:
    its outcome, and the store it leaves, depend on the store before only
    through the three key counters. *)
Theorem forced_seed_forgets_rows now c1 c2
    (Hq1 : quiet c1) (Hq2 : quiet c2)
    (Hp : seq_products (pending c1) = seq_products (pending c2))
    (Ho : seq_orders (pending c1) = seq_orders (pending c2))
    (Hi : seq_order_items (pending c1) = seq_order_items (pending c2)) :
  seed_dummy_data now true c1 = seed_dummy_data now true c2.
Proof.
  rewrite !seed_forced_from_counters by assumption.
  unfold delete_all. rewrite Hp, Ho, Hi. reflexivity.
Qed.

Lemma forced_seed_forgets_rows_witness :
  seed_dummy_data 0 true seeded_conn
  = seed_dummy_data 0 true (get_conn (mkdb [] [] [] 10 7 15) []).
Proof.
  apply (forced_seed_forgets_rows 0 seeded_conn
           (get_conn (mkdb [] [] [] 10 7 15) []));
    vm_compute; reflexivity.
Defined.

(** ** The products a seeding leaves *)

Lemma seed_orders_products samples :
  forall c u c',
    forM_ samples seed_order c = (Ok u, c') ->
    products (pending c') = map (deduct_samples samples) (products (pending c)).
Proof.
  induction samples as [|[[cust otime] lines] samples IH]; intros c u c' H;
    simpl in H.
  - inversion H; subst. symmetry. apply map_id.
  - bind_ok_inv H u1 c1 E1. apply seed_order_products in E1.
    apply IH in H. rewrite H, E1, map_map. reflexivity.
Qed.

Lemma insert_all_products prods :
  forall d,
    products (insert_all prods d)
    = products d ++ new_products (seq_products d) prods.
Proof.
  unfold insert_all.
  induction prods as [|[[[name cost] sell] stock] prods IH]; intros d;
    cbn [fold_left new_products].
  - rewrite app_nil_r. reflexivity.
  - rewrite IH. cbn [insert_product snd products seq_products].
    rewrite <- app_assoc. reflexivity.
Qed.

Lemma deduct_lines_bounds lines p :
  Forall (fun line => 0 <= snd line) lines ->
  0 <= Product.stock_qty p ->
  0 <= Product.stock_qty (deduct_lines lines p) <= Product.stock_qty p.
Proof.
  intros Hq Hs. rewrite deduct_lines_stock.
  assert (Hqs : Forall (fun q => 0 <= q) (staged_qtys (Product.id p) lines)).
  { unfold staged_qtys. apply Forall_map. apply Forall_forall.
    intros line Hin. apply filter_In in Hin. rewrite Forall_forall in Hq.
    apply Hq. tauto. }
  rewrite fold_deduct_clamped by assumption.
  assert (Hz : 0 <= zsum (staged_qtys (Product.id p) lines)).
  { induction Hqs as [|x qs Hx _ IHq]; simpl; lia. }
  lia.
Qed.

Lemma deduct_samples_facts samples :
  Forall (fun s => Forall (fun line => 0 <= snd line) (snd s)) samples ->
  forall p,
    Product.id (deduct_samples samples p) = Product.id p /\
    Product.name (deduct_samples samples p) = Product.name p /\
    Product.cost_price (deduct_samples samples p) = Product.cost_price p /\
    Product.selling_price (deduct_samples samples p) = Product.selling_price p /\
    (0 <= Product.stock_qty p ->
     0 <= Product.stock_qty (deduct_samples samples p) <= Product.stock_qty p).
Proof.
  unfold deduct_samples.
  induction 1 as [|s samples Hs _ IH]; intros p; cbn [fold_left].
  - repeat split; auto; lia.
  - destruct (IH (deduct_lines (snd s) p)) as (H1 & H2 & H3 & H4 & H5).
    destruct (deduct_lines_fields (snd s) p) as (G1 & G2 & G3 & G4).
    rewrite H1, H2, H3, H4. repeat (split; [assumption|]).
    intros H0. pose proof (deduct_lines_bounds (snd s) p Hs H0) as Hb.
    specialize (H5 (proj1 Hb)). lia.
Qed.

Lemma sample_orders_qtys now :
  Forall (fun s => Forall (fun line => 0 <= snd line) (snd s)) (sample_orders now).
Proof.
  unfold sample_orders.
  repeat (constructor; [cbn [snd]; repeat (constructor; [cbn [snd]; lia|]);
                        constructor|]).
  constructor.
Qed.

Lemma Forall2_new_products seq prods :
  Forall (fun listed => 0 <= snd listed) prods ->
  Forall2 (fun listed p =>
             0 <= snd listed /\
             Product.name p = fst (fst (fst listed)) /\
             Product.cost_price p = snd (fst (fst listed)) /\
             Product.selling_price p = snd (fst listed) /\
             Product.stock_qty p = snd listed)
          prods (new_products seq prods).
Proof.
  intros H. revert seq.
  induction H as [|[[[name cost] sell] stock] prods Hs _ IH];
    intros seq; cbn [new_products]; constructor; [simpl in *; auto|apply IH].
Qed.

Lemma Forall2_map_r {A B C} (R : A -> C -> Prop) (f : B -> C) l1 l2 :
  Forall2 (fun a b => R a (f b)) l1 l2 -> Forall2 R l1 (map f l2).
Proof. induction 1; simpl; constructor; auto. Qed.

Lemma seed_with_products prods samples c u c' :
  seed_with prods samples c = (Ok u, c') ->
  products (committed c')
  = map (deduct_samples samples) (new_products (seq_products (pending c)) prods).
Proof.
  unfold seed_with. intros E.
  bind_ok_inv E u1 c1 E1. bind_ok_inv E u2 c2 E2. bind_ok_inv E u3 c3 E3.
  bind_ok_inv E u4 c4 E4. bind_ok_inv E u5 c5 E5.
  apply executescript_ok_inv in E1. destruct E1 as [_ Hp1].
  rewrite apply_delete_script in Hp1.
  apply commit_ok_inv in E2, E4, E.
  destruct E2 as [_ Hp2], E4 as [_ Hp4], E as [Hc6 _].
  apply insert_all_ok in E3. destruct E3 as [_ Hp3].
  apply seed_orders_products in E5.
  rewrite Hc6, E5, Hp4, Hp3, Hp2, Hp1, insert_all_products. reflexivity.
Qed.

(** X13.  A run of the loader that seeds (forced, or on an empty
    [products] table; no engine fault) leaves exactly the ten listed
    products, in the order of the list, under the ten keys after the old
    counter, each with its listed name, cost and selling price and with a
    stock between 0 and its listed stock. *)
Theorem seeding_leaves_listed_products now force c
    (Hq : quiet c)
    (Hseed : force = true \/ products (pending c) = []) :
  exists c',
    seed_dummy_data now force c = (Ok tt, c') /\
    map Product.id (products (committed c'))
    = map (fun k => seq_products (pending c) + k) [1; 2; 3; 4; 5; 6; 7; 8; 9; 10] /\
    Forall2 (fun listed p =>
               Product.name p = fst (fst (fst listed)) /\
               Product.cost_price p = snd (fst (fst listed)) /\
               Product.selling_price p = snd (fst listed) /\
               0 <= Product.stock_qty p <= snd listed)
            seed_products (products (committed c')).
Proof.
  destruct (runs_unit _ c (runs_seed now force) Hq) as (c' & E & _).
  exists c'. split; [exact E|].
  assert (Hprod : products (committed c')
                  = map (deduct_samples (sample_orders now))
                        (new_products (seq_products (pending c)) seed_products)).
  { unfold seed_dummy_data in E.
    rewrite (bind_ok _ _ _ _ _ (execute_quiet _ c Hq)) in E.
    cbn [count_products fst snd] in E.
    assert (Hg : (0 <? Z.of_nat (List.length (products (pending c)))) && negb force
                 = false).
    { destruct Hseed as [-> | ->]; [apply andb_false_r|reflexivity]. }
    rewrite Hg in E. apply seed_with_products in E. exact E. }
  rewrite Hprod. split.
  - rewrite map_map.
    erewrite map_ext
      by (intros p; apply (deduct_samples_facts _ (sample_orders_qtys now) p)).
    cbn [seed_products new_products map Product.id].
    repeat (apply (f_equal2 (@cons Z)); [lia|]). reflexivity.
  - apply Forall2_map_r.
    pose proof (Forall2_new_products (seq_products (pending c)) seed_products
                  seed_products_stock) as HF.
    revert HF. apply Forall2_impl.
    intros listed p (H0 & Hn & Hc & Hs & Hst).
    destruct (deduct_samples_facts _ (sample_orders_qtys now) p)
      as (_ & G2 & G3 & G4 & G5).
    rewrite G2, G3, G4, <- Hst. repeat (split; [assumption|]).
    apply G5. rewrite Hst. exact H0.
Qed.

Lemma seeding_leaves_listed_products_witness :
  exists c',
    seed_dummy_data 0 false (get_conn empty_db []) = (Ok tt, c') /\
    map Product.id (products (committed c'))
    = map (fun k => seq_products (pending (get_conn empty_db [])) + k)
          [1; 2; 3; 4; 5; 6; 7; 8; 9; 10] /\
    Forall2 (fun listed p =>
               Product.name p = fst (fst (fst listed)) /\
               Product.cost_price p = snd (fst (fst listed)) /\
               Product.selling_price p = snd (fst listed) /\
               0 <= Product.stock_qty p <= snd listed)
            seed_products (products (committed c')).
Proof.
  exact (seeding_leaves_listed_products 0 false (get_conn empty_db [])
           eq_refl (or_intror eq_refl)).
Defined.

(** ** Outside the loader, rows are only appended *)

Lemma extends_refl d : extends d d.
Proof. repeat split; exists []; rewrite app_nil_r; reflexivity. Qed.

Lemma extends_has_products d0 d :
  products d0 <> [] -> extends d0 d -> products d <> [].
Proof.
  intros Hne [[ps Hps] _] Hnil. rewrite Hnil in Hps. simpl in Hps.
  symmetry in Hps. apply app_eq_nil in Hps. destruct Hps as [Hps _].
  apply map_eq_nil in Hps. contradiction.
Qed.

Lemma extends_insert_product d0 name cost sell stock d :
  extends d0 d -> extends d0 (snd (insert_product name cost sell stock d)).
Proof.
  intros [[ps Hps] Hrest]. split; [|exact Hrest]. simpl.
  exists (ps ++ [(seq_products d + 1, name, cost, sell)]).
  rewrite map_app, Hps, app_assoc. reflexivity.
Qed.

Lemma listed_columns_set_stock f pid p :
  listed_columns (set_stock f pid p) = listed_columns p.
Proof. unfold set_stock. destruct (Product.id p =? pid); reflexivity. Qed.

Lemma extends_set_stock d0 f pid d :
  extends d0 d -> extends d0 (update_products (set_stock f pid) d).
Proof.
  intros [[ps Hps] Hrest]. split; [|exact Hrest]. simpl.
  exists ps. rewrite map_map, <- Hps. apply map_ext.
  intros p. apply listed_columns_set_stock.
Qed.

Lemma extends_insert_order d0 otime cust total d :
  extends d0 d -> extends d0 (snd (insert_order otime cust total d)).
Proof.
  intros (Hps & [os Hos] & His). split; [exact Hps|]. split; [|exact His].
  simpl. exists (os ++ [Order.mk (seq_orders d + 1) otime cust total]).
  rewrite Hos, app_assoc. reflexivity.
Qed.

Lemma extends_insert_order_item d0 oid pid qty price d :
  extends d0 d -> extends d0 (snd (insert_order_item oid pid qty price d)).
Proof.
  intros (Hps & Hos & [its His]). split; [exact Hps|]. split; [exact Hos|].
  simpl. exists (its ++ [OrderItem.mk (seq_order_items d + 1) oid pid qty price]).
  rewrite His, app_assoc. reflexivity.
Qed.

Lemma keeps_extends_seed d0 now :
  products d0 <> [] -> keeps (both (extends d0)) (seed_dummy_data now false).
Proof.
  intros Hne c r c' [Hc Hp] H.
  apply seed_nonforced_skips in H.
  - destruct H as [Ec Ep]. split; [rewrite Ec|rewrite Ep]; assumption.
  - eapply extends_has_products; eassumption.
Qed.

Lemma keeps_extends_load_tables d0 : keeps (both (extends d0)) load_tables.
Proof.
  unfold load_tables.
  repeat (apply keeps_bind; [apply keeps_execute; auto|]; intros ?).
  apply keeps_ret.
Qed.

Lemma keeps_extends_finalize d0 items cust order_time total_amt :
  keeps (both (extends d0)) (finalize items cust order_time total_amt).
Proof.
  unfold finalize.
  apply keeps_bind;
    [apply keeps_execute; intros d; apply extends_insert_order|].
  intros oid. apply keeps_bind.
  { apply keeps_forM. intros item. unfold finalize_line.
    apply keeps_bind; [apply keeps_execute; auto|].
    intros [price|]; [|apply keeps_raise].
    apply keeps_bind;
      [apply keeps_execute; intros d; apply extends_insert_order_item|].
    intros _. apply keeps_execute. intros d. apply extends_set_stock. }
  intros _. apply keeps_bind; [apply keeps_commit|]. intros _. apply keeps_ret.
Qed.

Lemma keeps_extends_page d0 products_df items ev cust order_time :
  keeps (both (extends d0)) (add_order_page products_df items ev cust order_time).
Proof.
  unfold add_order_page.
  destruct products_df as [|p0 ps]; [apply keeps_ret|].
  destruct ev as [|psel qty|].
  - destruct (bill_lines (p0 :: ps) items) as [[|l ls]|];
      [apply keeps_ret|apply keeps_ret|apply keeps_raise].
  - destruct (nth_error (p0 :: ps) psel); apply keeps_ret.
  - destruct (bill_lines (p0 :: ps) items) as [[|l ls]|];
      [apply keeps_ret| |apply keeps_raise].
    apply keeps_bind; [apply keeps_extends_finalize|]. intros; apply keeps_ret.
Qed.

Lemma keeps_extends_dashboard d0 tq tp now t :
  keeps (both (extends d0)) (dashboard tq tp now t).
Proof.
  destruct t as [[products_df orders_df] order_items_df]. unfold dashboard.
  destruct (compute_customers_per_hour orders_df) as [orders_df' [|r per_hour]].
  - apply keeps_raise.
  - apply keeps_bind; [apply keeps_read_store|]. intros; apply keeps_ret.
Qed.

Lemma keeps_extends_script d0 now a :
  products d0 <> [] -> a <> Seed true ->
  keeps (both (extends d0)) (script now a).
Proof.
  intros Hne Ha.
  destruct a as [[|]|tq tp|pname cost sell stock|pid add_qty|items ev cust];
    cbn [script].
  - congruence.
  - apply keeps_extends_seed, Hne.
  - apply keeps_bind; [apply keeps_extends_seed, Hne|]. intros _.
    apply keeps_bind; [apply keeps_extends_load_tables|]. intros t.
    apply keeps_bind; [apply keeps_extends_dashboard|]. intros; apply keeps_ret.
  - apply keeps_bind; [apply keeps_extends_seed, Hne|]. intros _.
    apply keeps_bind; [apply keeps_extends_load_tables|]. intros _.
    unfold add_product.
    apply keeps_bind; [|intros _; apply keeps_commit].
    apply keeps_execute. intros d. apply extends_insert_product.
  - apply keeps_bind; [apply keeps_extends_seed, Hne|]. intros _.
    apply keeps_bind; [apply keeps_extends_load_tables|]. intros _.
    unfold add_stock.
    apply keeps_bind; [|intros _; apply keeps_commit].
    apply keeps_execute. intros d. apply extends_set_stock.
  - apply keeps_bind; [apply keeps_extends_seed, Hne|]. intros _.
    apply keeps_bind; [|intros; apply keeps_ret].
    unfold add_order_run.
    apply keeps_bind; [apply keeps_extends_load_tables|]. intros t.
    apply keeps_extends_page.
Qed.

(** X14.  On a store with products, a run of the script other than a
    forced reseeding only appends, whatever the engine does and however
    the run ends: the committed [orders] and [order_items] tables keep
    every row they had, unchanged and in place, with the new rows after
    them, and every product is still there, in place, with its key, name,
    cost and selling price (only its stock may have changed). *)
Theorem run_only_appends now a d sched r c'
    (Hne : products d <> [])
    (Ha : a <> Seed true)
    (Hrun : script now a (get_conn d sched) = (r, c')) :
  (exists ps, map listed_columns (products (committed c'))
              = map listed_columns (products d) ++ ps) /\
  (exists os, orders (committed c') = orders d ++ os) /\
  (exists its, order_items (committed c') = order_items d ++ its).
Proof.
  assert (H : both (extends d) c').
  { eapply (keeps_extends_script d now a Hne Ha); [|exact Hrun].
    split; apply extends_refl. }
  exact (proj1 H).
Qed.

Lemma run_only_appends_witness :
  (exists ps, map listed_columns (products (committed (snd example_run)))
              = map listed_columns (products (seeded_db 0)) ++ ps) /\
  (exists os, orders (committed (snd example_run)) = orders (seeded_db 0) ++ os) /\
  (exists its, order_items (committed (snd example_run))
               = order_items (seeded_db 0) ++ its).
Proof.
  assert (Hne : products (seeded_db 0) <> []) by (vm_compute; discriminate).
  assert (Ha : AddOrder [(1, 2)] FinalizeOrder "Walk-in" <> Seed true)
    by discriminate.
  unfold example_run.
  set (run := script 0 (AddOrder [(1, 2)] FinalizeOrder "Walk-in")
                (get_conn (seeded_db 0) [])).
  exact (run_only_appends 0 (AddOrder [(1, 2)] FinalizeOrder "Walk-in")
           (seeded_db 0) [] (fst run) (snd run) Hne Ha
           (surjective_pairing run)).
Defined.

(** ** The forms of "Manage Products" when the engine fails *)

Lemma statement_then_commit {A} (stmt : db -> A * db) c r c' :
  (execute stmt ;;; commit) c = (r, c') ->
  (r = Ok tt /\ committed c' = snd (stmt (pending c))
   /\ pending c' = committed c') \/
  (r = Raise OperationalError /\ committed c' = committed c).
Proof.
  intros H. apply bind_inv in H.
  destruct H as [(e & H & ->)|(a & c1 & E1 & H)].
  - right. revert H. unfold execute.
    destruct (next_fault c) as [[] rest]; [|destruct (stmt (pending c))];
      intros H; inversion H; subst; auto.
  - assert (Hc1 : committed c1 = committed c /\ pending c1 = snd (stmt (pending c))).
    { revert E1. unfold execute.
      destruct (next_fault c) as [[] rest]; [|destruct (stmt (pending c))];
        intros E1; inversion E1; subst; auto. }
    destruct Hc1 as [Hc1 Hp1]. revert H. unfold commit.
    destruct (next_fault c1) as [[] rest]; intros H; inversion H; subst; simpl.
    + right. auto.
    + left. auto.
Qed.

(** X15.  "Add Product" and "Update Stock" are all or nothing on the
    committed database, whatever the engine does: either the form returns
    normally and the committed database is the connection's view after the
    one statement of the form, or it raises [OperationalError] and the
    committed database is what it was. *)
Theorem manage_products_all_or_nothing pname cost sell stock pid add_qty
    c r1 c1 r2 c2
    (Hadd : add_product pname cost sell stock c = (r1, c1))
    (Hstock : add_stock pid add_qty c = (r2, c2)) :
  ((r1 = Ok tt /\
    committed c1 = snd (insert_product pname cost sell stock (pending c)) /\
    pending c1 = committed c1) \/
   (r1 = Raise OperationalError /\ committed c1 = committed c)) /\
  ((r2 = Ok tt /\
    committed c2 = snd (update_stock_add add_qty pid (pending c)) /\
    pending c2 = committed c2) \/
   (r2 = Raise OperationalError /\ committed c2 = committed c)).
Proof.
  split.
  - exact (statement_then_commit _ c r1 c1 Hadd).
  - exact (statement_then_commit _ c r2 c2 Hstock).
Qed.

Lemma manage_products_all_or_nothing_witness :
  committed (snd failed_add_product)
  = committed (get_conn (seeded_db 0) [false; true]) /\
  committed (snd failed_add_stock)
  = committed (get_conn (seeded_db 0) [false; true]).
Proof.
  assert (H1 : fst failed_add_product <> Ok tt) by (vm_compute; discriminate).
  assert (H2 : fst failed_add_stock <> Ok tt) by (vm_compute; discriminate).
  pose proof (manage_products_all_or_nothing "Butter" 40 52 6 1 5
                (get_conn (seeded_db 0) [false; true])
                (fst failed_add_product) (snd failed_add_product)
                (fst failed_add_stock) (snd failed_add_stock)
                (surjective_pairing failed_add_product)
                (surjective_pairing failed_add_stock)) as W.
  destruct W as [[(E1 & _)|(_ & E1)] [(E2 & _)|(_ & E2)]].
  all: try (exfalso; apply H1; exact E1).
  all: try (exfalso; apply H2; exact E2).
  split; [exact E1|exact E2].
Defined.
